(** * crawler.js: a shallow embedding of the form crawler and its run controller

    The development follows [src/crawler.js] function by function:
    - [fetchDomains]        (lines 17-50)   the domain feed aggregator;
    - [loadScannedDomains], [saveScannedDomains] (lines 52-65) the scan state store;
    - [getNextResultFile], [saveResults]   (lines 67-100) the result store;
    - [crawlDomain]         (lines 131-234) the frontier crawler;
    - [main]                (lines 236-299) the run controller.

    Conventions of the model.
    - A JavaScript string is a [string]; every character stands for one code
      unit below 256, so the white space removed by [String.prototype.trim]
      is the set 9-13, 32 and 160.
    - JSON text is identified with the document it denotes: a file holds
      either a document or bytes on which [JSON.parse] throws. A document of
      [scanned.json] has the shape that [saveScannedDomains] writes, and a
      document of a shard is an array of form records. Text that parses to
      a value of another shape is outside the model: a statement about a run
      holds for the runs whose files, when they parse, have these shapes.
    - The numbers of the result store are doubles: [JsNumber] gives the
      non-negative integers among them and [Infinity], with rounding to
      nearest, ties to even, as [parseInt] and [+] round, and
      [Number::toString] as template literals print. Sizes in bytes are
      naturals in [N].
    - [async] functions are computations in a state and exception monad:
      a rejected promise is a thrown exception, [await] is sequencing.
    - The file system and the renderer are the environment: which calls
      reject is part of the input of a run, and so is what a [writeFile]
      call that rejects leaves behind: the file as it was (the call failed
      before the file was opened), a file cut short (the file was truncated
      and part of the text written), or the whole text (the call failed
      when the file was closed). *)

From Stdlib Require Import NArith Ascii String DecimalString DecimalN DecimalFacts Sorted.
From stdpp Require Import base tactics option list gmap strings.

(** ** JavaScript string operations used by the crawler *)

Module JsString.

(** [WhiteSpace] and [LineTerminator] code units below 256. *)
Definition is_ws (c : ascii) : bool :=
  let n := nat_of_ascii c in
  ((9 <=? n)%nat && (n <=? 13)%nat) || (n =? 32)%nat || (n =? 160)%nat.

Fixpoint trimStart (s : string) : string :=
  match s with
  | String c r => if is_ws c then trimStart r else s
  | EmptyString => EmptyString
  end.

Fixpoint trimEnd (s : string) : string :=
  match s with
  | String c r =>
      match trimEnd r with
      | EmptyString => if is_ws c then EmptyString else String c EmptyString
      | r' => String c r'
      end
  | EmptyString => EmptyString
  end.

(** [s.trim()] *)
Definition trim (s : string) : string := trimEnd (trimStart s).

(** [s.startsWith(p)] *)
Fixpoint startsWith (s p : string) : bool :=
  match p, s with
  | EmptyString, _ => true
  | String a p', String b s' => Ascii.eqb a b && startsWith s' p'
  | String _ _, EmptyString => false
  end.

(** The rest of [s] after the prefix [p], when [s] starts with [p]. *)
Fixpoint stripPrefix (p s : string) : option string :=
  match p, s with
  | EmptyString, _ => Some s
  | String a p', String b s' => if Ascii.eqb a b then stripPrefix p' s' else None
  | String _ _, EmptyString => None
  end.

(** [s.endsWith(p)] *)
Fixpoint endsWith (s p : string) : bool :=
  String.eqb s p ||
  match s with
  | String _ s' => endsWith s' p
  | EmptyString => false
  end.

(** [s.includes(p)] *)
Fixpoint includes (s p : string) : bool :=
  startsWith s p ||
  match s with
  | String _ s' => includes s' p
  | EmptyString => false
  end.

(** [s.split(sep)] for a one-character separator: the pieces between the
    separators, in order; the empty string gives one empty piece. *)
Fixpoint split (sep : ascii) (s : string) : list string :=
  match s with
  | EmptyString => [EmptyString]
  | String c r =>
      if Ascii.eqb c sep then EmptyString :: split sep r
      else match split sep r with
           | p :: ps => String c p :: ps
           | [] => [String c EmptyString]
           end
  end.

(** [s.replace(/^p/, '')] for a literal [p]: drop one leading [p]. *)
Definition dropPrefix (p s : string) : string :=
  match stripPrefix p s with
  | Some r => r
  | None => s
  end.

(** Every character of [s] satisfies [p]. *)
Fixpoint allChars (p : ascii -> bool) (s : string) : bool :=
  match s with
  | String c r => p c && allChars p r
  | EmptyString => true
  end.

(** A JavaScript string is truthy when it is not empty. *)
Definition truthy (s : string) : bool := negb (String.eqb s EmptyString).

End JsString.

(** ** JavaScript numbers used by the result store *)

Module JsNumber.

(** The Number values that the result store computes with: the doubles that
    are non-negative integers, each given by its value, and [+Infinity]. *)
Inductive Num :=
| Fin (n : N)
| Infinity.

(** Up to [2^53] every natural is a double. *)
Definition EXACT : N := 2 ^ 53.

(** The Number value for a natural: the nearest double, the one with the
    even significand of 53 bits when two are as near; [Infinity] from
    [2^1024 - 2^970] on. *)
Definition toNumber (n : N) : Num :=
  if (n <=? EXACT)%N then Fin n
  else
    let e := (N.log2 n - 52)%N in
    let q := N.shiftr n e in
    let r := N.land n (N.ones e) in
    let half := N.shiftl 1 (e - 1) in
    let q' := if (r <? half)%N then q
              else if (half <? r)%N then (q + 1)%N
              else if N.even q then q else (q + 1)%N in
    let v := N.shiftl q' e in
    if (2 ^ 1024 <=? v)%N then Infinity else Fin v.

(** [x + 1] *)
Definition add1 (x : Num) : Num :=
  match x with
  | Fin n => toNumber (n + 1)
  | Infinity => Infinity
  end.

(** [x < y] *)
Definition ltb (x y : Num) : bool :=
  match x, y with
  | Fin a, Fin b => (a <? b)%N
  | Fin _, Infinity => true
  | Infinity, _ => false
  end.

Definition Num_lt (x y : Num) : Prop := ltb x y = true.
Definition Num_le (x y : Num) : Prop := ltb y x = false.

(** The decimal numeral of a natural. *)
Definition decimal (n : N) : string := NilEmpty.string_of_uint (N.to_uint n).

(** The natural [v] has the Number value [Fin x]. *)
Definition roundsTo (v x : N) : bool :=
  match toNumber v with
  | Fin y => (y =? x)%N
  | Infinity => false
  end.

(** [Number::toString] looks for the least [k] such that some [s] of [k]
    digits has [s * 10^(n-k)] of Number value [x]; of two such [s] it takes
    the nearer to [x], the even one when they are as near. Here [x] has at
    most [n] digits, so the nearest candidates are the two around
    [x / 10^(n-k)]. *)
Definition candidate (x : N) (n k : nat) : option N :=
  let scale := (10 ^ N.of_nat (n - k))%N in
  let lo := (x / scale)%N in
  let hi := (lo + 1)%N in
  let ok s := (10 ^ N.of_nat (k - 1) <=? s)%N && (s <? 10 ^ N.of_nat k)%N
              && roundsTo (s * scale) x in
  match ok lo, ok hi with
  | true, true =>
      let dlo := (x - lo * scale)%N in
      let dhi := (hi * scale - x)%N in
      if (dlo <? dhi)%N then Some lo
      else if (dhi <? dlo)%N then Some hi
      else if N.even lo then Some lo else Some hi
  | true, false => Some lo
  | false, true => Some hi
  | false, false => None
  end.

(** The least [k] from [k] on with a candidate, and the candidate; [x]
    itself has one with [k = n]. *)
Fixpoint shortest (x : N) (n fuel k : nat) : N * nat :=
  match fuel with
  | O => (x, n)
  | S fuel' =>
      match candidate x n k with
      | Some s => (s, k)
      | None => shortest x n fuel' (S k)
      end
  end.

Fixpoint zeros (n : nat) : string :=
  match n with
  | O => EmptyString
  | S n' => String "0" (zeros n')
  end.

(** The digits of [s] followed by [n - k] zeros when [n] is at most 21, and
    the exponent notation otherwise. *)
Definition format (s : N) (k n : nat) : string :=
  if (n <=? 21)%nat then decimal s +:+ zeros (n - k)
  else
    match decimal s with
    | String c rest =>
        (if (k =? 1)%nat then String c EmptyString else String c ("." +:+ rest))
        +:+ "e+" +:+ decimal (N.of_nat (n - 1))
    | EmptyString => EmptyString
    end.

(** [String(x)], as a template literal prints [x]. Up to [2^53] the
    shortest numeral is the decimal numeral; above, [n] is the number of
    digits of [x], or one more when [10^n] itself has the value [x]. *)
Definition toString (x : Num) : string :=
  match x with
  | Infinity => "Infinity"
  | Fin v =>
      if (v <=? EXACT)%N then decimal v
      else
        let n := String.length (decimal v) in
        if roundsTo (10 ^ N.of_nat n) v then format 1 1 (S n)
        else let (s, k) := shortest v n n 1 in format s k n
  end.

End JsNumber.

(** ** Domain feed aggregator: [fetchDomains] *)

Module Feed.
Import JsString.

Definition LF : ascii := ascii_of_nat 10.

(** [domains.add(d)] on a JavaScript [Set]: insertion order is kept and a
    value already present is not added again. *)
Definition set_add (d : string) (domains : list string) : list string :=
  if bool_decide (d ∈ domains) then domains else domains ++ [d].

(** The callback of lines 23-28, applied to one line of [domains.txt]. *)
Definition addDomainLine (domains : list string) (domain : string) : list string :=
  let trimmed := trim domain in
  if truthy trimmed && negb (startsWith trimmed "#")
  then set_add trimmed domains
  else domains.

(** The callback of lines 36-44, applied to one line of [wildcards.txt]. *)
Definition addWildcardLine (domains : list string) (domain : string) : list string :=
  let trimmed := trim domain in
  if truthy trimmed && negb (startsWith trimmed "#")
  then
    let cleaned := dropPrefix "*." trimmed in
    if truthy cleaned then set_add cleaned domains else domains
  else domains.

(** One [try] block: a fetch that fails ([None]) is logged and adds nothing. *)
Definition addFeed (cb : list string -> string -> list string)
    (text : option string) (domains : list string) : list string :=
  match text with
  | Some t => fold_left cb (split LF t) domains
  | None => domains
  end.

(** [fetchDomains]: the two responses are the text of [DOMAINS_URL] and of
    [WILDCARDS_URL]; the result is [Array.from(domains)]. *)
Definition fetchDomains (domainsText wildcardsText : option string) : list string :=
  addFeed addWildcardLine wildcardsText (addFeed addDomainLine domainsText []).

End Feed.

(** ** Data model *)

(** The element kinds selected by ['input, textarea, select'];
    [tagName.toLowerCase()] of each. *)
Inductive Tag := TagInput | TagTextarea | TagSelect.

Definition tagNameLower (t : Tag) : string :=
  match t with
  | TagInput => "input"
  | TagTextarea => "textarea"
  | TagSelect => "select"
  end.

(** What the page's DOM exposes of an option, a form control and a form. *)
Record DomOption := { opt_value : string; opt_textContent : string }.

Record DomInput := {
  in_tag : Tag;
  in_type : string;
  in_name : string;
  in_id : string;
  in_placeholder : string;
  in_required : bool;
  in_options : list DomOption
}.

Record DomForm := {
  dom_action : string;
  dom_method : string;
  dom_inputs : list DomInput
}.

(** An anchor of the page: its resolved [href] and the [hostname] that
    [new URL(href)] gives, [None] when the constructor throws. *)
Record Anchor := { href : string; hostname : option string }.

Record FieldRecord := {
  field_type : string;
  field_name : string;
  field_id : string;
  field_placeholder : string;
  field_required : bool;
  field_options : option (list string)
}.

Record FormRecord := {
  form_url : string;
  form_action : string;
  form_method : string;
  form_fields : list FieldRecord
}.

(** The scan state document [{scanned, lastUpdate}]. *)
Record ScanState := {
  scanned : list string;
  lastUpdate : option string
}.

(** The condition of [stat/scanned.json]. *)
Inductive StatFile :=
| StatMissing                      (* no such file: [readFile] rejects *)
| StatUnreadable                   (* the file cannot be read: [readFile] rejects *)
| StatMalformed                    (* text on which [JSON.parse] throws *)
| StatDocument (doc : ScanState).

(** The content of a file of the results directory. *)
Inductive Body :=
| Unreadable                       (* [readFile] rejects *)
| Garbage                          (* text on which [JSON.parse] throws *)
| Records (forms : list FormRecord).

(** [fsize] is what [fs.stat] reports, [None] when [fs.stat] rejects. *)
Record File := { fsize : option N; fbody : Body }.

(** The results directory: its entries in the order [readdir] lists them;
    [listable = false] when [readdir] rejects. *)
Record Dir := { listable : bool; entries : list (string * File) }.

(** The observable effects of a run, oldest first. *)
Inductive Event :=
| EvLaunch (domain : string)                          (* [chromium.launch] is called *)
| EvClose (domain : string)                           (* [browser.close] is called *)
| EvWriteResult (name : string) (forms : list FormRecord)   (* a [writeFile] of a shard resolves *)
| EvWriteState (doc : ScanState).                     (* a [writeFile] of [scanned.json] resolves *)

(** Exceptions a JavaScript computation of the program can end with. *)
Inductive Exn :=
| IOError (syscall : string)
| SyntaxError
| RendererError (call : string).

(** What a [writeFile] call that rejects leaves of the file. *)
Inductive Damage :=
| Untouched                        (* the file is as it was: it was not opened *)
| Truncated (written : N)          (* the file was truncated and [written] bytes stored *)
| Stored.                          (* the whole text was stored *)

(** The state the run acts on: the two directories, the outcome of the
    coming [writeFile] calls ([true]: the call rejects; no entry: it
    succeeds), what the coming rejected calls leave behind (no entry: the
    file as it was), the number of clock readings so far, the effects so
    far, and the two variables of [main] that its loop updates. *)
Record Machine := {
  resultDir : Dir;
  statFile : StatFile;
  writeFaults : list bool;
  writeDamage : list Damage;
  ticks : nat;
  trace : list Event;
  stats : ScanState;
  formsFound : bool
}.

(** What a run does not change: the outcome of [mkdir], the two feeds, the
    clock, the size in bytes of [JSON.stringify(forms, null, 2)], and the
    renderer, which answers per crawled domain. *)
Record Page := {
  page_forms : option (list DomForm);      (* [None]: the first [page.evaluate] rejects *)
  page_anchors : option (list Anchor)      (* [None]: the second [page.evaluate] rejects *)
}.

Record Env := {
  mkdirOk : bool;
  domainsText : option string;
  wildcardsText : option string;
  date : nat -> string;
  byteLength : list FormRecord -> N;
  launchOk : string -> bool;
  newContextOk : string -> bool;
  newPageOk : string -> bool;
  goto : string -> string -> option Page;  (* [None]: [page.goto] rejects *)
  closeOk : string -> bool
}.

(** ** The monad of [async] functions *)

Inductive Res (A : Type) :=
| Ok (a : A)
| Throw (e : Exn).
Arguments Ok {A} a.
Arguments Throw {A} e.

Definition M (A : Type) : Type := Machine -> Res A * Machine.

Definition ret {A} (a : A) : M A := fun m => (Ok a, m).

Definition bind {A B} (c : M A) (k : A -> M B) : M B :=
  fun m => match c m with
           | (Ok a, m') => k a m'
           | (Throw e, m') => (Throw e, m')
           end.

Definition throw {A} (e : Exn) : M A := fun m => (Throw e, m).

(** [try { c } catch (e) { h e }]: the effects of [c] before it threw stay. *)
Definition try_catch {A} (c : M A) (h : Exn -> M A) : M A :=
  fun m => match c m with
           | (Ok a, m') => (Ok a, m')
           | (Throw e, m') => h e m'
           end.

Definition get : M Machine := fun m => (Ok m, m).
Definition modify (f : Machine -> Machine) : M unit := fun m => (Ok tt, f m).

Declare Scope js_scope.
Delimit Scope js_scope with js.
Notation "x <- c ;; k" := (bind c (fun x => k))
  (at level 100, c at next level, right associativity) : js_scope.
Notation "c ;; k" := (bind c (fun _ => k))
  (at level 100, right associativity) : js_scope.
Local Open Scope js_scope.

Definition set_resultDir (d : Dir) (m : Machine) : Machine :=
  {| resultDir := d; statFile := statFile m; writeFaults := writeFaults m;
     writeDamage := writeDamage m; ticks := ticks m; trace := trace m;
     stats := stats m; formsFound := formsFound m |}.
Definition set_statFile (f : StatFile) (m : Machine) : Machine :=
  {| resultDir := resultDir m; statFile := f; writeFaults := writeFaults m;
     writeDamage := writeDamage m; ticks := ticks m; trace := trace m;
     stats := stats m; formsFound := formsFound m |}.
Definition set_writeFaults (w : list bool) (m : Machine) : Machine :=
  {| resultDir := resultDir m; statFile := statFile m; writeFaults := w;
     writeDamage := writeDamage m; ticks := ticks m; trace := trace m;
     stats := stats m; formsFound := formsFound m |}.
Definition set_writeDamage (w : list Damage) (m : Machine) : Machine :=
  {| resultDir := resultDir m; statFile := statFile m; writeFaults := writeFaults m;
     writeDamage := w; ticks := ticks m; trace := trace m;
     stats := stats m; formsFound := formsFound m |}.
Definition set_ticks (n : nat) (m : Machine) : Machine :=
  {| resultDir := resultDir m; statFile := statFile m; writeFaults := writeFaults m;
     writeDamage := writeDamage m; ticks := n; trace := trace m;
     stats := stats m; formsFound := formsFound m |}.
Definition set_trace (t : list Event) (m : Machine) : Machine :=
  {| resultDir := resultDir m; statFile := statFile m; writeFaults := writeFaults m;
     writeDamage := writeDamage m; ticks := ticks m; trace := t;
     stats := stats m; formsFound := formsFound m |}.
Definition set_stats (s : ScanState) (m : Machine) : Machine :=
  {| resultDir := resultDir m; statFile := statFile m; writeFaults := writeFaults m;
     writeDamage := writeDamage m; ticks := ticks m; trace := trace m;
     stats := s; formsFound := formsFound m |}.
Definition set_formsFound (b : bool) (m : Machine) : Machine :=
  {| resultDir := resultDir m; statFile := statFile m; writeFaults := writeFaults m;
     writeDamage := writeDamage m; ticks := ticks m; trace := trace m;
     stats := stats m; formsFound := b |}.

(** Record one effect. *)
Definition emit (e : Event) : M unit := modify (fun m => set_trace (trace m ++ [e]) m).

(** [new Date().toISOString()] *)
Definition now (env : Env) : M string :=
  fun m => (Ok (date env (ticks m)), set_ticks (S (ticks m)) m).

(** [fs.writeFile(file, text)]: [store] puts the text in the file, [cut n]
    leaves the file with the first [n] bytes of it. The call rejects when
    the head of [writeFaults] is [true], and then the head of [writeDamage]
    says what is left of the file. *)
Definition writeGate (store : Machine -> Machine) (cut : N -> Machine -> Machine) : M unit :=
  fun m =>
    let m1 := set_writeFaults (tl (writeFaults m)) m in
    if hd false (writeFaults m) then
      let m2 := set_writeDamage (tl (writeDamage m)) m1 in
      (Throw (IOError "writeFile"),
       match hd Untouched (writeDamage m) with
       | Untouched => m2
       | Truncated written => cut written m2
       | Stored => store m2
       end)
    else (Ok tt, store m1).

(** ** Scan state store: [loadScannedDomains], [saveScannedDomains] *)

(** [fs.readFile(statsFile, 'utf8')] *)
Definition readStatFile : M StatFile :=
  fun m => match statFile m with
           | StatMissing | StatUnreadable => (Throw (IOError "readFile"), m)
           | f => (Ok f, m)
           end.

(** [JSON.parse(data)] on the text of the state file. *)
Definition parseStatFile (data : StatFile) : M ScanState :=
  match data with
  | StatDocument doc => ret doc
  | _ => throw SyntaxError
  end.

Definition defaultStats : ScanState := {| scanned := []; lastUpdate := None |}.

Definition loadScannedDomains : M ScanState :=
  try_catch
    (data <- readStatFile ;; parseStatFile data)
    (fun _ => ret defaultStats).

(** A proper prefix of the text of a document is text that [JSON.parse]
    rejects. *)
Definition saveScannedDomains (data : ScanState) : M unit :=
  writeGate (set_statFile (StatDocument data)) (fun _ => set_statFile StatMalformed) ;;
  emit (EvWriteState data).

(** ** Result store: [getNextResultFile], [saveResults] *)

Module ResultStore.
Import JsString JsNumber.

Definition MAX_FILE_SIZE : N := 20 * 1024 * 1024.

Definition is_digit (c : ascii) : bool :=
  let n := nat_of_ascii c in (48 <=? n)%nat && (n <=? 57)%nat.
Arguments is_digit : simpl never.

(** The longest run of digits at the start of [s], and what follows it. *)
Fixpoint spanDigits (s : string) : string * string :=
  match s with
  | String c r =>
      if is_digit c then let (ds, rest) := spanDigits r in (String c ds, rest)
      else (EmptyString, s)
  | EmptyString => (EmptyString, EmptyString)
  end.

(** An attempt of [/forms(_(\d+))?\.json/] at the start of [s]. The result
    is group 2: [Some ds] when the optional group took part, [None] when
    it did not. The group is tried first (the quantifier is greedy); the
    digits are the longest run, since after a shorter run the next
    character is a digit and cannot start [.json]. *)
Definition matchHere (s : string) : option (option string) :=
  match stripPrefix "forms" s with
  | None => None
  | Some r =>
      let group :=
        match stripPrefix "_" r with
        | Some r1 =>
            let (ds, r2) := spanDigits r1 in
            if truthy ds && startsWith r2 ".json" then Some ds else None
        | None => None
        end in
      match group with
      | Some ds => Some (Some ds)
      | None => if startsWith r ".json" then Some None else None
      end
  end.

(** [s.match(/forms(_(\d+))?\.json/)]: the leftmost position where the
    expression matches; [None] is JavaScript's [null]. *)
Fixpoint regexMatch (s : string) : option (option string) :=
  match matchHere s with
  | Some g => Some g
  | None =>
      match s with
      | String _ r => regexMatch r
      | EmptyString => None
      end
  end.

(** The natural that a string of decimal digits denotes (leading zeros
    allowed). *)
Definition digitsValue (ds : string) : N :=
  match NilEmpty.uint_of_string ds with
  | Some d => N.of_uint d
  | None => 0%N
  end.

(** [parseInt(ds)] on a string of decimal digits: the Number value of the
    natural that the numeral denotes. *)
Definition parseInt (ds : string) : Num := toNumber (digitsValue ds).

(** [num && num[2] ? parseInt(num[2]) : 0], lines 76-79. *)
Definition indexOf (f : string) : Num :=
  match regexMatch f with
  | Some (Some ds) => parseInt ds
  | _ => Fin 0
  end.

(** [Array.prototype.sort] with the comparator [indexB - indexA]: the sort
    is stable, larger indices first. The difference is negative exactly
    when [indexB < indexA]; of two infinite indices it is [NaN], which the
    sort takes as 0. *)
Fixpoint insertDesc (f : string) (sorted : list string) : list string :=
  match sorted with
  | g :: rest =>
      if ltb (indexOf f) (indexOf g) then g :: insertDesc f rest
      else f :: sorted
  | [] => [f]
  end.

Definition sortDesc (files : list string) : list string :=
  foldr insertDesc [] files.

(** [files] is ordered by index, largest first. *)
Definition descending (files : list string) : Prop :=
  StronglySorted (fun f g => Num_le (indexOf g) (indexOf f)) files.

(** [`forms_${nextIndex}.json`] *)
Definition shardName (nextIndex : Num) : string :=
  "forms_" +:+ toString nextIndex +:+ ".json".

(** [fs.readdir(RESULT_DIR)] *)
Definition readdir : M (list string) :=
  fun m => if listable (resultDir m)
           then (Ok (map fst (entries (resultDir m))), m)
           else (Throw (IOError "readdir"), m).

Fixpoint lookupFile (name : string) (es : list (string * File)) : option File :=
  match es with
  | (n, f) :: rest => if String.eqb n name then Some f else lookupFile name rest
  | [] => None
  end.

(** Overwrite the file [name], or create it after the existing entries. *)
Fixpoint storeFile (name : string) (f : File) (es : list (string * File))
    : list (string * File) :=
  match es with
  | (n, g) :: rest =>
      if String.eqb n name then (n, f) :: rest else (n, g) :: storeFile name f rest
  | [] => [(name, f)]
  end.

(** [fs.stat(path)], of which only [size] is used. *)
Definition stat (name : string) : M N :=
  fun m => match lookupFile name (entries (resultDir m)) with
           | Some {| fsize := Some n |} => (Ok n, m)
           | _ => (Throw (IOError "stat"), m)
           end.

(** [fs.readFile(path, 'utf8')] *)
Definition readFile (name : string) : M Body :=
  fun m => match lookupFile name (entries (resultDir m)) with
           | Some {| fbody := Unreadable |} | None => (Throw (IOError "readFile"), m)
           | Some f => (Ok (fbody f), m)
           end.

(** [JSON.parse(text)] on the text of a shard. *)
Definition parseBody (text : Body) : M (list FormRecord) :=
  match text with
  | Records forms => ret forms
  | _ => throw SyntaxError
  end.

(** The results directory with the file [name] overwritten or created. *)
Definition putFile (name : string) (f : File) (m : Machine) : Machine :=
  set_resultDir
    {| listable := listable (resultDir m);
       entries := storeFile name f (entries (resultDir m)) |} m.

(** [fs.writeFile(filePath, JSON.stringify(allForms, null, 2))]. A file cut
    short holds fewer bytes than the text has, and [JSON.parse] rejects
    them. *)
Definition writeFile (env : Env) (name : string) (allForms : list FormRecord) : M unit :=
  writeGate
    (putFile name {| fsize := Some (byteLength env allForms); fbody := Records allForms |})
    (fun written =>
       putFile name {| fsize := Some (N.min written (N.pred (byteLength env allForms)));
                       fbody := Garbage |}) ;;
  emit (EvWriteResult name allForms).

(** The object [{ path, data }] that [getNextResultFile] resolves to;
    [path] is given relative to [RESULT_DIR]. *)
Record Target := { path : string; data : list FormRecord }.

(** Line 69. *)
Definition isFormFile (f : string) : bool :=
  startsWith f "forms" && endsWith f ".json".

(** [formFiles[0]] is only read when [formFiles] is not empty. *)
Definition first (formFiles : list string) : string := hd EmptyString formFiles.

(** Lines 91-92. *)
Definition nextIndexOf (f : string) : Num :=
  match regexMatch f with
  | Some (Some ds) => add1 (parseInt ds)
  | _ => Fin 1
  end.

Definition getNextResultFile : M Target :=
  files <- try_catch readdir (fun _ => ret []) ;;
  let formFiles := filter (fun f => isFormFile f = true) files in
  if (length formFiles =? 0)%nat then
    ret {| path := "forms.json"; data := [] |}
  else
    let formFiles := sortDesc formFiles in
    let lastFile := first formFiles in
    stats <- try_catch (size <- stat lastFile ;; ret (Some size)) (fun _ => ret None) ;;
    match stats with
    | Some size =>
        if (size <? MAX_FILE_SIZE)%N then
          text <- readFile lastFile ;;
          data <- parseBody text ;;
          ret {| path := lastFile; data := data |}
        else ret {| path := shardName (nextIndexOf (first formFiles)); data := [] |}
    | None => ret {| path := shardName (nextIndexOf (first formFiles)); data := [] |}
    end.

(** The names of the directory that line 69 keeps, in listing order. *)
Definition formFilesOf (d : Dir) : list string :=
  filter (fun f => isFormFile f = true) (map fst (entries d)).

(** The shard naming pattern: [forms.json] or [forms_<N>.json]. *)
Definition shardPattern (f : string) : Prop :=
  f = "forms.json" \/
  exists ds, ds <> "" /\ allChars is_digit ds = true /\ f = "forms_" +:+ ds +:+ ".json".

Definition saveResults (env : Env) (forms : list FormRecord) : M unit :=
  target <- getNextResultFile ;;
  let allForms := (data target ++ forms)%list in
  writeFile env (path target) allForms.

End ResultStore.

(** ** Frontier crawler: [crawlDomain] *)

Module Crawler.
Import JsString.

(** [a || b] on strings. *)
Definition orElse (a b : string) : string := if truthy a then a else b.

(** Lines 184-197: the record of one form control. *)
Definition extractField (input : DomInput) : FieldRecord :=
  {| field_type := orElse (in_type input) (tagNameLower (in_tag input));
     field_name := orElse (in_name input) "";
     field_id := orElse (in_id input) "";
     field_placeholder := orElse (in_placeholder input) "";
     field_required := in_required input || false;
     field_options :=
       match in_tag input with
       | TagSelect =>
           Some (map (fun opt => orElse (opt_value opt) (opt_textContent opt))
                     (in_options input))
       | _ => None
       end |}.

(** Lines 174-201: the record of one form of the page at [currentUrl]. *)
Definition extractFormData (currentUrl : string) (form : DomForm) : FormRecord :=
  {| form_url := currentUrl;
     form_action := orElse (dom_action form) "";
     form_method := orElse (dom_method form) "get";
     form_fields := map extractField (dom_inputs form) |}.

(** Line 146: [domain.replace(/^https?:\/\//, '').replace(/^www\./, '')]. *)
Definition baseDomainOf (domain : string) : string :=
  dropPrefix "www."
    match stripPrefix "https://" domain with
    | Some r => r
    | None => dropPrefix "http://" domain
    end.

(** Lines 210-218: the filter of the links of a page. *)
Definition sameSite (domain : string) (a : Anchor) : bool :=
  match hostname a with
  | Some h =>
      let linkDomain := dropPrefix "www." h in
      String.eqb linkDomain domain || endsWith linkDomain ("." +:+ domain)
  | None => false
  end.

(** The variables of the visit loop. *)
Record Frontier := {
  toVisit : list string;
  visited : gset string;
  forms : list FormRecord
}.

(** Lines 221-225. *)
Definition enqueue (visited : gset string) (links : list string) (toVisit : list string)
    : list string :=
  fold_left
    (fun q link =>
       if negb (bool_decide (link ∈ visited)) && (length q <? 100)%nat
       then (q ++ [link])%list else q)
    links toVisit.

(** Lines 206-219: the links that the second [page.evaluate] returns. *)
Definition linksOf (baseDomain : string) (anchors : list Anchor) : list string :=
  map href (filter (fun a => sameSite baseDomain a = true) anchors).

(** One turn of the [while] loop of line 160; [None] when its condition
    is false. Every exception of the body is caught inside the turn. *)
Definition step (env : Env) (domain baseDomain : string) (st : Frontier)
    : option Frontier :=
  match toVisit st with
  | url :: rest =>
      if (size (visited st) <? 50)%nat then
        if bool_decide (url ∈ visited st) then
          Some {| toVisit := rest; visited := visited st; forms := forms st |}
        else
          let visited' := {[url]} ∪ visited st in
          match goto env domain url with
          | None => Some {| toVisit := rest; visited := visited'; forms := forms st |}
          | Some page =>
              match page_forms page with
              | None => Some {| toVisit := rest; visited := visited'; forms := forms st |}
              | Some pageForms =>
                  let forms' := (forms st ++ map (extractFormData url) pageForms)%list in
                  match page_anchors page with
                  | None => Some {| toVisit := rest; visited := visited'; forms := forms' |}
                  | Some anchors =>
                      let links := linksOf baseDomain anchors in
                      Some {| toVisit := enqueue visited' (take 10 links) rest;
                              visited := visited';
                              forms := forms' |}
                  end
              end
          end
      else None
  | [] => None
  end.

(** A bound on the number of turns that are left. *)
Definition turnsLeft (st : Frontier) : nat :=
  (50 - size (visited st)) * 101 + length (toVisit st).

(** The [while] loop, for at most [fuel] turns. *)
Fixpoint visitLoop (env : Env) (domain baseDomain : string) (fuel : nat) (st : Frontier)
    : Frontier :=
  match fuel with
  | S fuel' =>
      match step env domain baseDomain st with
      | Some st' => visitLoop env domain baseDomain fuel' st'
      | None => st
      end
  | O => st
  end.

(** Lines 142-158: the three seed URLs; [visited] is empty, so all three
    are pushed. *)
Definition seed (domain : string) : Frontier :=
  let urls := ["https://" +:+ domain; "https://www." +:+ domain; "http://" +:+ domain] in
  {| toVisit := fold_left
                  (fun q url => if bool_decide (url ∈ (∅ : gset string)) then q
                                else (q ++ [url])%list)
                  urls [];
     visited := ∅;
     forms := [] |}.

(** The states of the visit loop of one crawl: the state after the seeds
    are pushed, and every state after one more turn. *)
Inductive reachable (env : Env) (domain : string) : Frontier -> Prop :=
| reach_seed : reachable env domain (seed domain)
| reach_step st st' :
    reachable env domain st ->
    step env domain (baseDomainOf domain) st = Some st' ->
    reachable env domain st'.

(** A renderer call that rejects when [ok] is false. *)
Definition renderer (call : string) (ok : bool) : M unit :=
  if ok then ret tt else throw (RendererError call).

Definition crawlDomain (env : Env) (domain : string) : M (list FormRecord) :=
  emit (EvLaunch domain) ;;
  renderer "launch" (launchOk env domain) ;;
  renderer "newContext" (newContextOk env domain) ;;
  renderer "newPage" (newPageOk env domain) ;;
  let baseDomain := baseDomainOf domain in
  let st0 := seed domain in
  let st := visitLoop env domain baseDomain (turnsLeft st0) st0 in
  emit (EvClose domain) ;;
  renderer "close" (closeOk env domain) ;;
  ret (forms st).

(** A machine on which nothing has happened. *)
Definition blank : Machine :=
  {| resultDir := {| listable := false; entries := [] |};
     statFile := StatMissing;
     writeFaults := [];
     writeDamage := [];
     ticks := 0;
     trace := [];
     stats := defaultStats;
     formsFound := false |}.

(** What [crawlDomain] resolves or rejects with, and the renderer calls
    it makes: both depend on the renderer alone. *)
Definition crawlResult (env : Env) (domain : string) : Res (list FormRecord) :=
  fst (crawlDomain env domain blank).

Definition crawlEvents (env : Env) (domain : string) : list Event :=
  trace (snd (crawlDomain env domain blank)).

(** The three seed URLs of lines 148-152. *)
Definition seedsOf (domain : string) : list string :=
  ["https://" +:+ domain; "https://www." +:+ domain; "http://" +:+ domain].

(** [u] is one of the first ten links that passed the same-site filter on
    a page at a URL of [vis], which loaded and whose forms and anchors could
    be read. *)
Definition linkedFrom (env : Env) (domain : string) (vis : gset string) (u : string)
    : Prop :=
  exists v page pageForms anchors,
    v ∈ vis /\
    goto env domain v = Some page /\
    page_forms page = Some pageForms /\
    page_anchors page = Some anchors /\
    u ∈ take 10 (linksOf (baseDomainOf domain) anchors).

(** [f] is the record of a form of the page at [form_url f], which loaded. *)
Definition extractedFrom (env : Env) (domain : string) (f : FormRecord) : Prop :=
  exists page pageForms form,
    goto env domain (form_url f) = Some page /\
    page_forms page = Some pageForms /\
    form ∈ pageForms /\
    f = extractFormData (form_url f) form.

(** What holds of every state of the visit loop: every URL queued or visited
    is a seed or one of the first ten same-site links of a visited page;
    every record comes from a visited page; and no form of a visited page is
    missing. *)
Definition grounded (env : Env) (domain : string) (st : Frontier) : Prop :=
  (forall u, u ∈ toVisit st \/ u ∈ visited st ->
        u ∈ seedsOf domain \/ linkedFrom env domain (visited st) u) /\
  (forall f, f ∈ forms st -> form_url f ∈ visited st /\ extractedFrom env domain f) /\
  (forall u page pageForms form,
     u ∈ visited st -> goto env domain u = Some page ->
     page_forms page = Some pageForms -> form ∈ pageForms ->
     extractFormData u form ∈ forms st).

(** The seeds leave the queue first: the first [n] are visited and the
    others are at the head of the queue; while one is left, nothing but
    seeds has been visited. *)
Definition seedsFirst (domain : string) (st : Frontier) : Prop :=
  exists n rest,
    n <= 3 /\
    toVisit st = drop n (seedsOf domain) ++ rest /\
    (forall u, u ∈ take n (seedsOf domain) -> u ∈ visited st) /\
    (n < 3 -> size (visited st) <= n).

(** The state in which the visit loop of [crawlDomain] ends. *)
Definition crawlFinal (env : Env) (domain : string) : Frontier :=
  visitLoop env domain (baseDomainOf domain) (turnsLeft (seed domain)) (seed domain).

End Crawler.

(** ** Run controller: [main] *)

Module Run.
Import Feed ResultStore Crawler.

Definition MAX_DOMAIN_ATTEMPTS : nat := 10.

(** The last message of a run. *)
Inductive Report :=
| ReportReset                       (* 'All domains have been scanned. Resetting...' *)
| ReportFound                       (* 'Crawler completed successfully - forms found!' *)
| ReportNotFound (attempted : nat). (* 'attempted N domains, no forms found' *)

Definition ensureDirectories (env : Env) : M unit :=
  if mkdirOk env then ret tt else throw (IOError "mkdir").

(** [stats.scanned.push(d); stats.lastUpdate = new Date().toISOString()] *)
Definition markScanned (env : Env) (d : string) : M unit :=
  modify (fun m => set_stats {| scanned := scanned (stats m) ++ [d];
                                lastUpdate := lastUpdate (stats m) |} m) ;;
  t <- now env ;;
  modify (fun m => set_stats {| scanned := scanned (stats m); lastUpdate := Some t |} m).

(** [await saveScannedDomains(stats)] *)
Definition saveStats : M unit :=
  m <- get ;; saveScannedDomains (stats m).

(** Lines 263-289: the body of the loop of [main] for one domain. *)
Definition attempt (env : Env) (domainToCrawl : string) : M unit :=
  try_catch
    (forms <- crawlDomain env domainToCrawl ;;
     (if (0 <? length forms)%nat
      then saveResults env forms ;; modify (set_formsFound true)
      else ret tt) ;;
     markScanned env domainToCrawl ;;
     saveStats)
    (fun _ =>
       markScanned env domainToCrawl ;;
       saveStats).

(** The loop of line 262; [remaining] is [maxAttempts - domainIndex]. The
    result is the final [domainIndex]. *)
Fixpoint attemptLoop (env : Env) (unscannedDomains : list string)
    (remaining domainIndex : nat) : M nat :=
  match remaining with
  | S remaining' =>
      m <- get ;;
      if formsFound m then ret domainIndex
      else
        attempt env (nth domainIndex unscannedDomains EmptyString) ;;
        attemptLoop env unscannedDomains remaining' (S domainIndex)
  | O => ret domainIndex
  end.

(** Line 248. *)
Definition unscannedOf (allDomains : list string) (st : ScanState) : list string :=
  let scannedSet : gset string := list_to_set (scanned st) in
  filter (fun d => d ∉ scannedSet) allDomains.

Definition main (env : Env) : M Report :=
  ensureDirectories env ;;
  let allDomains := fetchDomains (domainsText env) (wildcardsText env) in
  st <- loadScannedDomains ;;
  modify (set_stats st) ;;
  let unscannedDomains := unscannedOf allDomains st in
  if (length unscannedDomains =? 0)%nat then
    modify (fun m => set_stats {| scanned := []; lastUpdate := lastUpdate (stats m) |} m) ;;
    t <- now env ;;
    modify (fun m => set_stats {| scanned := scanned (stats m); lastUpdate := Some t |} m) ;;
    saveStats ;;
    ret ReportReset
  else
    modify (set_formsFound false) ;;
    let maxAttempts := Nat.min (length unscannedDomains) MAX_DOMAIN_ATTEMPTS in
    domainIndex <- attemptLoop env unscannedDomains maxAttempts 0 ;;
    m <- get ;;
    if formsFound m then ret ReportFound else ret (ReportNotFound domainIndex).

(** The domains for which a crawl was started, oldest first. *)
Definition launches (t : list Event) : list string :=
  omap (fun e => match e with EvLaunch d => Some d | _ => None end) t.

(** The domains whose browser was closed, oldest first. *)
Definition closes (t : list Event) : list string :=
  omap (fun e => match e with EvClose d => Some d | _ => None end) t.

(** The shards written, with what was written, oldest first. *)
Definition resultWrites (t : list Event) : list (string * list FormRecord) :=
  omap (fun e => match e with EvWriteResult n fs => Some (n, fs) | _ => None end) t.

(** The scan states written, oldest first. *)
Definition stateWrites (t : list Event) : list ScanState :=
  omap (fun e => match e with EvWriteState doc => Some doc | _ => None end) t.

(** What [getNextResultFile] resolves or rejects with: it depends on the
    results directory alone. *)
Definition targetOf (d : Dir) : Res Target :=
  fst (getNextResultFile (set_resultDir d blank)).

(** The crawl of [domain] yields no form: it resolves to the empty list
    or it rejects. *)
Definition barren (env : Env) (domain : string) : Prop :=
  crawlResult env domain = Ok [] \/ exists e, crawlResult env domain = Throw e.

(** No coming [writeFile] call rejects. *)
Definition noFaults (m : Machine) : Prop :=
  Forall (fun b => b = false) (writeFaults m).

(** Every coming [writeFile] call that rejects leaves the file as it was. *)
Definition gentle (m : Machine) : Prop :=
  Forall (fun d => d = Untouched) (writeDamage m).

End Run.

(** ** Example data *)

Module Examples.
Import JsNumber Feed ResultStore Crawler Run.

(** The lines of a text file, joined by line feeds. *)
Fixpoint unlines (ls : list string) : string :=
  match ls with
  | [] => EmptyString
  | [l] => l
  | l :: rest => l +:+ String LF (unlines rest)
  end.

Definition emptyDir : Dir := {| listable := true; entries := [] |}.

Definition aRecord : FormRecord :=
  {| form_url := "https://b.com"; form_action := "/login"; form_method := "get";
     form_fields := [] |}.

Definition small (forms : list FormRecord) : File :=
  {| fsize := Some 100%N; fbody := Records forms |}.

Definition full (forms : list FormRecord) : File :=
  {| fsize := Some MAX_FILE_SIZE; fbody := Records forms |}.

(** A directory whose only file is outside the shard pattern. *)
Definition dirOld : Dir :=
  {| listable := true; entries := [("forms_old.json", small [aRecord])] |}.

(** A directory with a shard of index 0 that carries its index. *)
Definition dirZero : Dir :=
  {| listable := true; entries := [("forms_0.json", small [])] |}.

(** A first shard, a second shard at the ceiling, and an unrelated file. *)
Definition dirFull : Dir :=
  {| listable := true;
     entries := [("forms.json", full [aRecord]); ("notes.txt", small []);
                 ("forms_1.json", full [aRecord; aRecord])] |}.

(** A first shard at the ceiling and a second shard below it. *)
Definition dirOpen : Dir :=
  {| listable := true;
     entries := [("forms_1.json", small [aRecord]); ("forms.json", full [aRecord])] |}.

(** A directory that cannot be listed, with an old first shard in it. *)
Definition dirHidden : Dir :=
  {| listable := false; entries := [("forms.json", small [aRecord; aRecord])] |}.

(** A shard whose size cannot be read. *)
Definition dirNoStat : Dir :=
  {| listable := true;
     entries := [("forms.json", small [aRecord]);
                 ("forms_4.json", {| fsize := None; fbody := Records [aRecord] |})] |}.

(** An environment: the two feeds, the pages of the sites, and the
    domains for which [browser.newContext] resolves. Every other call
    succeeds; the clock reads [t0], [t1], ... *)
Definition world (domainsText wildcardsText : option string)
    (site : string -> string -> option Page) (context : string -> bool) : Env :=
  {| mkdirOk := true;
     domainsText := domainsText;
     wildcardsText := wildcardsText;
     date := fun n => "t" +:+ decimal (N.of_nat n);
     byteLength := fun forms => (100 * N.of_nat (length forms))%N;
     launchOk := fun _ => true;
     newContextOk := context;
     newPageOk := fun _ => true;
     goto := site;
     closeOk := fun _ => true |}.

Definition loginForm : DomForm :=
  {| dom_action := "/login"; dom_method := "";
     dom_inputs := [ {| in_tag := TagInput; in_type := "password"; in_name := "p";
                        in_id := ""; in_placeholder := ""; in_required := true;
                        in_options := [] |} ] |}.

(** A site whose only page that loads is [home], with one form and no
    link. *)
Definition onePage (home : string) (domain url : string) : option Page :=
  if String.eqb url home
  then Some {| page_forms := Some [loginForm]; page_anchors := Some [] |}
  else None.

(** Three domains, of which only [b.com] has a page with a form. *)
Definition threeDomains : Env :=
  world (Some (unlines ["a.com"; "b.com"; "c.com"])) None
        (onePage "https://b.com") (fun _ => true).

(** The three domains, on a file system where [mkdir] rejects. *)
Definition readOnly : Env :=
  {| mkdirOk := false;
     domainsText := domainsText threeDomains;
     wildcardsText := wildcardsText threeDomains;
     date := date threeDomains;
     byteLength := byteLength threeDomains;
     launchOk := launchOk threeDomains;
     newContextOk := newContextOk threeDomains;
     newPageOk := newPageOk threeDomains;
     goto := goto threeDomains;
     closeOk := closeOk threeDomains |}.

(** Two domains; the home page of each has a form. *)
Definition twoDomains : Env :=
  world (Some (unlines ["a.com"; "b.com"])) None
        (fun domain => onePage ("https://" +:+ domain) domain) (fun _ => true).

(** A renderer whose [browser.newContext] rejects. *)
Definition noContext : Env :=
  world (Some "a.com") None (onePage "https://a.com") (fun _ => false).

(** No feed, no page. *)
Definition offline : Env := world None None (fun _ _ => None) (fun _ => true).

(** A machine at the start of a run; a write that rejects leaves the file
    as it was. *)
Definition machine (d : Dir) (f : StatFile) (faults : list bool) : Machine :=
  {| resultDir := d; statFile := f; writeFaults := faults; writeDamage := [];
     ticks := 0; trace := []; stats := defaultStats; formsFound := false |}.

(** A machine at the start of a run, with what the rejected writes leave. *)
Definition machineLeaving (d : Dir) (f : StatFile) (faults : list bool)
    (damage : list Damage) : Machine :=
  {| resultDir := d; statFile := f; writeFaults := faults; writeDamage := damage;
     ticks := 0; trace := []; stats := defaultStats; formsFound := false |}.

(** A shard at the ceiling whose index is [2^53]. *)
Definition dirExact : Dir :=
  {| listable := true;
     entries := [("forms_9007199254740992.json", full [aRecord])] |}.

(** A shard whose index is [2^53 + 1] and whose size cannot be read. *)
Definition dirOdd : Dir :=
  {| listable := true;
     entries := [("forms_9007199254740993.json",
                  {| fsize := None; fbody := Records [aRecord] |})] |}.

(** A shard below the ceiling whose text is not JSON. *)
Definition dirCorrupt : Dir :=
  {| listable := true;
     entries := [("forms.json", full [aRecord]);
                 ("forms_1.json", {| fsize := Some 100%N; fbody := Garbage |})] |}.

(** A site of two pages: the home page has one form and links to [/login]
    on the site and to a page of another site; [/login] has one form. *)
Definition twoPages (domain url : string) : option Page :=
  if String.eqb url "https://b.com"
  then Some {| page_forms := Some [loginForm];
               page_anchors :=
                 Some [ {| href := "https://b.com/login"; hostname := Some "www.b.com" |};
                        {| href := "https://notb.com/"; hostname := Some "notb.com" |} ] |}
  else if String.eqb url "https://b.com/login"
  then Some {| page_forms := Some [loginForm]; page_anchors := Some [] |}
  else None.

Definition linkedSite : Env :=
  world (Some "b.com") None twoPages (fun _ => true).

End Examples.

(** * Properties *)

Import JsString JsNumber Feed ResultStore Crawler Run.

(** ** The string operations on examples *)

Example trim_example :
  trim (String (ascii_of_nat 9) " a b " +:+ String (ascii_of_nat 13) "") = "a b".
Proof. reflexivity. Qed.

Example split_example : split LF (Examples.unlines ["a"; ""; "b"; ""]) = ["a"; ""; "b"; ""].
Proof. reflexivity. Qed.

Example regexMatch_examples :
  map regexMatch ["forms.json"; "forms_12.json"; "forms_old.json"; "forms_007.json";
                  "forms_12abc.json"; "formsforms_4.json.json"]
  = [Some None; Some (Some "12"); None; Some (Some "007"); None; Some (Some "4")].
Proof. reflexivity. Qed.

Example MAX_FILE_SIZE_bytes : MAX_FILE_SIZE = 20971520%N.
Proof. reflexivity. Qed.

Example sortDesc_example :
  sortDesc ["forms.json"; "forms_2.json"; "forms_old.json"; "forms_10.json"; "forms_1.json"]
  = ["forms_10.json"; "forms_2.json"; "forms_1.json"; "forms.json"; "forms_old.json"].
Proof. reflexivity. Qed.

(** ** Scan state store *)

(** C4. When [scanned.json] is missing, cannot be read, or holds text that
    [JSON.parse] rejects, [loadScannedDomains] resolves to
    [{scanned: [], lastUpdate: null}], changes nothing, and does not throw. *)
Theorem loadScannedDomains_default (m : Machine) :
  statFile m = StatMissing ∨ statFile m = StatUnreadable ∨ statFile m = StatMalformed →
  loadScannedDomains m = (Ok {| scanned := []; lastUpdate := None |}, m).
Proof.
  unfold loadScannedDomains, try_catch, bind, readStatFile.
  intros [H | [H | H]]; rewrite H; reflexivity.
Qed.

Lemma loadScannedDomains_default_witness :
  loadScannedDomains (Examples.machine Examples.emptyDir StatMalformed [])
  = (Ok {| scanned := []; lastUpdate := None |},
     Examples.machine Examples.emptyDir StatMalformed []).
Proof.
  apply (loadScannedDomains_default (Examples.machine Examples.emptyDir StatMalformed [])).
  right; right; reflexivity.
Defined.

(** [loadScannedDomains] never throws and never changes the state. *)
Lemma loadScannedDomains_total (m : Machine) :
  ∃ st, loadScannedDomains m = (Ok st, m).
Proof.
  unfold loadScannedDomains, try_catch, bind, readStatFile.
  destruct (statFile m); eauto.
Qed.

(** ** Domain feed aggregator *)

Lemma elem_of_set_add (x d : string) (ds : list string) :
  x ∈ set_add d ds ↔ x = d ∨ x ∈ ds.
Proof.
  unfold set_add. case_bool_decide as Hd.
  - split; [auto | intros [-> | ?]; auto].
  - rewrite elem_of_app, list_elem_of_singleton. tauto.
Qed.

Lemma NoDup_set_add (d : string) (ds : list string) :
  NoDup ds → NoDup (set_add d ds).
Proof.
  intros Hnd. unfold set_add. case_bool_decide as Hd; [done |].
  apply NoDup_app. split_and!; [done | | apply NoDup_singleton].
  intros x Hx ->%list_elem_of_singleton. done.
Qed.

(** What one line of the exact list adds, if anything. *)
Lemma addDomainLine_elem (ds : list string) (line x : string) :
  x ∈ addDomainLine ds line ↔
  x ∈ ds ∨ (x = trim line ∧ x ≠ "" ∧ startsWith x "#" = false).
Proof.
  unfold addDomainLine, truthy.
  destruct (String.eqb_spec (trim line) "") as [He | He]; simpl.
  - split; [auto | intros [? | (-> & Hne & _)]; [done | congruence]].
  - destruct (startsWith (trim line) "#") eqn:Hs; simpl.
    + split; [auto | intros [? | (-> & _ & Hc)]; [done | congruence]].
    + rewrite elem_of_set_add. split.
      * intros [-> | ?]; auto.
      * intros [? | (-> & _)]; auto.
Qed.

(** What one line of the wildcard list adds, if anything. *)
Lemma addWildcardLine_elem (ds : list string) (line x : string) :
  x ∈ addWildcardLine ds line ↔
  x ∈ ds ∨ (trim line ≠ "" ∧ startsWith (trim line) "#" = false ∧
            x = dropPrefix "*." (trim line) ∧ x ≠ "").
Proof.
  unfold addWildcardLine, truthy.
  destruct (String.eqb_spec (trim line) "") as [He | He]; simpl.
  - split; [auto | intros [? | (Hne & _)]; [done | congruence]].
  - destruct (startsWith (trim line) "#") eqn:Hs; simpl.
    + split; [auto | intros [? | (_ & Hc & _)]; [done | congruence]].
    + destruct (String.eqb_spec (dropPrefix "*." (trim line)) "") as [Hc | Hc]; simpl.
      * split; [auto | intros [? | (_ & _ & -> & Hne)]; [done | congruence]].
      * rewrite elem_of_set_add. split.
        -- intros [-> | ?]; auto.
        -- intros [? | (_ & _ & -> & _)]; auto.
Qed.

Lemma addDomainLine_NoDup ds line : NoDup ds → NoDup (addDomainLine ds line).
Proof.
  unfold addDomainLine. intros H.
  destruct (_ && _); auto using NoDup_set_add.
Qed.

Lemma addWildcardLine_NoDup ds line : NoDup ds → NoDup (addWildcardLine ds line).
Proof.
  unfold addWildcardLine. intros H.
  destruct (_ && _); [| done]. destruct (truthy _); auto using NoDup_set_add.
Qed.

Section FoldLines.
Variable cb : list string → string → list string.
Variable adds : string → string → Prop.
Hypothesis cb_elem : ∀ ds line x, x ∈ cb ds line ↔ x ∈ ds ∨ adds line x.
Hypothesis cb_NoDup : ∀ ds line, NoDup ds → NoDup (cb ds line).

Lemma fold_lines_elem (lines : list string) (ds : list string) (x : string) :
  x ∈ fold_left cb lines ds ↔ x ∈ ds ∨ ∃ line, line ∈ lines ∧ adds line x.
Proof using cb_elem.
  revert ds. induction lines as [| l lines IH]; intros ds; simpl.
  - split; [auto | intros [? | (? & []%elem_of_nil & _)]; done].
  - rewrite IH, cb_elem. split.
    + intros [[? | ?] | (line & ? & ?)]; [by left | right; exists l | right; exists line].
      * split; [left | done].
      * split; [by right | done].
    + intros [? | (line & [-> | ?]%elem_of_cons & ?)]; eauto.
Qed.

Lemma fold_lines_NoDup (lines : list string) (ds : list string) :
  NoDup ds → NoDup (fold_left cb lines ds).
Proof using cb_NoDup.
  revert ds. induction lines; simpl; auto.
Qed.
End FoldLines.

(** C8, as amended. The collected list has no duplicate and no empty
    string, and its entries are exactly: the trimmed form of every line of
    the exact list that is not blank and does not start with [#]; and, for
    every such line of the wildcard list, its trimmed form with one leading
    [*.] removed, when something remains. Nothing else is normalised. *)
Theorem fetchDomains_entries (domainsText wildcardsText : option string) :
  NoDup (fetchDomains domainsText wildcardsText) ∧
  ("" ∉ fetchDomains domainsText wildcardsText) ∧
  ∀ d, d ∈ fetchDomains domainsText wildcardsText ↔
    (∃ text line, domainsText = Some text ∧ line ∈ split LF text ∧
       d = trim line ∧ d ≠ "" ∧ startsWith d "#" = false)
    ∨ (∃ text line, wildcardsText = Some text ∧ line ∈ split LF text ∧
         trim line ≠ "" ∧ startsWith (trim line) "#" = false ∧
         d = dropPrefix "*." (trim line) ∧ d ≠ "").
Proof.
  assert (Hchar : ∀ d, d ∈ fetchDomains domainsText wildcardsText ↔
    (∃ text line, domainsText = Some text ∧ line ∈ split LF text ∧
       d = trim line ∧ d ≠ "" ∧ startsWith d "#" = false)
    ∨ (∃ text line, wildcardsText = Some text ∧ line ∈ split LF text ∧
         trim line ≠ "" ∧ startsWith (trim line) "#" = false ∧
         d = dropPrefix "*." (trim line) ∧ d ≠ "")).
  { intros d. unfold fetchDomains, addFeed.
    destruct wildcardsText as [wt |], domainsText as [dt |].
    - rewrite (fold_lines_elem _ _ (λ ds l x, addWildcardLine_elem ds l x)).
      rewrite (fold_lines_elem _ _ (λ ds l x, addDomainLine_elem ds l x)).
      rewrite elem_of_nil. split.
      + intros [[[] | (l & ? & ?)] | (l & ? & ?)];
          [left; exists dt, l | right; exists wt, l]; tauto.
      + intros [(? & l & [= <-] & ? & ?) | (? & l & [= <-] & ? & ?)]; eauto 6.
    - rewrite (fold_lines_elem _ _ (λ ds l x, addWildcardLine_elem ds l x)).
      rewrite elem_of_nil. split.
      + intros [[] | (l & ? & ?)]. right. exists wt, l. tauto.
      + intros [(? & ? & [=] & _) | (? & l & [= <-] & ? & ?)]; eauto 6.
    - rewrite (fold_lines_elem _ _ (λ ds l x, addDomainLine_elem ds l x)).
      rewrite elem_of_nil. split.
      + intros [[] | (l & ? & ?)]. left. exists dt, l. tauto.
      + intros [(? & l & [= <-] & ? & ?) | (? & ? & [=] & _)]; eauto 6.
    - rewrite elem_of_nil. split; [done |].
      intros [(? & ? & [=] & _) | (? & ? & [=] & _)]. }
  split_and!; [| | exact Hchar].
  - unfold fetchDomains, addFeed.
    assert (NoDup (match domainsText with
                   | Some t => fold_left addDomainLine (split LF t) []
                   | None => []
                   end)) as Hd.
    { destruct domainsText; [| apply NoDup_nil_2].
      apply fold_lines_NoDup; [apply addDomainLine_NoDup | apply NoDup_nil_2]. }
    destruct wildcardsText; [| done].
    apply fold_lines_NoDup; [apply addWildcardLine_NoDup | done].
  - rewrite Hchar. intros [(? & ? & _ & _ & _ & ? & _) | (? & ? & _ & _ & _ & _ & _ & ?)]; done.
Qed.

(** C8, as stated, fails: a wildcard marker, a scheme and a leading [www.]
    all survive collection. *)
Lemma fetchDomains_impure :
  fetchDomains (Some (Examples.unlines ["*.a.com"; "https://b.com"; "www.c.com"]))
               (Some "*.*.d.com")
  = ["*.a.com"; "https://b.com"; "www.c.com"; "*.d.com"]
  ∧ ¬ (∀ domainsText wildcardsText d,
         d ∈ fetchDomains domainsText wildcardsText →
         startsWith d "*." = false ∧ includes d "://" = false ∧
         startsWith d "www." = false).
Proof.
  split; [reflexivity |].
  intros H.
  destruct (H (Some "*.a.com") None "*.a.com") as [Hw _]; [| discriminate Hw].
  vm_compute. left.
Qed.

(** ** Result store: numbers *)

Example toNumber_examples :
  map toNumber [0; 9007199254740992; 9007199254740993; 9007199254740995;
                18446744073709551615; 10 ^ 21 - 1; 2 ^ 1024 - 2 ^ 970]%N
  = [Fin 0; Fin 9007199254740992; Fin 9007199254740992; Fin 9007199254740996;
     Fin 18446744073709551616; Fin (10 ^ 21); Infinity].
Proof. vm_compute. reflexivity. Qed.

Example toString_examples :
  map (λ n, toString (toNumber n))
      [0; 42; 9007199254740993; 18446744073709551616; 10 ^ 21; 2 ^ 70; 10 ^ 23;
       2 ^ 1024 - 2 ^ 971; 2 ^ 1024]%N
  = ["0"; "42"; "9007199254740992"; "18446744073709552000"; "1e+21";
     "1.1805916207174113e+21"; "1e+23"; "1.7976931348623157e+308"; "Infinity"].
Proof. vm_compute. reflexivity. Qed.

(** From [2^53] on, distinct suffixes can have the same index: the sort
    keeps such files in listing order, and the index plus one can be the
    index itself or print in exponent notation. *)
Example indexOf_rounding_examples :
  indexOf "forms_9007199254740993.json" = Fin 9007199254740992 ∧
  sortDesc ["forms_9007199254740992.json"; "forms_9007199254740993.json"; "forms_7.json"]
  = ["forms_9007199254740992.json"; "forms_9007199254740993.json"; "forms_7.json"] ∧
  sortDesc ["forms_9007199254740993.json"; "forms_9007199254740992.json"; "forms_7.json"]
  = ["forms_9007199254740993.json"; "forms_9007199254740992.json"; "forms_7.json"] ∧
  shardName (nextIndexOf "forms_9007199254740992.json") = "forms_9007199254740992.json" ∧
  shardName (nextIndexOf "forms_999999999999999999999.json") = "forms_1e+21.json".
Proof. vm_compute. done. Qed.

Lemma toNumber_exact n : (n ≤ EXACT)%N → toNumber n = Fin n.
Proof. intros H. unfold toNumber. apply N.leb_le in H. by rewrite H. Qed.

Lemma toString_exact n : (n ≤ EXACT)%N → toString (Fin n) = decimal n.
Proof. intros H. unfold toString. apply N.leb_le in H. by rewrite H. Qed.

Lemma add1_exact n : (n < EXACT)%N → add1 (Fin n) = Fin (n + 1).
Proof. intros H. apply toNumber_exact. lia. Qed.

Lemma Num_le_refl x : Num_le x x.
Proof. destruct x; unfold Num_le, ltb; [apply N.ltb_irrefl | done]. Qed.

Lemma Num_lt_le x y : Num_lt x y → Num_le x y.
Proof.
  unfold Num_lt, Num_le. destruct x, y; simpl; rewrite ?N.ltb_lt, ?N.ltb_ge; try done. lia.
Qed.

Lemma Num_le_trans x y z : Num_le x y → Num_le y z → Num_le x z.
Proof.
  unfold Num_le. destruct x, y, z; simpl; rewrite ?N.ltb_ge; try done. lia.
Qed.

Lemma Num_le_lt_trans x y z : Num_le x y → Num_lt y z → Num_lt x z.
Proof.
  unfold Num_le, Num_lt. destruct x, y, z; simpl; rewrite ?N.ltb_ge, ?N.ltb_lt; try done. lia.
Qed.

Lemma Num_lt_irrefl x : ¬ Num_lt x x.
Proof. unfold Num_lt. destruct x; simpl; [rewrite N.ltb_irrefl |]; done. Qed.

(** ** Result store: names and indices *)

Lemma allChars_app p s1 s2 :
  allChars p (s1 +:+ s2) = allChars p s1 && allChars p s2.
Proof. induction s1 as [| c s1 IH]; simpl; [done |]. by rewrite IH, andb_assoc. Qed.

Lemma allChars_impl (p q : ascii → bool) s :
  (∀ c, p c = true → q c = true) → allChars p s = true → allChars q s = true.
Proof.
  intros Hpq. induction s as [| c s IH]; simpl; [done |].
  intros [Hc Hs]%andb_prop. rewrite (Hpq _ Hc), (IH Hs). done.
Qed.

Lemma is_digit_not_underscore c : is_digit c = true → negb (Ascii.eqb c "_") = true.
Proof.
  destruct (Ascii.eqb_spec c "_") as [-> | ?]; [| done]. vm_compute. done.
Qed.

Lemma string_of_uint_digits d : allChars is_digit (NilEmpty.string_of_uint d) = true.
Proof. induction d; simpl; auto. Qed.

Lemma decimal_digits n : allChars is_digit (decimal n) = true.
Proof. apply string_of_uint_digits. Qed.

Lemma decimal_nonempty n : decimal n ≠ "".
Proof.
  unfold decimal. destruct n as [| p]; [done |]. simpl.
  pose proof (DecimalPos.Unsigned.to_uint_nonnil p) as Hp.
  destruct (Pos.to_uint p); done.
Qed.

Lemma digitsValue_decimal n : digitsValue (decimal n) = n.
Proof.
  unfold digitsValue, decimal.
  rewrite NilEmpty.usu. apply DecimalN.Unsigned.of_to.
Qed.

(** The numeral of a positive number does not start with [0]. *)
Lemma decimal_succ_head n :
  startsWith (decimal (n + 1) +:+ ".json") "0" = false.
Proof.
  unfold decimal.
  destruct (n + 1)%N as [| p] eqn:Hn; [lia |]. simpl.
  pose proof (DecimalPos.Unsigned.to_uint_nonzero p) as Hz.
  pose proof (DecimalPos.Unsigned.to_of (Pos.to_uint p)) as Hto.
  rewrite DecimalPos.Unsigned.of_to in Hto. simpl in Hto.
  destruct (Pos.to_uint p) as [| u | | | | | | | | |] eqn:Hu; try done.
  exfalso. rewrite unorm_D0 in Hto.
  unfold Decimal.unorm in Hto. destruct (Decimal.nzhead u) eqn:Hnz; try congruence.
  eapply nzhead_nonzero, Hnz.
Qed.

(** Below [2^53] the name of a shard carries the decimal numeral of its
    index. *)
Lemma shardName_exact n :
  (n ≤ EXACT)%N → shardName (Fin n) = "forms_" +:+ decimal n +:+ ".json".
Proof. intros H. unfold shardName. by rewrite toString_exact. Qed.

Lemma parseInt_decimal n : (n ≤ EXACT)%N → parseInt (decimal n) = Fin n.
Proof. intros H. unfold parseInt. rewrite digitsValue_decimal. by apply toNumber_exact. Qed.

Lemma spanDigits_app ds rest :
  allChars is_digit ds = true →
  (∀ c r, rest = String c r → is_digit c = false) →
  spanDigits (ds +:+ rest) = (ds, rest).
Proof.
  intros Hds Hrest. induction ds as [| c ds IH]; simpl in *.
  - destruct rest as [| c r]; [done |]. simpl. by rewrite (Hrest c r).
  - apply andb_prop in Hds as [Hc Hds]. rewrite Hc, (IH Hds). done.
Qed.

Lemma spanDigits_spec s ds rest :
  spanDigits s = (ds, rest) → s = ds +:+ rest ∧ allChars is_digit ds = true.
Proof.
  revert ds rest. induction s as [| c s IH]; intros ds rest; cbn [spanDigits].
  - by intros [= <- <-].
  - destruct (is_digit c) eqn:Hc; [| by intros [= <- <-]].
    destruct (spanDigits s) as [ds' rest'] eqn:Hs. intros [= <- <-].
    destruct (IH ds' rest' eq_refl) as [-> Hds]. cbn [allChars]. by rewrite Hc, Hds.
Qed.

Lemma stripPrefix_app (p s : string) : stripPrefix p (p +:+ s) = Some s.
Proof. induction p as [| c p IH]; simpl; [done |]. by rewrite Ascii.eqb_refl. Qed.

Lemma stripPrefix_Some (p s r : string) : stripPrefix p s = Some r → s = p +:+ r.
Proof.
  revert s. induction p as [| c p IH]; intros s; simpl; [by intros [= ->] |].
  destruct s as [| b s]; [done |].
  destruct (Ascii.eqb_spec c b) as [-> | ?]; [| done]. intros H. by rewrite (IH _ H).
Qed.

Lemma startsWith_Some (s p : string) : startsWith s p = true → ∃ r, s = p +:+ r.
Proof.
  revert s. induction p as [| c p IH]; intros s; simpl; [by exists s |].
  destruct s as [| b s]; [done |].
  intros [->%Ascii.eqb_eq H]%andb_prop. destruct (IH _ H) as [r ->]. by exists r.
Qed.

Lemma regexMatch_here s g : matchHere s = Some g → regexMatch s = Some g.
Proof. intros H. destruct s; cbn [regexMatch]; by rewrite H. Qed.

(** The digits that the expression captures are a run of digits between
    [forms_] and [.json] somewhere in the name. *)
Lemma regexMatch_digits f ds :
  regexMatch f = Some (Some ds) →
  ds ≠ "" ∧ allChars is_digit ds = true ∧
  ∃ pre post, f = pre +:+ "forms_" +:+ ds +:+ ".json" +:+ post.
Proof.
  assert (Hhere : ∀ s, matchHere s = Some (Some ds) →
            ds ≠ "" ∧ allChars is_digit ds = true ∧
            ∃ post, s = "forms_" +:+ ds +:+ ".json" +:+ post).
  { intros s. unfold matchHere.
    destruct (stripPrefix "forms" s) as [r |] eqn:Hr; [| done].
    apply stripPrefix_Some in Hr as ->.
    destruct (stripPrefix "_" r) as [r1 |] eqn:Hr1.
    - apply stripPrefix_Some in Hr1 as ->.
      destruct (spanDigits r1) as [ds' r2] eqn:Hspan.
      apply spanDigits_spec in Hspan as [-> Hds].
      destruct (truthy ds' && startsWith r2 ".json") eqn:Hok.
      + intros [= <-]. apply andb_prop in Hok as [Hne Hjson].
        apply startsWith_Some in Hjson as [post ->].
        split_and!; [| done | by exists post].
        unfold truthy in Hne. intros ->. done.
      + by destruct (startsWith ("_" +:+ ds' +:+ r2) ".json").
    - by destruct (startsWith r ".json"). }
  induction f as [| c f IH]; cbn [regexMatch].
  - destruct (matchHere "") as [g |] eqn:Hm; [| done]. intros [= ->].
    destruct (Hhere _ Hm) as (? & ? & post & ?). split_and!; [done | done |].
    by exists "", post.
  - destruct (matchHere (String c f)) as [g |] eqn:Hm.
    + intros [= ->]. destruct (Hhere _ Hm) as (? & ? & post & ->).
      split_and!; [done | done |]. by exists "", post.
    + intros H. destruct (IH H) as (? & ? & pre & post & ->).
      split_and!; [done | done |]. by exists (String c pre), post.
Qed.

(** A name with no run of digits between [forms_] and [.json] has index 0. *)
Lemma indexOf_unindexed f :
  (∀ pre ds post, ds ≠ "" → allChars is_digit ds = true →
                  f ≠ pre +:+ "forms_" +:+ ds +:+ ".json" +:+ post) →
  indexOf f = Fin 0.
Proof.
  intros Hno. unfold indexOf.
  destruct (regexMatch f) as [[ds |] |] eqn:Hm; [| done | done].
  destruct (regexMatch_digits f ds Hm) as (Hne & Hds & pre & post & Hf).
  by destruct (Hno pre ds post Hne Hds).
Qed.

Lemma nextIndexOf_indexOf f : nextIndexOf f = add1 (indexOf f).
Proof. unfold nextIndexOf, indexOf. by destruct (regexMatch f) as [[ds |] |]. Qed.

Lemma endsWith_app s p : endsWith (s +:+ p) p = true.
Proof.
  induction s as [| c s IH]; simpl.
  - destruct p; simpl; [done |]. by rewrite Ascii.eqb_refl, String.eqb_refl.
  - by rewrite IH, orb_true_r.
Qed.

Lemma matchHere_pattern ds :
  ds ≠ "" → allChars is_digit ds = true →
  matchHere ("forms_" +:+ ds +:+ ".json") = Some (Some ds).
Proof.
  intros Hne Hds. unfold matchHere.
  change (stripPrefix "forms" ("forms_" +:+ ds +:+ ".json"))
    with (Some (String "_" (ds +:+ ".json"))).
  cbv beta iota.
  change (stripPrefix "_" (String "_" (ds +:+ ".json"))) with (Some (ds +:+ ".json")).
  cbv beta iota.
  rewrite (spanDigits_app ds ".json"); [| done | by intros c r [= <- <-]].
  unfold truthy. by destruct (String.eqb_spec ds "").
Qed.

(** Every name of the shard pattern is kept by the filter of line 69, and
    its index is the number after [forms_], or 0 for [forms.json]. *)
Lemma shardPattern_isFormFile f : shardPattern f → isFormFile f = true.
Proof.
  intros [-> | (ds & _ & _ & ->)]; [done |].
  unfold isFormFile.
  change ("forms_" +:+ ds +:+ ".json")
    with (String "f" (String "o" (String "r" (String "m" (String "s"
            (String "_" (ds +:+ ".json"))))))) at 1.
  simpl startsWith.
  change ("forms_" +:+ ds +:+ ".json") with (("forms_" +:+ ds) +:+ ".json").
  apply endsWith_app.
Qed.

Lemma indexOf_pattern ds :
  ds ≠ "" → allChars is_digit ds = true →
  indexOf ("forms_" +:+ ds +:+ ".json") = parseInt ds.
Proof.
  intros Hne Hds. unfold indexOf.
  by rewrite (regexMatch_here _ _ (matchHere_pattern ds Hne Hds)).
Qed.

(** Up to [2^53], a shard allocated with index [n] is read back with index
    [n]. *)
Lemma shardName_pattern n : (n ≤ EXACT)%N → shardPattern (shardName (Fin n)).
Proof.
  intros H. right. exists (decimal n).
  split_and!; [apply decimal_nonempty | apply decimal_digits | by apply shardName_exact].
Qed.

Lemma indexOf_shardName n : (n ≤ EXACT)%N → indexOf (shardName (Fin n)) = Fin n.
Proof.
  intros H. rewrite shardName_exact by done.
  rewrite indexOf_pattern;
    [by apply parseInt_decimal | apply decimal_nonempty | apply decimal_digits].
Qed.

Lemma includes_no_underscore s :
  allChars (λ c, negb (Ascii.eqb c "_")) s = true → includes s "_0" = false.
Proof.
  induction s as [| c s IH]; cbn [includes startsWith allChars]; [done |].
  intros [Hc Hs]%andb_prop. rewrite (IH Hs), orb_false_r.
  rewrite Ascii.eqb_sym. by destruct (Ascii.eqb c "_").
Qed.

(** Up to [2^53], a newly allocated shard name never contains [_0]. *)
Lemma shardName_succ_no_0 n :
  (n < EXACT)%N → includes (shardName (Fin (n + 1))) "_0" = false.
Proof.
  intros Hn. rewrite shardName_exact by lia.
  pose proof (decimal_succ_head n) as Hhead.
  assert (includes (decimal (n + 1) +:+ ".json") "_0" = false) as Hrest.
  { apply includes_no_underscore. rewrite allChars_app, andb_true_iff. split; [| done].
    eapply allChars_impl; [apply is_digit_not_underscore | apply decimal_digits]. }
  change ("forms_" +:+ decimal (n + 1) +:+ ".json")
    with (String "f" (String "o" (String "r" (String "m" (String "s"
            (String "_" (decimal (n + 1) +:+ ".json"))))))).
  revert Hhead Hrest. generalize (decimal (n + 1) +:+ ".json"). intros x Hhead Hrest.
  cbn [includes startsWith]. rewrite Hhead, Hrest. reflexivity.
Qed.

(** ** Result store: ordering *)

Lemma insertDesc_perm f l : insertDesc f l ≡ₚ f :: l.
Proof.
  induction l as [| g l IH]; simpl; [done |].
  destruct (ltb (indexOf f) (indexOf g)); [| done].
  by rewrite IH, Permutation_swap.
Qed.

Lemma sortDesc_perm l : sortDesc l ≡ₚ l.
Proof.
  induction l as [| f l IH]; simpl; [done |].
  by rewrite insertDesc_perm, IH.
Qed.

Lemma insertDesc_descending f l : descending l → descending (insertDesc f l).
Proof.
  unfold descending. induction 1 as [| g l Hl IH Hg]; simpl.
  - repeat constructor.
  - destruct (ltb (indexOf f) (indexOf g)) eqn:Hfg.
    + constructor; [done |].
      apply Forall_forall. intros x Hx.
      rewrite insertDesc_perm in Hx.
      apply elem_of_cons in Hx as [-> | Hx]; [by apply Num_lt_le |].
      rewrite Forall_forall in Hg. by apply Hg.
    + constructor; [by constructor |].
      constructor; [done |].
      eapply Forall_impl; [exact Hg |]. simpl. intros x Hx.
      eapply Num_le_trans; [exact Hx | exact Hfg].
Qed.

Lemma sortDesc_descending l : descending (sortDesc l).
Proof.
  induction l; simpl; [constructor | by apply insertDesc_descending].
Qed.

(** The first file after sorting is one of the files and has the largest
    index. *)
Lemma first_sortDesc l :
  l ≠ [] →
  first (sortDesc l) ∈ l ∧ ∀ f, f ∈ l → Num_le (indexOf f) (indexOf (first (sortDesc l))).
Proof.
  intros Hne.
  pose proof (sortDesc_perm l) as Hp. pose proof (sortDesc_descending l) as Hs.
  destruct (sortDesc l) as [| top rest] eqn:Hsd.
  - apply Permutation_nil_l in Hp. done.
  - simpl. split.
    + rewrite <- Hp. left.
    + intros f Hf. rewrite <- Hp in Hf.
      apply elem_of_cons in Hf as [-> | Hf]; [apply Num_le_refl |].
      inversion Hs as [| ? ? _ Hall]; subst.
      rewrite Forall_forall in Hall. by apply Hall.
Qed.

(** The sort is stable: the first file after sorting is the first file, in
    listing order, whose index is the largest. *)
Lemma first_sortDesc_stable l :
  l ≠ [] →
  ∃ l1 l2, l = l1 ++ first (sortDesc l) :: l2 ∧
           ∀ f, f ∈ l1 → Num_lt (indexOf f) (indexOf (first (sortDesc l))).
Proof.
  induction l as [| f l IH]; [done |]. intros _. simpl.
  destruct l as [| g l].
  - exists [], []. split; [done | by intros ? ?%elem_of_nil].
  - destruct IH as (l1 & l2 & Hl & Hlt); [done |].
    destruct (sortDesc (g :: l)) as [| top rest] eqn:Hs.
    { pose proof (sortDesc_perm (g :: l)) as Hp. rewrite Hs in Hp.
      by apply Permutation_nil_l in Hp. }
    simpl in Hl, Hlt. simpl.
    destruct (ltb (indexOf f) (indexOf top)) eqn:Hft; simpl.
    + exists (f :: l1), l2. split; [by rewrite Hl |].
      intros x [-> | Hx]%elem_of_cons; [done | by apply Hlt].
    + exists [], (g :: l). split; [done | by intros ? ?%elem_of_nil].
Qed.

(** ** Result store: selection of the shard *)

(** Below [2^53], the name of the shard that a rotation allocates is not in
    the directory. *)
Lemma shardName_fresh (d : Dir) (n : N) :
  formFilesOf d ≠ [] →
  indexOf (first (sortDesc (formFilesOf d))) = Fin n →
  (n < EXACT)%N →
  shardName (Fin (n + 1)) ∉ map fst (entries d).
Proof.
  intros Hne Hidx Hn Hin.
  destruct (first_sortDesc (formFilesOf d) Hne) as [_ Hmax].
  assert (shardName (Fin (n + 1)) ∈ formFilesOf d) as Hff.
  { unfold formFilesOf. apply list_elem_of_filter. split; [| done].
    apply shardPattern_isFormFile, shardName_pattern. lia. }
  apply Hmax in Hff. rewrite indexOf_shardName, Hidx in Hff by lia.
  unfold Num_le, ltb in Hff. apply N.ltb_ge in Hff. lia.
Qed.

Lemma getNextResultFile_unlistable (m : Machine) :
  listable (resultDir m) = false →
  getNextResultFile m = (Ok {| path := "forms.json"; data := [] |}, m).
Proof.
  intros H. unfold getNextResultFile, bind, try_catch, readdir. rewrite H. reflexivity.
Qed.

(** [getNextResultFile] on a directory that can be listed. *)
Lemma getNextResultFile_listable (m : Machine) :
  listable (resultDir m) = true →
  getNextResultFile m =
    let formFiles := formFilesOf (resultDir m) in
    match formFiles with
    | [] => (Ok {| path := "forms.json"; data := [] |}, m)
    | _ :: _ =>
        let top := first (sortDesc formFiles) in
        match lookupFile top (entries (resultDir m)) with
        | Some {| fsize := Some size; fbody := body |} =>
            if (size <? MAX_FILE_SIZE)%N then
              match body with
              | Records forms => (Ok {| path := top; data := forms |}, m)
              | Garbage => (Throw SyntaxError, m)
              | Unreadable => (Throw (IOError "readFile"), m)
              end
            else (Ok {| path := shardName (nextIndexOf top); data := [] |}, m)
        | _ => (Ok {| path := shardName (nextIndexOf top); data := [] |}, m)
        end
    end.
Proof.
  intros H. unfold getNextResultFile, bind, try_catch, readdir. rewrite H.
  fold (formFilesOf (resultDir m)).
  destruct (formFilesOf (resultDir m)) as [| f0 fs] eqn:Hff; [reflexivity |].
  cbn [length Nat.eqb]. cbv zeta.
  unfold stat, readFile, ret, parseBody, throw.
  generalize (first (sortDesc (f0 :: fs))). intros top.
  destruct (lookupFile top (entries (resultDir m))) as [[[size |] body] |] eqn:Hl;
    try reflexivity.
  cbv beta iota. destruct (size <? MAX_FILE_SIZE)%N; [| reflexivity].
  rewrite Hl. destruct body; reflexivity.
Qed.

Lemma lookupFile_storeFile_eq name f es :
  lookupFile name (storeFile name f es) = Some f.
Proof.
  induction es as [| [n g] es IH]; simpl.
  - by rewrite String.eqb_refl.
  - destruct (String.eqb n name) eqn:Hn; simpl; by rewrite Hn.
Qed.

Lemma lookupFile_storeFile_ne name other f es :
  other ≠ name → lookupFile other (storeFile name f es) = lookupFile other es.
Proof.
  intros Hne. induction es as [| [n g] es IH]; simpl.
  - destruct (String.eqb_spec name other); [congruence | done].
  - destruct (String.eqb_spec n name) as [-> | ?]; simpl.
    + destruct (String.eqb_spec name other); [congruence | done].
    + by rewrite IH.
Qed.

Lemma storeFile_names name f es :
  is_Some (lookupFile name es) → map fst (storeFile name f es) = map fst es.
Proof.
  induction es as [| [n g] es IH]; simpl.
  - by intros [? [=]].
  - destruct (String.eqb n name); simpl; [done |]. intros H. by rewrite IH.
Qed.

Lemma writeFile_ok (env : Env) (name : string) (allForms : list FormRecord) (m : Machine) :
  hd false (writeFaults m) = false →
  ∃ m', writeFile env name allForms m = (Ok tt, m') ∧
        resultDir m' =
          {| listable := listable (resultDir m);
             entries := storeFile name
                          {| fsize := Some (byteLength env allForms);
                             fbody := Records allForms |}
                          (entries (resultDir m)) |} ∧
        statFile m' = statFile m ∧
        writeFaults m' = tl (writeFaults m) ∧
        ticks m' = ticks m ∧
        trace m' = trace m ++ [EvWriteResult name allForms] ∧
        stats m' = stats m ∧
        formsFound m' = formsFound m.
Proof.
  intros Hw. unfold writeFile, bind, writeGate, modify, emit. rewrite Hw.
  eexists. split; [reflexivity |]. simpl. done.
Qed.

(** C2, as amended. On a directory that can be listed, [getNextResultFile]
    considers the names that start with [forms] and end with [.json], which
    include every name of the shard pattern; with none it targets
    [forms.json] with no records; otherwise it orders them by index, largest
    first, and takes the first, which among the files of the largest index
    is the one listed first: when that file's size is strictly below 20 MiB
    it is the target and its records are loaded, and when its size is at or
    above 20 MiB and its index [n] is below [2^53], the target is a new
    shard [forms_<n+1>.json], which is not in the directory, with no
    records. The index of [forms.json] and
    of every name without a run of digits between [forms_] and [.json] is 0,
    and the index of [forms_<N>.json] is [N] up to [2^53]. A name allocated
    for an index up to [2^53] is of the shard pattern and never contains
    [_0]. *)
Theorem getNextResultFile_selection (m : Machine) :
  listable (resultDir m) = true →
  let formFiles := formFilesOf (resultDir m) in
  let top := first (sortDesc formFiles) in
  (∀ f, f ∈ formFiles ↔
        f ∈ map fst (entries (resultDir m)) ∧
        startsWith f "forms" = true ∧ endsWith f ".json" = true) ∧
  (∀ f, shardPattern f → f ∈ map fst (entries (resultDir m)) → f ∈ formFiles) ∧
  (formFiles = [] →
     getNextResultFile m = (Ok {| path := "forms.json"; data := [] |}, m)) ∧
  (formFiles ≠ [] →
     sortDesc formFiles ≡ₚ formFiles ∧
     descending (sortDesc formFiles) ∧
     top ∈ formFiles ∧
     (∀ f, f ∈ formFiles → Num_le (indexOf f) (indexOf top)) ∧
     (∃ l1 l2, formFiles = l1 ++ top :: l2 ∧
               ∀ f, f ∈ l1 → Num_lt (indexOf f) (indexOf top)) ∧
     (∀ size forms,
        lookupFile top (entries (resultDir m))
          = Some {| fsize := Some size; fbody := Records forms |} →
        (size < MAX_FILE_SIZE)%N →
        getNextResultFile m = (Ok {| path := top; data := forms |}, m)) ∧
     (∀ size body n,
        lookupFile top (entries (resultDir m))
          = Some {| fsize := Some size; fbody := body |} →
        (MAX_FILE_SIZE ≤ size)%N →
        indexOf top = Fin n →
        (n < 2 ^ 53)%N →
        getNextResultFile m
          = (Ok {| path := "forms_" +:+ decimal (n + 1) +:+ ".json"; data := [] |}, m) ∧
        "forms_" +:+ decimal (n + 1) +:+ ".json" ∉ map fst (entries (resultDir m)))) ∧
  indexOf "forms.json" = Fin 0 ∧
  (∀ f, (∀ pre ds post, ds ≠ "" → allChars is_digit ds = true →
                        f ≠ pre +:+ "forms_" +:+ ds +:+ ".json" +:+ post) →
        indexOf f = Fin 0) ∧
  (∀ ds, ds ≠ "" → allChars is_digit ds = true → (digitsValue ds ≤ 2 ^ 53)%N →
         indexOf ("forms_" +:+ ds +:+ ".json") = Fin (digitsValue ds)) ∧
  (∀ n, (n < 2 ^ 53)%N →
        shardName (Fin (n + 1)) = "forms_" +:+ decimal (n + 1) +:+ ".json" ∧
        shardPattern (shardName (Fin (n + 1))) ∧
        indexOf (shardName (Fin (n + 1))) = Fin (n + 1) ∧
        includes (shardName (Fin (n + 1))) "_0" = false).
Proof.
  intros Hl formFiles top. change (2 ^ 53)%N with EXACT.
  assert (Hmem : ∀ f, f ∈ formFiles ↔
        f ∈ map fst (entries (resultDir m)) ∧
        startsWith f "forms" = true ∧ endsWith f ".json" = true).
  { intros f. unfold formFiles, formFilesOf, isFormFile.
    rewrite list_elem_of_filter, andb_true_iff. tauto. }
  pose proof (getNextResultFile_listable m Hl) as Hsel. cbv zeta in Hsel.
  fold formFiles in Hsel.
  split_and!.
  - exact Hmem.
  - intros f Hf Hin. apply Hmem. split; [done |].
    apply shardPattern_isFormFile in Hf. by apply andb_true_iff in Hf.
  - intros Hnil. by rewrite Hnil in Hsel.
  - intros Hne.
    destruct (first_sortDesc formFiles Hne) as [Htop Hmax].
    split_and!; [apply sortDesc_perm | apply sortDesc_descending | done | done
                | by apply first_sortDesc_stable | |].
    + intros size forms Hlk Hsize. rewrite Hsel.
      destruct formFiles; [done |]. fold top. rewrite Hlk.
      apply N.ltb_lt in Hsize. by rewrite Hsize.
    + intros size body n Hlk Hsize Hidx Hn. split.
      * rewrite Hsel. destruct formFiles; [done |]. fold top. rewrite Hlk.
        apply N.ltb_ge in Hsize.
        rewrite Hsize, nextIndexOf_indexOf, Hidx, add1_exact, shardName_exact by lia.
        done.
      * rewrite <- shardName_exact by lia. by apply shardName_fresh.
  - reflexivity.
  - apply indexOf_unindexed.
  - intros ds Hne Hds Hval. rewrite indexOf_pattern by done.
    by apply toNumber_exact.
  - intros n Hn.
    split_and!; [apply shardName_exact | apply shardName_pattern | apply indexOf_shardName
                | by apply shardName_succ_no_0]; lia.
Qed.

Lemma getNextResultFile_selection_witness :
  getNextResultFile (Examples.machine Examples.dirFull StatMissing [])
  = (Ok {| path := "forms_2.json"; data := [] |},
     Examples.machine Examples.dirFull StatMissing []).
Proof.
  destruct (getNextResultFile_selection
              (Examples.machine Examples.dirFull StatMissing []) eq_refl)
    as (_ & _ & _ & H & _).
  destruct H as (_ & _ & _ & _ & _ & _ & Hfull).
  { intros Hc. vm_compute in Hc. discriminate Hc. }
  destruct (Hfull MAX_FILE_SIZE (Records [Examples.aRecord; Examples.aRecord]) 1%N eq_refl)
    as [Hsel _]; [reflexivity | reflexivity | reflexivity | exact Hsel].
Defined.

(** C2, as stated, fails three times: a file outside the shard pattern is
    considered and becomes the append target; a shard that is stored under
    the name [forms_0.json] is produced as the target under that name, which
    contains [_0]; and for the shard of index [2^53] at the ceiling the
    index [2^53 + 1] is rounded back to [2^53], so that the target is the
    full shard itself and not a shard of the next index. *)
Lemma getNextResultFile_off_pattern :
  ¬ shardPattern "forms_old.json" ∧
  getNextResultFile (Examples.machine Examples.dirOld StatMissing [])
  = (Ok {| path := "forms_old.json"; data := [Examples.aRecord] |},
     Examples.machine Examples.dirOld StatMissing []) ∧
  getNextResultFile (Examples.machine Examples.dirZero StatMissing [])
  = (Ok {| path := "forms_0.json"; data := [] |},
     Examples.machine Examples.dirZero StatMissing []) ∧
  includes "forms_0.json" "_0" = true ∧
  indexOf "forms_9007199254740992.json" = Fin (2 ^ 53) ∧
  getNextResultFile (Examples.machine Examples.dirExact StatMissing [])
  = (Ok {| path := "forms_9007199254740992.json"; data := [] |},
     Examples.machine Examples.dirExact StatMissing []).
Proof.
  split_and!; try (vm_compute; reflexivity).
  intros [H | (ds & _ & Hds & H)]; [discriminate H |].
  destruct ds as [| c ds]; [discriminate H |].
  simpl in H. injection H as Hc _. subst c. discriminate Hds.
Qed.

(** C3, as amended. On a results directory that can be listed, when the
    target of an append is the existing shard [top], whose size is below the
    ceiling and which holds the records [old], and the write does not
    fail, [saveResults forms] overwrites [top] with
    [old ++ forms]: the shard has [length forms] more records, the old ones
    first and in their order; no other file changes and none is created. *)
Theorem saveResults_appends (env : Env) (forms old : list FormRecord) (size : N)
    (m : Machine) :
  let top := first (sortDesc (formFilesOf (resultDir m))) in
  listable (resultDir m) = true →
  formFilesOf (resultDir m) ≠ [] →
  lookupFile top (entries (resultDir m))
    = Some {| fsize := Some size; fbody := Records old |} →
  (size < MAX_FILE_SIZE)%N →
  hd false (writeFaults m) = false →
  ∃ m',
    saveResults env forms m = (Ok tt, m') ∧
    lookupFile top (entries (resultDir m'))
      = Some {| fsize := Some (byteLength env (old ++ forms));
                fbody := Records (old ++ forms) |} ∧
    length (old ++ forms) = length old + length forms ∧
    (∀ other, other ≠ top →
       lookupFile other (entries (resultDir m'))
         = lookupFile other (entries (resultDir m))) ∧
    map fst (entries (resultDir m')) = map fst (entries (resultDir m)) ∧
    trace m' = trace m ++ [EvWriteResult top (old ++ forms)].
Proof.
  intros top Hl Hne Hlk Hsize Hw.
  assert (getNextResultFile m = (Ok {| path := top; data := old |}, m)) as Hopen.
  { rewrite (getNextResultFile_listable m Hl). cbv zeta. fold top.
    destruct (formFilesOf (resultDir m)); [done |].
    rewrite Hlk. apply N.ltb_lt in Hsize. by rewrite Hsize. }
  unfold saveResults, bind. rewrite Hopen. cbn [path data].
  destruct (writeFile_ok env top (old ++ forms) m Hw)
    as (m' & Hrun & Hdir & _ & _ & _ & Htr & _).
  exists m'. rewrite Hdir. cbn [entries]. split_and!.
  - exact Hrun.
  - apply lookupFile_storeFile_eq.
  - apply length_app.
  - intros other Hother. by apply lookupFile_storeFile_ne.
  - apply storeFile_names. by rewrite Hlk.
  - exact Htr.
Qed.

Lemma saveResults_appends_witness :
  ∃ m',
    saveResults Examples.offline [Examples.aRecord; Examples.aRecord]
      (Examples.machine Examples.dirOpen StatMissing []) = (Ok tt, m') ∧
    lookupFile "forms_1.json" (entries (resultDir m'))
      = Some {| fsize := Some 300%N;
                fbody := Records [Examples.aRecord; Examples.aRecord; Examples.aRecord] |}.
Proof.
  destruct (saveResults_appends Examples.offline [Examples.aRecord; Examples.aRecord]
              [Examples.aRecord] 100%N
              (Examples.machine Examples.dirOpen StatMissing []))
    as (m' & Hrun & Hfile & _).
  - reflexivity.
  - intros Hc. vm_compute in Hc. discriminate Hc.
  - reflexivity.
  - reflexivity.
  - reflexivity.
  - exists m'. split; [exact Hrun | exact Hfile].
Defined.

(** C3, as stated, fails when the results directory cannot be listed:
    [forms.json] is below the ceiling and holds two records, and the append
    of two records leaves it with the two new records alone. *)
Lemma saveResults_unlisted_overwrites :
  let old := [Examples.aRecord; Examples.aRecord] in
  let new := [extractFormData "https://a.com" Examples.loginForm;
              extractFormData "https://b.com" Examples.loginForm] in
  let m := Examples.machine Examples.dirHidden StatMissing [] in
  lookupFile "forms.json" (entries (resultDir m))
    = Some {| fsize := Some 100%N; fbody := Records old |} ∧
  (100 < MAX_FILE_SIZE)%N ∧
  ∃ m', saveResults Examples.offline new m = (Ok tt, m') ∧
        resultWrites (trace m') = [("forms.json", new)] ∧
        lookupFile "forms.json" (entries (resultDir m'))
          = Some {| fsize := Some 200%N; fbody := Records new |} ∧
        length new ≠ length old + length new.
Proof.
  split_and!; [reflexivity | reflexivity |].
  eexists. split_and!; [vm_compute; reflexivity | reflexivity | reflexivity | discriminate].
Qed.

(** C10, as amended. When the results directory cannot be listed,
    [getNextResultFile] targets [forms.json] with no existing records, so
    that the following write replaces whatever [forms.json] held by the new
    records alone. When the size of the first shard after sorting cannot be
    read, [getNextResultFile] neither rejects nor takes that shard: the
    target has no existing records and is named with the shard's index plus
    one as the code computes it, which for an index [n] below [2^53] is
    [forms_<n+1>.json], a name that is not in the directory. *)
Theorem getNextResultFile_degrades (env : Env) (m : Machine) :
  (listable (resultDir m) = false →
     getNextResultFile m = (Ok {| path := "forms.json"; data := [] |}, m) ∧
     ∀ forms, hd false (writeFaults m) = false →
       ∃ m', saveResults env forms m = (Ok tt, m') ∧
             lookupFile "forms.json" (entries (resultDir m'))
               = Some {| fsize := Some (byteLength env forms); fbody := Records forms |}) ∧
  (listable (resultDir m) = true →
     formFilesOf (resultDir m) ≠ [] →
     let top := first (sortDesc (formFilesOf (resultDir m))) in
     (∃ e, stat top m = (Throw e, m)) →
     getNextResultFile m
       = (Ok {| path := shardName (add1 (indexOf top)); data := [] |}, m) ∧
     ∀ n, indexOf top = Fin n → (n < 2 ^ 53)%N →
          getNextResultFile m
            = (Ok {| path := "forms_" +:+ decimal (n + 1) +:+ ".json"; data := [] |}, m) ∧
          "forms_" +:+ decimal (n + 1) +:+ ".json" ∉ map fst (entries (resultDir m))).
Proof.
  split.
  - intros Hl. pose proof (getNextResultFile_unlistable m Hl) as Hsel.
    split; [exact Hsel |].
    intros forms Hw. unfold saveResults, bind. rewrite Hsel. cbn [path data app].
    destruct (writeFile_ok env "forms.json" forms m Hw) as (m' & Hrun & Hdir & _).
    exists m'. split; [exact Hrun |]. rewrite Hdir. cbn [entries].
    apply lookupFile_storeFile_eq.
  - intros Hl Hne top [e Hstat].
    assert (getNextResultFile m
            = (Ok {| path := shardName (add1 (indexOf top)); data := [] |}, m)) as Hsel.
    { rewrite (getNextResultFile_listable m Hl). cbv zeta.
      destruct (formFilesOf (resultDir m)) as [| f0 fs] eqn:Hff; [done |].
      fold top. unfold stat in Hstat. rewrite <- nextIndexOf_indexOf.
      destruct (lookupFile top (entries (resultDir m))) as [[[size |] body] |];
        [discriminate Hstat | reflexivity | reflexivity]. }
    split; [exact Hsel |].
    intros n Hidx Hn. change (2 ^ 53)%N with EXACT in Hn. split.
    + rewrite Hsel, Hidx, add1_exact, shardName_exact by lia. done.
    + rewrite <- shardName_exact by lia. by apply shardName_fresh.
Qed.

Lemma getNextResultFile_degrades_witness :
  (∃ m', saveResults Examples.offline [Examples.aRecord]
           (Examples.machine Examples.dirHidden StatMissing []) = (Ok tt, m') ∧
         lookupFile "forms.json" (entries (resultDir m'))
           = Some {| fsize := Some 100%N; fbody := Records [Examples.aRecord] |}) ∧
  getNextResultFile (Examples.machine Examples.dirNoStat StatMissing [])
  = (Ok {| path := "forms_5.json"; data := [] |},
     Examples.machine Examples.dirNoStat StatMissing []).
Proof.
  split.
  - destruct (getNextResultFile_degrades Examples.offline
                (Examples.machine Examples.dirHidden StatMissing [])) as [Hhidden _].
    destruct (Hhidden eq_refl) as [_ Hsave].
    exact (Hsave [Examples.aRecord] eq_refl).
  - destruct (getNextResultFile_degrades Examples.offline
                (Examples.machine Examples.dirNoStat StatMissing [])) as [_ Hnostat].
    destruct Hnostat as [_ Hnext].
    + reflexivity.
    + intros Hc. vm_compute in Hc. discriminate Hc.
    + exists (IOError "stat"). reflexivity.
    + destruct (Hnext 4%N) as [Hsel _]; [reflexivity | reflexivity | exact Hsel].
Defined.

(** C10, as stated, fails from [2^53] on: the size of the shard of index
    [2^53 + 1] cannot be read, its index is read as [2^53] and one more is
    [2^53] again, so that the target is named with an index below the
    shard's own and not with the next index, [2^53 + 2]. *)
Lemma getNextResultFile_index_rounds :
  let m := Examples.machine Examples.dirOdd StatMissing [] in
  digitsValue "9007199254740993" = (2 ^ 53 + 1)%N ∧
  (∃ e, stat "forms_9007199254740993.json" m = (Throw e, m)) ∧
  getNextResultFile m
  = (Ok {| path := "forms_9007199254740992.json"; data := [] |}, m) ∧
  shardName (toNumber (2 ^ 53 + 2)) = "forms_9007199254740994.json".
Proof.
  split_and!; try (vm_compute; reflexivity).
  eexists. vm_compute. reflexivity.
Qed.

(** ** Frontier crawler: the caps *)

Lemma enqueue_cons (v : gset string) (l : string) (links q : list string) :
  enqueue v (l :: links) q =
  enqueue v links
    (if negb (bool_decide (l ∈ v)) && (length q <? 100)%nat then q ++ [l] else q).
Proof. reflexivity. Qed.

Lemma enqueue_spec (v : gset string) (links q : list string) :
  ∃ added,
    enqueue v links q = q ++ added ∧
    added `sublist_of` links ∧
    (∀ x, x ∈ added → x ∉ v) ∧
    length (q ++ added) ≤ Nat.max (length q) 100.
Proof.
  revert q. induction links as [| l links IH]; intros q.
  - exists []. rewrite app_nil_r.
    split_and!; [done | done | by intros ? ?%elem_of_nil | lia].
  - rewrite enqueue_cons.
    case_bool_decide as Hv; simpl.
    + destruct (IH q) as (added & -> & Hsub & Hnew & Hlen).
      exists added. split_and!; [done | by apply sublist_cons | done | done].
    + destruct (Nat.ltb_spec (length q) 100) as [Hlt | Hge].
      * destruct (IH (q ++ [l])) as (added & -> & Hsub & Hnew & Hlen).
        exists (l :: added). rewrite <- app_assoc. simpl. split_and!.
        -- done.
        -- by apply sublist_skip.
        -- intros x [-> | Hx]%elem_of_cons; [done | by apply Hnew].
        -- rewrite <- app_assoc in Hlen. simpl in Hlen.
           rewrite !length_app in *. simpl in *. lia.
      * destruct (IH q) as (added & -> & Hsub & Hnew & Hlen).
        exists added. split_and!; [done | by apply sublist_cons | done | done].
Qed.

(** One turn of the loop: the head of the queue is removed; when it was
    visited before, nothing else changes; otherwise it joins [visited] and
    some of the first ten links of its page are appended to the queue. *)
Lemma step_spec (env : Env) (domain base : string) (st st' : Frontier) :
  step env domain base st = Some st' →
  ∃ url rest,
    toVisit st = url :: rest ∧
    size (visited st) < 50 ∧
    ((url ∈ visited st ∧
      st' = {| toVisit := rest; visited := visited st; forms := forms st |})
     ∨
     ((url ∉ visited st) ∧
      visited st' = {[url]} ∪ visited st ∧
      ∃ links,
        toVisit st' = enqueue (visited st') (take 10 links) rest ∧
        (links = [] ∨
         ∃ page anchors, goto env domain url = Some page ∧
                         page_anchors page = Some anchors ∧
                         links = linksOf base anchors))).
Proof.
  unfold step. destruct (toVisit st) as [| url rest]; [done |].
  destruct (Nat.ltb_spec (size (visited st)) 50) as [Hlt | Hge]; [| done].
  intros Hstep. exists url, rest. split_and!; [done | done |].
  case_bool_decide as Hv.
  - left. by injection Hstep as <-.
  - right. split; [done |].
    destruct (goto env domain url) as [page |] eqn:Hgoto.
    + destruct (page_forms page) as [pageForms |].
      * destruct (page_anchors page) as [anchors |] eqn:Hanchors;
          injection Hstep as <-; simpl; (split; [done |]).
        -- exists (linksOf base anchors). split; [done |]. right. by exists page, anchors.
        -- exists []. split; [done | by left].
      * injection Hstep as <-. simpl. split; [done |].
        exists []. split; [done | by left].
    + injection Hstep as <-. simpl. split; [done |].
      exists []. split; [done | by left].
Qed.

Lemma size_visit (url : string) (v : gset string) :
  url ∉ v → size ({[url]} ∪ v) = S (size v).
Proof.
  intros Hv. rewrite size_union by set_solver. by rewrite size_singleton.
Qed.

Lemma step_decreases (env : Env) (domain base : string) (st st' : Frontier) :
  step env domain base st = Some st' → turnsLeft st' < turnsLeft st.
Proof.
  intros (url & rest & Hq & Hlt & Hcase)%step_spec. unfold turnsLeft. rewrite Hq. simpl.
  destruct Hcase as [[_ ->] | (Hv & Hvis & links & Hq' & _)]; simpl; [lia |].
  rewrite Hq', Hvis, size_visit by done.
  destruct (enqueue_spec ({[url]} ∪ visited st) (take 10 links) rest)
    as (added & -> & _ & _ & Hlen).
  lia.
Qed.

(** With [turnsLeft] turns allowed the loop stops by its own condition. *)
Lemma visitLoop_stops (env : Env) (domain base : string) (fuel : nat) (st : Frontier) :
  turnsLeft st ≤ fuel →
  step env domain base (visitLoop env domain base fuel st) = None.
Proof.
  revert st. induction fuel as [| fuel IH]; intros st Hfuel; simpl.
  - unfold turnsLeft in Hfuel. unfold step.
    destruct (toVisit st); [done | simpl in Hfuel; lia].
  - destruct (step env domain base st) as [st' |] eqn:Hstep; [| done].
    apply IH. apply step_decreases in Hstep. lia.
Qed.

Lemma visitLoop_reachable (env : Env) (domain : string) (fuel : nat) (st : Frontier) :
  reachable env domain st →
  reachable env domain (visitLoop env domain (baseDomainOf domain) fuel st).
Proof.
  revert st. induction fuel as [| fuel IH]; intros st Hst; simpl; [done |].
  destruct (step env domain (baseDomainOf domain) st) as [st' |] eqn:Hstep; [| done].
  apply IH. by eapply reach_step.
Qed.

Lemma seed_toVisit (domain : string) :
  toVisit (seed domain)
  = ["https://" +:+ domain; "https://www." +:+ domain; "http://" +:+ domain].
Proof.
  unfold seed. cbn [toVisit fold_left].
  by rewrite !bool_decide_eq_false_2 by apply not_elem_of_empty.
Qed.

Lemma reachable_caps (env : Env) (domain : string) (st : Frontier) :
  reachable env domain st →
  size (visited st) ≤ 50 ∧ length (toVisit st) ≤ 100.
Proof.
  induction 1 as [| st st' _ [IHv IHq] Hstep].
  - rewrite seed_toVisit. cbn [visited seed length]. rewrite size_empty. lia.
  - apply step_spec in Hstep as (url & rest & Hq & Hlt & Hcase).
    rewrite Hq in IHq. simpl in IHq.
    destruct Hcase as [[_ ->] | (Hv & Hvis & links & Hq' & _)]; simpl; [lia |].
    rewrite Hq', Hvis, size_visit by done.
    destruct (enqueue_spec ({[url]} ∪ visited st) (take 10 links) rest)
      as (added & -> & _ & _ & Hlen).
    lia.
Qed.

(** C6. In every state of the visit loop of a crawl the visited set has at
    most 50 URLs and the queue at most 100 entries. A turn removes the head
    of the queue; when that URL was visited before, the turn changes nothing
    else, so it does not count toward the 50; otherwise the URL joins the
    visited set and the queue grows by a selection, in order, of the first
    ten same-site links of the page, hence by at most ten entries. The
    states of the loop are these states, and the loop ends within the
    [turnsLeft] turns that [crawlDomain] allows. *)
Theorem crawl_frontier_caps (env : Env) (domain : string) (st : Frontier) :
  reachable env domain st →
  size (visited st) ≤ 50 ∧
  length (toVisit st) ≤ 100 ∧
  (∀ st', step env domain (baseDomainOf domain) st = Some st' →
     ∃ url rest,
       toVisit st = url :: rest ∧
       (url ∈ visited st →
          visited st' = visited st ∧ toVisit st' = rest ∧ forms st' = forms st) ∧
       (url ∉ visited st →
          visited st' = {[url]} ∪ visited st ∧
          size (visited st') = S (size (visited st)) ∧
          ∃ links added,
            (links = [] ∨
             ∃ page anchors, goto env domain url = Some page ∧
                             page_anchors page = Some anchors ∧
                             links = linksOf (baseDomainOf domain) anchors) ∧
            toVisit st' = rest ++ added ∧
            added `sublist_of` take 10 links ∧
            length added ≤ 10)) ∧
  (∀ fuel, reachable env domain (visitLoop env domain (baseDomainOf domain) fuel st)) ∧
  step env domain (baseDomainOf domain)
    (visitLoop env domain (baseDomainOf domain) (turnsLeft st) st) = None.
Proof.
  intros Hst. destruct (reachable_caps env domain st Hst) as [Hv Hq].
  split_and!; [done | done | | |].
  - intros st' (url & rest & Hqueue & Hlt & Hcase)%step_spec.
    exists url, rest. split; [done |]. split.
    + intros Hin. destruct Hcase as [[_ ->] | [Hnot _]]; [done | done].
    + intros Hnot. destruct Hcase as [[Hin _] | (_ & Hvis & links & Hq' & Hlinks)]; [done |].
      split; [done |]. split; [by rewrite Hvis, size_visit |].
      destruct (enqueue_spec (visited st') (take 10 links) rest)
        as (added & Hadd & Hsub & _ & _).
      exists links, added. split_and!; [done | by rewrite Hq' | done |].
      apply sublist_length in Hsub. rewrite length_take in Hsub. lia.
  - intros fuel. by apply visitLoop_reachable.
  - by apply visitLoop_stops.
Qed.

Lemma crawl_frontier_caps_witness :
  let st := visitLoop Examples.threeDomains "b.com" (baseDomainOf "b.com") 2
              (seed "b.com") in
  size (visited st) ≤ 50 ∧ length (toVisit st) ≤ 100.
Proof.
  destruct (crawl_frontier_caps Examples.threeDomains "b.com"
              (visitLoop Examples.threeDomains "b.com" (baseDomainOf "b.com") 2
                 (seed "b.com"))) as (Hv & Hq & _).
  - apply visitLoop_reachable, reach_seed.
  - split; [exact Hv | exact Hq].
Defined.

(** ** Frontier crawler: the renderer *)

(** [crawlDomain] acts on the trace alone. *)
Lemma crawlDomain_run (env : Env) (domain : string) (m : Machine) :
  crawlDomain env domain m
  = (crawlResult env domain, set_trace (trace m ++ crawlEvents env domain) m).
Proof.
  unfold crawlResult, crawlEvents, crawlDomain, bind, emit, modify, renderer, ret, throw.
  destruct (launchOk env domain), (newContextOk env domain), (newPageOk env domain),
    (closeOk env domain); cbn; unfold set_trace; cbn; rewrite <- ?app_assoc; reflexivity.
Qed.

(** When the context and the page are created, the browser is closed. *)
Lemma crawlDomain_closes (env : Env) (domain : string) :
  launchOk env domain = true →
  newContextOk env domain = true →
  newPageOk env domain = true →
  crawlEvents env domain = [EvLaunch domain; EvClose domain].
Proof.
  intros Hl Hc Hp.
  unfold crawlEvents, crawlDomain, bind, emit, modify, renderer, ret, throw.
  rewrite Hl, Hc, Hp. cbn. by destruct (closeOk env domain).
Qed.

(** When the context or the page cannot be created, [crawlDomain] rejects
    and the browser that was launched is not closed. *)
Lemma crawlDomain_no_close (env : Env) (domain : string) :
  launchOk env domain = true →
  newContextOk env domain = false ∨ newPageOk env domain = false →
  crawlEvents env domain = [EvLaunch domain] ∧
  ∃ call, crawlResult env domain = Throw (RendererError call).
Proof.
  intros Hl Hfail.
  unfold crawlEvents, crawlResult, crawlDomain, bind, emit, modify, renderer, ret, throw.
  rewrite Hl. destruct (newContextOk env domain); cbn.
  - destruct Hfail as [? | ->]; [done |]. cbn. eauto.
  - eauto.
Qed.

(** C7 fails on the code: when [browser.newContext] rejects after the
    browser was launched, [crawlDomain] rejects and [browser.close] is never
    called. *)
Theorem crawlDomain_leaks_browser :
  let m := Examples.machine Examples.emptyDir StatMissing [] in
  let (r, m') := crawlDomain Examples.noContext "a.com" m in
  r = Throw (RendererError "newContext") ∧
  launches (trace m') = ["a.com"] ∧
  closes (trace m') = [].
Proof. vm_compute. done. Qed.

(** ** Run controller *)



Lemma getNextResultFile_pure (m : Machine) :
  getNextResultFile m = (targetOf (resultDir m), m).
Proof.
  unfold targetOf.
  destruct (listable (resultDir m)) eqn:Hl.
  - rewrite (getNextResultFile_listable m Hl).
    rewrite (getNextResultFile_listable (set_resultDir (resultDir m) blank) Hl).
    cbn [resultDir set_resultDir]. cbv zeta.
    destruct (formFilesOf (resultDir m)); [reflexivity |].
    generalize (first (sortDesc (s :: l))). intros top.
    destruct (lookupFile top (entries (resultDir m))) as [[[size |] body] |];
      try reflexivity.
    destruct (size <? MAX_FILE_SIZE)%N; [| reflexivity].
    destruct body; reflexivity.
  - rewrite (getNextResultFile_unlistable m Hl).
    by rewrite (getNextResultFile_unlistable (set_resultDir (resultDir m) blank) Hl).
Qed.

Lemma crawlEvents_launches (env : Env) (domain : string) :
  launches (crawlEvents env domain) = [domain] ∧
  resultWrites (crawlEvents env domain) = [] ∧
  stateWrites (crawlEvents env domain) = [].
Proof.
  unfold crawlEvents, crawlDomain, bind, emit, modify, renderer, ret, throw.
  destruct (launchOk env domain), (newContextOk env domain), (newPageOk env domain),
    (closeOk env domain); cbn; done.
Qed.

(** An attempt on a domain whose crawl yields no form: the domain is marked
    scanned and the state is saved; nothing else changes. *)
Lemma attempt_barren (env : Env) (d : string) (m : Machine) :
  barren env d →
  hd false (writeFaults m) = false →
  let doc := {| scanned := scanned (stats m) ++ [d];
                lastUpdate := Some (date env (ticks m)) |} in
  attempt env d m
  = (Ok tt,
     {| resultDir := resultDir m;
        statFile := StatDocument doc;
        writeFaults := tl (writeFaults m);
        writeDamage := writeDamage m;
        ticks := S (ticks m);
        trace := trace m ++ crawlEvents env d ++ [EvWriteState doc];
        stats := doc;
        formsFound := formsFound m |}).
Proof.
  intros Hbarren Hw doc.
  unfold attempt, try_catch, bind. rewrite crawlDomain_run.
  destruct Hbarren as [-> | [e ->]].
  - cbn [length Nat.ltb Nat.leb ret].
    unfold markScanned, saveStats, saveScannedDomains, now, get, writeGate, emit,
      modify, bind, ret.
    cbn. rewrite Hw. cbn. unfold set_trace. cbn. by rewrite <- app_assoc.
  - unfold markScanned, saveStats, saveScannedDomains, now, get, writeGate, emit,
      modify, bind, ret.
    cbn. rewrite Hw. cbn. unfold set_trace. cbn. by rewrite <- app_assoc.
Qed.

(** An attempt on a domain whose crawl yields forms, when the result store
    accepts them: the forms are appended to the target shard, the domain is
    marked scanned, the state is saved and [formsFound] is set. *)
Lemma attempt_fruitful (env : Env) (d : string) (m : Machine)
    (forms : list FormRecord) (target : Target) :
  crawlResult env d = Ok forms →
  forms ≠ [] →
  targetOf (resultDir m) = Ok target →
  hd false (writeFaults m) = false →
  hd false (tl (writeFaults m)) = false →
  let doc := {| scanned := scanned (stats m) ++ [d];
                lastUpdate := Some (date env (ticks m)) |} in
  let allForms := data target ++ forms in
  attempt env d m
  = (Ok tt,
     {| resultDir :=
          {| listable := listable (resultDir m);
             entries := storeFile (path target)
                          {| fsize := Some (byteLength env allForms);
                             fbody := Records allForms |}
                          (entries (resultDir m)) |};
        statFile := StatDocument doc;
        writeFaults := tl (tl (writeFaults m));
        writeDamage := writeDamage m;
        ticks := S (ticks m);
        trace := trace m ++ crawlEvents env d
                   ++ [EvWriteResult (path target) allForms; EvWriteState doc];
        stats := doc;
        formsFound := true |}).
Proof.
  intros Hcrawl Hforms Htarget Hw1 Hw2 doc allForms.
  unfold attempt, try_catch, bind. rewrite crawlDomain_run, Hcrawl.
  destruct forms as [| f forms]; [done |].
  cbn [length Nat.ltb Nat.leb].
  unfold saveResults, bind. rewrite getNextResultFile_pure.
  cbn [resultDir set_trace]. rewrite Htarget.
  unfold writeFile, markScanned, saveStats, saveScannedDomains, now, get, writeGate,
    emit, modify, bind, ret.
  cbn. rewrite Hw1. cbn. rewrite Hw2. cbn.
  unfold set_trace. cbn. by rewrite <- !app_assoc.
Qed.

Lemma nth_drop_head (i : nat) (l : list string) (x : string) (r : list string) :
  drop i l = x :: r → nth i l EmptyString = x ∧ drop (S i) l = r.
Proof.
  revert l. induction i as [| i IH]; intros [| y l]; simpl; try done.
  - by intros [= -> ->].
  - intros H. by apply IH.
Qed.

Lemma noFaults_hd (w : list bool) :
  Forall (λ b, b = false) w → hd false w = false ∧ Forall (λ b, b = false) (tl w).
Proof. destruct 1; simpl; auto. Qed.

(** The loop of [main] from index [i] on, when the domains from [i] on are
    [before], which yield no form, then [d], which does. *)
Lemma attemptLoop_first_success (env : Env) (unscannedDomains : list string)
    (d : string) (after : list string) (forms : list FormRecord) (target : Target)
    (before : list string) :
  crawlResult env d = Ok forms →
  forms ≠ [] →
  ∀ (i remaining : nat) (m : Machine),
    drop i unscannedDomains = before ++ d :: after →
    Forall (barren env) before →
    length before < remaining →
    formsFound m = false →
    noFaults m →
    targetOf (resultDir m) = Ok target →
    ∃ m',
      attemptLoop env unscannedDomains remaining i m = (Ok (i + length before + 1), m') ∧
      formsFound m' = true ∧
      launches (trace m') = launches (trace m) ++ before ++ [d] ∧
      resultWrites (trace m')
        = resultWrites (trace m) ++ [(path target, data target ++ forms)] ∧
      length (stateWrites (trace m'))
        = length (stateWrites (trace m)) + length before + 1 ∧
      scanned (stats m') = scanned (stats m) ++ before ++ [d] ∧
      statFile m' = StatDocument (stats m') ∧
      resultDir m' =
        {| listable := listable (resultDir m);
           entries := storeFile (path target)
                        {| fsize := Some (byteLength env (data target ++ forms));
                           fbody := Records (data target ++ forms) |}
                        (entries (resultDir m)) |}.
Proof.
  intros Hcrawl Hforms.
  induction before as [| b before IH]; intros i remaining m Hdrop Hbarren Hrem Hff Hnf Htarget.
  - simpl in Hdrop. apply nth_drop_head in Hdrop as [Hnth _].
    destruct remaining as [| remaining]; [simpl in Hrem; lia |].
    destruct (noFaults_hd _ Hnf) as [Hw1 Hnf1].
    destruct (noFaults_hd _ Hnf1) as [Hw2 _].
    cbn [attemptLoop]. unfold bind at 1. unfold get. rewrite Hff.
    unfold bind. rewrite Hnth.
    rewrite (attempt_fruitful env d m forms target Hcrawl Hforms Htarget Hw1 Hw2).
    eexists. split.
    { destruct remaining; cbn; [| unfold bind, get; cbn];
        replace (i + 0 + 1) with (S i) by lia; reflexivity. }
    destruct (crawlEvents_launches env d) as (Hl & Hr & Hs).
    cbn. unfold launches, resultWrites, stateWrites in *.
    rewrite !omap_app, Hl, Hr, Hs. cbn. rewrite length_app. cbn.
    split_and!; try done. lia.
  - simpl in Hdrop. apply nth_drop_head in Hdrop as [Hnth Hdrop].
    destruct remaining as [| remaining]; [simpl in Hrem; lia |].
    apply Forall_cons in Hbarren as [Hb Hbarren].
    destruct (noFaults_hd _ Hnf) as [Hw1 Hnf1].
    cbn [attemptLoop]. unfold bind at 1. unfold get. rewrite Hff.
    unfold bind at 1. rewrite Hnth.
    rewrite (attempt_barren env b m Hb Hw1).
    edestruct (IH (S i) remaining) as (m' & Hrun & Hff' & Hl' & Hr' & Hs' & Hsc' & Hst' & Hdir');
      [exact Hdrop | exact Hbarren | simpl in Hrem; lia | | | | ].
    4: { exists m'. split.
         { rewrite Hrun. simpl. do 2 f_equal. lia. }
         destruct (crawlEvents_launches env b) as (Hl & Hr & Hs).
         cbn in Hl', Hr', Hs', Hsc', Hdir'.
         unfold launches, resultWrites, stateWrites in *.
         rewrite !omap_app, Hl in Hl'. rewrite !omap_app, Hr in Hr'.
         rewrite !omap_app, Hs in Hs'. cbn in Hl', Hr', Hs'.
         rewrite ?app_nil_r, ?length_app in *. cbn in *.
         rewrite <- !app_assoc in *. cbn in *.
         split_and!; try done. lia. }
    + exact Hff.
    + exact Hnf1.
    + exact Htarget.
Qed.

(** C1, as amended. Let the unscanned domains be [before ++ d :: after] in
    collection order, where no domain of [before] yields a form, the crawl
    of [d] yields the forms [forms], at least one, and [d] is the N-th
    domain with N at most 10. When [mkdir] succeeds, no [writeFile] call
    rejects and the target shard can be loaded, the run attempts exactly the
    first N domains, in that order, appends each of them to [scanned] and
    saves the state, and writes to the result store once: the forms of [d],
    appended to the target shard. *)
Theorem main_first_success (env : Env) (m : Machine) (st : ScanState)
    (before : list string) (d : string) (after : list string)
    (forms : list FormRecord) (target : Target) :
  mkdirOk env = true →
  loadScannedDomains m = (Ok st, m) →
  unscannedOf (fetchDomains (domainsText env) (wildcardsText env)) st
    = before ++ d :: after →
  Forall (barren env) before →
  crawlResult env d = Ok forms →
  forms ≠ [] →
  length before < MAX_DOMAIN_ATTEMPTS →
  noFaults m →
  targetOf (resultDir m) = Ok target →
  ∃ m',
    main env m = (Ok ReportFound, m') ∧
    launches (trace m') = launches (trace m) ++ before ++ [d] ∧
    before ++ [d] = take (length before + 1) (before ++ d :: after) ∧
    scanned (stats m') = scanned st ++ before ++ [d] ∧
    statFile m' = StatDocument (stats m') ∧
    length (stateWrites (trace m')) = length (stateWrites (trace m)) + length before + 1 ∧
    resultWrites (trace m')
      = resultWrites (trace m) ++ [(path target, data target ++ forms)] ∧
    resultDir m' =
      {| listable := listable (resultDir m);
         entries := storeFile (path target)
                      {| fsize := Some (byteLength env (data target ++ forms));
                         fbody := Records (data target ++ forms) |}
                      (entries (resultDir m)) |}.
Proof.
  intros Hmk Hload Hun Hbarren Hcrawl Hforms Hn Hnf Htarget.
  unfold main, bind at 1, ensureDirectories. rewrite Hmk. cbn [ret].
  unfold bind at 1. rewrite Hload.
  unfold bind at 1. cbn [modify]. rewrite Hun.
  destruct (length (before ++ d :: after) =? 0)%nat eqn:Hlen.
  { apply Nat.eqb_eq in Hlen. rewrite length_app in Hlen. simpl in Hlen. lia. }
  unfold bind at 1. cbn [modify].
  edestruct (attemptLoop_first_success env (before ++ d :: after) d after forms target
               before Hcrawl Hforms 0
               (Nat.min (length (before ++ d :: after)) MAX_DOMAIN_ATTEMPTS)
               (set_formsFound false (set_stats st m)))
    as (m' & Hrun & Hff & Hl & Hr & Hs & Hsc & Hst & Hdir);
    [done | done | | done | done | done |].
  { rewrite length_app. simpl. unfold MAX_DOMAIN_ATTEMPTS in *. lia. }
  exists m'. unfold bind. rewrite Hrun. unfold get. rewrite Hff. cbn [ret].
  split_and!; try done.
  rewrite take_app, take_ge by lia.
  by replace (length before + 1 - length before) with 1 by lia.
Qed.

Lemma main_first_success_witness :
  ∃ m',
    main Examples.threeDomains (Examples.machine Examples.dirOpen StatMissing [])
    = (Ok ReportFound, m') ∧
    launches (trace m') = ["a.com"; "b.com"] ∧
    scanned (stats m') = ["a.com"; "b.com"] ∧
    resultWrites (trace m')
    = [("forms_1.json",
        [Examples.aRecord; extractFormData "https://b.com" Examples.loginForm])].
Proof.
  destruct (main_first_success Examples.threeDomains
              (Examples.machine Examples.dirOpen StatMissing [])
              defaultStats ["a.com"] "b.com" ["c.com"]
              [extractFormData "https://b.com" Examples.loginForm]
              {| path := "forms_1.json"; data := [Examples.aRecord] |})
    as (m' & Hrun & Hl & _ & Hsc & _ & _ & Hr & _).
  - reflexivity.
  - reflexivity.
  - vm_compute. reflexivity.
  - constructor; [| constructor]. left. vm_compute. reflexivity.
  - vm_compute. reflexivity.
  - discriminate.
  - unfold MAX_DOMAIN_ATTEMPTS. simpl. lia.
  - constructor.
  - vm_compute. reflexivity.
  - exists m'. split_and!; [exact Hrun | exact Hl | exact Hsc | exact Hr].
Defined.

(** C1, as stated, fails in runs whose stores do not work: [b.com] is the
    second unscanned domain and the first whose crawl yields a form, and
    the crawl of [a.com] yields none. When [mkdir] rejects, the run ends
    with that error and attempts nothing. When both writes of [scanned.json]
    after the crawl of [a.com] reject, the run ends with that error after
    one attempt: [b.com] is not crawled and nothing is stored. When the
    write of the shard rejects, or the target shard holds text that is not
    JSON, the forms of [b.com] are not stored and the run goes on to
    [c.com]: three domains are attempted. *)
Lemma main_first_success_needs_stores :
  let env := Examples.threeDomains in
  let m0 := Examples.machine Examples.emptyDir StatMissing [] in
  let m1 := Examples.machine Examples.emptyDir StatMissing [true; true] in
  let m2 := Examples.machine Examples.emptyDir StatMissing [false; true] in
  let m3 := Examples.machine Examples.dirCorrupt StatMissing [] in
  unscannedOf (fetchDomains (domainsText env) (wildcardsText env)) defaultStats
    = ["a.com"; "b.com"; "c.com"] ∧
  crawlResult env "a.com" = Ok [] ∧
  crawlResult env "b.com" = Ok [extractFormData "https://b.com" Examples.loginForm] ∧
  (fst (main Examples.readOnly m0) = Throw (IOError "mkdir") ∧
   launches (trace (snd (main Examples.readOnly m0))) = []) ∧
  (fst (main env m1) = Throw (IOError "writeFile") ∧
   launches (trace (snd (main env m1))) = ["a.com"] ∧
   resultWrites (trace (snd (main env m1))) = [] ∧
   entries (resultDir (snd (main env m1))) = []) ∧
  (fst (main env m2) = Ok (ReportNotFound 3) ∧
   launches (trace (snd (main env m2))) = ["a.com"; "b.com"; "c.com"] ∧
   resultWrites (trace (snd (main env m2))) = [] ∧
   entries (resultDir (snd (main env m2))) = []) ∧
  (fst (main env m3) = Ok (ReportNotFound 3) ∧
   launches (trace (snd (main env m3))) = ["a.com"; "b.com"; "c.com"] ∧
   resultWrites (trace (snd (main env m3))) = [] ∧
   resultDir (snd (main env m3)) = Examples.dirCorrupt).
Proof. vm_compute. done. Qed.

(** An attempt on a domain whose crawl yields forms, when the write of the
    shard rejects and the write of the state does not: the handler of the
    loop takes the error, the domain is marked scanned, [formsFound] stays
    as it was and no write of a shard resolves; the target shard is as the
    rejected call left it. *)
Lemma attempt_swallows_save_failure (env : Env) (d : string) (m : Machine)
    (forms : list FormRecord) (target : Target) :
  crawlResult env d = Ok forms →
  forms ≠ [] →
  targetOf (resultDir m) = Ok target →
  hd false (writeFaults m) = true →
  hd false (tl (writeFaults m)) = false →
  let doc := {| scanned := scanned (stats m) ++ [d];
                lastUpdate := Some (date env (ticks m)) |} in
  let allForms := data target ++ forms in
  attempt env d m
  = (Ok tt,
     {| resultDir :=
          match hd Untouched (writeDamage m) with
          | Untouched => resultDir m
          | Truncated written =>
              resultDir
                (putFile (path target)
                   {| fsize := Some (N.min written (N.pred (byteLength env allForms)));
                      fbody := Garbage |} m)
          | Stored =>
              resultDir
                (putFile (path target)
                   {| fsize := Some (byteLength env allForms);
                      fbody := Records allForms |} m)
          end;
        statFile := StatDocument doc;
        writeFaults := tl (tl (writeFaults m));
        writeDamage := tl (writeDamage m);
        ticks := S (ticks m);
        trace := trace m ++ crawlEvents env d ++ [EvWriteState doc];
        stats := doc;
        formsFound := formsFound m |}).
Proof.
  intros Hcrawl Hforms Htarget Hw1 Hw2 doc allForms.
  unfold attempt, try_catch, bind. rewrite crawlDomain_run, Hcrawl.
  destruct forms as [| f forms]; [done |].
  cbn [length Nat.ltb Nat.leb].
  unfold saveResults, bind. rewrite getNextResultFile_pure.
  cbn [resultDir set_trace]. rewrite Htarget.
  unfold writeFile, markScanned, saveStats, saveScannedDomains, now, get, writeGate,
    emit, modify, bind, ret.
  cbn. rewrite Hw1. cbn.
  destruct (hd Untouched (writeDamage m)); cbn; rewrite Hw2; cbn;
    unfold set_trace; cbn; by rewrite <- !app_assoc.
Qed.

(** C9 fails on the code: every write to the result store rejects and the
    writes of [scanned.json] succeed. The forms found on [a.com] cannot be
    stored; the error is caught by the handler of the loop, [a.com] is
    marked scanned, and the run goes on to crawl [b.com], whose forms are
    lost in the same way; the run ends normally, with no form stored. *)
Theorem main_swallows_write_failure :
  let m := Examples.machine Examples.emptyDir StatMissing [true; false; true; false] in
  let (r, m') := main Examples.twoDomains m in
  crawlResult Examples.twoDomains "a.com"
    = Ok [extractFormData "https://a.com" Examples.loginForm] ∧
  fst (saveResults Examples.twoDomains
         [extractFormData "https://a.com" Examples.loginForm] m)
    = Throw (IOError "writeFile") ∧
  r = Ok (ReportNotFound 2) ∧
  launches (trace m') = ["a.com"; "b.com"] ∧
  resultWrites (trace m') = [] ∧
  entries (resultDir m') = [] ∧
  statFile m'
    = StatDocument {| scanned := ["a.com"; "b.com"]; lastUpdate := Some "t1" |}.
Proof. vm_compute. done. Qed.

(** * Further properties of the code *)

(** ** Run controller: what every attempt does *)

Lemma gentle_hd (w : list Damage) :
  Forall (λ d, d = Untouched) w →
  hd Untouched w = Untouched ∧ Forall (λ d, d = Untouched) (tl w).
Proof. destruct 1; simpl; auto. Qed.

Ltac gentle_step H := let Hh := fresh "Hh" in apply gentle_hd in H as [Hh H].

Ltac gentle_tac :=
  let Hg := fresh "Hg" in
  intros Hg; unfold gentle in *; cbn in *;
  try congruence; try exact Hg;
  gentle_step Hg; try congruence; try exact Hg;
  gentle_step Hg; try congruence; try exact Hg;
  gentle_step Hg; try congruence; try exact Hg.

(** Decide the outcome of the coming writes, one after the other. *)
Ltac run_writes :=
  repeat (cbn;
    match goal with
    | |- context [hd Untouched ?l] =>
        lazymatch l with
        | context [hd] => fail
        | _ => let H := fresh "Hdmg" in destruct (hd Untouched l) eqn:H
        end
    | |- context [hd false ?l] =>
        lazymatch l with
        | context [hd] => fail
        | _ => let H := fresh "Hflt" in destruct (hd false l) eqn:H
        end
    end); cbn.

(** Whatever the crawl, the result store and the state store do, an attempt
    starts exactly one crawl, appends the domain to [scanned] (twice when
    the state write of the [try] block rejects and the handler runs), and
    ends normally or with the rejection of a state write; when it ends
    normally the state file holds the state in memory. Either no write of a
    shard resolves and [formsFound] is as it was, or the crawl yielded
    forms, they were appended to the target shard and [formsFound] is set. *)
Lemma attempt_always (env : Env) (d : string) (m : Machine) :
  ∃ r m',
    attempt env d m = (r, m') ∧
    (r = Ok tt ∨ r = Throw (IOError "writeFile")) ∧
    launches (trace m') = launches (trace m) ++ [d] ∧
    (scanned (stats m') = scanned (stats m) ++ [d] ∨
     scanned (stats m') = scanned (stats m) ++ [d; d]) ∧
    (r = Ok tt → statFile m' = StatDocument (stats m')) ∧
    (gentle m → gentle m') ∧
    ((resultWrites (trace m') = resultWrites (trace m) ∧
      formsFound m' = formsFound m ∧
      (gentle m → resultDir m' = resultDir m))
     ∨
     (∃ forms target,
        crawlResult env d = Ok forms ∧ forms ≠ [] ∧
        targetOf (resultDir m) = Ok target ∧
        resultWrites (trace m')
          = resultWrites (trace m) ++ [(path target, data target ++ forms)] ∧
        formsFound m' = true)).
Proof.
  destruct (crawlEvents_launches env d) as (Hl & Hr & Hs).
  unfold attempt, try_catch, bind. rewrite crawlDomain_run.
  destruct (crawlResult env d) as [[| f fs] | e] eqn:Hcrawl.
  - unfold markScanned, saveStats, saveScannedDomains, now, get, writeGate, emit,
      modify, bind, ret.
    run_writes;
      (eexists _, _; split; [reflexivity |]); cbn;
      unfold launches, resultWrites in *; rewrite ?omap_app, ?Hl, ?Hr; cbn;
      rewrite ?app_nil_r, <- ?app_assoc; cbn;
      (split_and!; auto; try done; try gentle_tac;
       left; split_and!; auto; try done; gentle_tac).
  - cbn [length Nat.ltb Nat.leb].
    unfold saveResults, bind. rewrite getNextResultFile_pure.
    cbn [resultDir set_trace].
    destruct (targetOf (resultDir m)) as [target | e] eqn:Htarget;
      unfold writeFile, putFile, markScanned, saveStats, saveScannedDomains, now, get,
        writeGate, emit, modify, bind, ret;
      run_writes;
      (eexists _, _; split; [reflexivity |]); cbn;
      unfold launches, resultWrites in *; rewrite ?omap_app, ?Hl, ?Hr; cbn;
      rewrite ?app_nil_r, <- ?app_assoc; cbn;
      (split_and!; auto; try done; try gentle_tac;
       first [ left; split_and!; auto; try done; gentle_tac
             | right; exists (f :: fs), target; by split_and! ]).
  - unfold markScanned, saveStats, saveScannedDomains, now, get, writeGate, emit,
      modify, bind, ret.
    run_writes;
      (eexists _, _; split; [reflexivity |]); cbn;
      unfold launches, resultWrites in *; rewrite ?omap_app, ?Hl, ?Hr; cbn;
      rewrite ?app_nil_r, <- ?app_assoc; cbn;
      (split_and!; auto; try done; try gentle_tac;
       left; split_and!; auto; try done; gentle_tac).
Qed.

Lemma drop_nth_cons (i : nat) (l : list string) :
  i < length l → drop i l = nth i l EmptyString :: drop (S i) l.
Proof.
  revert l. induction i as [| i IH]; intros [| x l]; simpl; try lia; [done |].
  intros H. apply IH. lia.
Qed.

(** Once [formsFound] is set the loop stops. *)
Lemma attemptLoop_found (env : Env) (unscannedDomains : list string)
    (remaining i : nat) (m : Machine) :
  formsFound m = true →
  attemptLoop env unscannedDomains remaining i m = (Ok i, m).
Proof.
  intros Hff. destruct remaining; [done |].
  cbn [attemptLoop]. unfold bind, get. by rewrite Hff.
Qed.

(** The loop of [main] from index [i] on, whatever happens: it attempts the
    next [k] domains in order, for some [k] within the turns it is given,
    and ends normally or with the rejection of a state write. Either no
    write of a shard resolves, and then a loop that ends normally has used
    all its turns; or the last domain attempted yielded forms, which were
    appended to the target shard of the directory [dir] that the attempt
    found, in the one write of a shard of the loop that resolves. *)
Lemma attemptLoop_always (env : Env) (unscannedDomains : list string) (remaining : nat) :
  ∀ (i : nat) (m : Machine),
    i + remaining ≤ length unscannedDomains →
    formsFound m = false →
    ∃ r m' k,
      attemptLoop env unscannedDomains remaining i m = (r, m') ∧
      k ≤ remaining ∧
      (k = 0 → m' = m) ∧
      launches (trace m') = launches (trace m) ++ take k (drop i unscannedDomains) ∧
      (r = Ok (i + k) ∨ r = Throw (IOError "writeFile")) ∧
      (∀ x, x ∈ take k (drop i unscannedDomains) → x ∈ scanned (stats m')) ∧
      (∀ x, x ∈ scanned (stats m) → x ∈ scanned (stats m')) ∧
      (∀ x, x ∈ scanned (stats m') →
            x ∈ scanned (stats m) ∨ x ∈ take k (drop i unscannedDomains)) ∧
      (r = Ok (i + k) → 0 < k → statFile m' = StatDocument (stats m')) ∧
      (gentle m → gentle m') ∧
      ((resultWrites (trace m') = resultWrites (trace m) ∧
        formsFound m' = false ∧
        (gentle m → resultDir m' = resultDir m) ∧
        (r = Ok (i + k) → k = remaining))
       ∨
       (∃ forms target dir,
          0 < k ∧
          crawlResult env (nth (i + k - 1) unscannedDomains EmptyString) = Ok forms ∧
          forms ≠ [] ∧
          targetOf dir = Ok target ∧
          (gentle m → dir = resultDir m) ∧
          resultWrites (trace m')
            = resultWrites (trace m) ++ [(path target, data target ++ forms)] ∧
          formsFound m' = true)).
Proof.
  induction remaining as [| remaining IH]; intros i m Hlen Hff.
  - exists (Ok i), m, 0. cbn [attemptLoop ret]. rewrite Nat.add_0_r, take_0, app_nil_r.
    split_and!; auto; try (by intros ? ?%elem_of_nil); try (intros; lia);
      left; split_and!; auto.
  - cbn [attemptLoop]. unfold bind at 1, get. rewrite Hff.
    rewrite (drop_nth_cons i unscannedDomains) by lia.
    set (d := nth i unscannedDomains EmptyString).
    destruct (attempt_always env d m)
      as (r1 & m1 & Hrun & Hr1 & Hl1 & Hsc1 & Hst1 & Hg1 & Hw1).
    unfold bind. rewrite Hrun.
    assert (Hin1 : ∀ x, x ∈ scanned (stats m) ++ [d] → x ∈ scanned (stats m1)).
    { intros x Hx. destruct Hsc1 as [-> | ->]; [done |].
      apply elem_of_app in Hx as [Hx | ->%list_elem_of_singleton]; apply elem_of_app;
        [by left | right; left]. }
    assert (Hd1 : d ∈ scanned (stats m) ++ [d]).
    { apply elem_of_app. right. left. }
    assert (Hold1 : ∀ x, x ∈ scanned (stats m) → x ∈ scanned (stats m) ++ [d]).
    { intros x Hx. apply elem_of_app. by left. }
    assert (Hback1 : ∀ x, x ∈ scanned (stats m1) → x ∈ scanned (stats m) ∨ x = d).
    { intros x Hx. destruct Hsc1 as [Heq | Heq]; rewrite Heq in Hx;
        apply elem_of_app in Hx as [Hx | Hx]; auto; right.
      - by apply list_elem_of_singleton in Hx.
      - apply elem_of_cons in Hx as [-> | Hx]; [done |].
        by apply list_elem_of_singleton in Hx. }
    destruct Hr1 as [-> | ->].
    + destruct Hw1 as [(Hsame & Hff1 & Hdir1) | (forms & target & Hc & Hne & Ht & Hwr & Hff1)].
      * rewrite Hff in Hff1.
        destruct (IH (S i) m1) as (r & m' & k & Hloop & Hk & Hk0 & Hl & Hr & Hin & Hmono
                                   & Hback & Hst & Hg & Hw); [lia | done |].
        rewrite Hloop. exists r, m', (S k).
        replace (i + S k) with (S i + k) by lia.
        split_and!; [done | lia | lia | | done | | | | | |].
        -- rewrite Hl, Hl1, <- app_assoc. done.
        -- intros x [-> | Hx]%elem_of_cons; [| by apply Hin].
           by apply Hmono, Hin1.
        -- intros x Hx. by apply Hmono, Hin1, Hold1.
        -- intros x Hx. simpl take. rewrite elem_of_cons.
           destruct (Hback x Hx) as [Hx1 | Hx1]; [| tauto].
           destruct (Hback1 x Hx1); tauto.
        -- intros Hok _. destruct k as [| k]; [| apply Hst; [done | lia]].
           rewrite (Hk0 eq_refl). by apply Hst1.
        -- auto.
        -- rewrite Hsame in Hw.
           destruct Hw as [(Hw & Hf' & Hd' & Hfull)
                          | (forms & target & dir & Hk1 & Hc & Hne & Ht & Hdir & Hrest)].
           ++ left. split_and!; auto.
              intros Hgm. rewrite Hd' by auto. auto.
           ++ right. exists forms, target, dir.
              split_and!; [lia | done | done | done | | apply Hrest | apply Hrest].
              intros Hgm. rewrite Hdir by auto. auto.
      * rewrite (attemptLoop_found _ _ _ _ _ Hff1).
        exists (Ok (S i)), m1, 1.
        replace (i + 1) with (S i) by lia. simpl take.
        split_and!; try done; try lia.
        -- by left.
        -- intros x ->%list_elem_of_singleton. by apply Hin1.
        -- intros x Hx. by apply Hin1, Hold1.
        -- intros x Hx. rewrite list_elem_of_singleton. by apply Hback1.
        -- intros _ _. by apply Hst1.
        -- right. exists forms, target, (resultDir m).
           replace (S i - 1) with i by lia. split_and!; try done; lia.
    + exists (Throw (IOError "writeFile")), m1, 1.
      simpl take. split_and!; try done; try lia.
      * by right.
      * intros x ->%list_elem_of_singleton. by apply Hin1.
      * intros x Hx. by apply Hin1, Hold1.
      * intros x Hx. rewrite list_elem_of_singleton. by apply Hback1.
      * destruct Hw1 as [(Hsame & Hff1 & Hdir1) | (forms & target & Hc & Hne & Ht & Hwr & Hff1)].
        -- left. rewrite Hff in Hff1. by split_and!.
        -- right. exists forms, target, (resultDir m).
           replace (i + 1 - 1) with i by lia. split_and!; try done; lia.
Qed.




(** ** Run controller: what every run does *)

Lemma unscannedOf_elem (allDomains : list string) (st : ScanState) (d : string) :
  d ∈ unscannedOf allDomains st ↔ d ∈ allDomains ∧ d ∉ scanned st.
Proof.
  unfold unscannedOf. rewrite list_elem_of_filter, elem_of_list_to_set. tauto.
Qed.

(** A run, whatever its environment does. *)
Lemma main_always (env : Env) (m : Machine) :
  ∃ st r m' k,
    let unscannedDomains :=
      unscannedOf (fetchDomains (domainsText env) (wildcardsText env)) st in
    loadScannedDomains m = (Ok st, m) ∧
    main env m = (r, m') ∧
    k ≤ Nat.min (length unscannedDomains) MAX_DOMAIN_ATTEMPTS ∧
    launches (trace m') = launches (trace m) ++ take k unscannedDomains ∧
    ((∃ report, r = Ok report) ∨ r = Throw (IOError "mkdir")
     ∨ r = Throw (IOError "writeFile")) ∧
    ((∃ report, r = Ok report) → statFile m' = StatDocument (stats m')) ∧
    (∀ x, x ∈ take k unscannedDomains → x ∈ scanned (stats m')) ∧
    ((resultWrites (trace m') = resultWrites (trace m) ∧
      (gentle m → resultDir m' = resultDir m) ∧
      r ≠ Ok ReportFound ∧
      (∀ n, r = Ok (ReportNotFound n) →
            n = k ∧ k = Nat.min (length unscannedDomains) MAX_DOMAIN_ATTEMPTS))
     ∨
     (∃ forms target dir,
        0 < k ∧
        crawlResult env (nth (k - 1) unscannedDomains EmptyString) = Ok forms ∧
        forms ≠ [] ∧
        targetOf dir = Ok target ∧
        (gentle m → dir = resultDir m) ∧
        resultWrites (trace m')
          = resultWrites (trace m) ++ [(path target, data target ++ forms)] ∧
        (∀ report, r = Ok report → report = ReportFound))) ∧
    (r = Ok ReportReset → unscannedDomains = [] ∧ scanned (stats m') = []) ∧
    (∀ report, r = Ok report → report ≠ ReportReset →
       0 < k ∧
       ∀ x, x ∈ scanned (stats m') ↔ x ∈ scanned st ∨ x ∈ take k unscannedDomains).
Proof.
  destruct (loadScannedDomains_total m) as [st Hload]. exists st.
  unfold main, bind at 1, ensureDirectories.
  destruct (mkdirOk env) eqn:Hmk.
  2: { exists (Throw (IOError "mkdir")), m, 0. cbn. rewrite app_nil_r.
       split_and!; auto; try lia; try done;
         try (by intros [? [=]]); try (by intros ? ?%elem_of_nil);
         try (intros; discriminate); left; by split_and!. }
  cbn [ret]. unfold bind at 1. rewrite Hload. unfold bind at 1. cbn [modify].
  set (unscannedDomains := unscannedOf _ st).
  destruct (length unscannedDomains =? 0)%nat eqn:Hlen.
  - assert (unscannedDomains = []) as Hnil.
    { apply Nat.eqb_eq in Hlen. by destruct unscannedDomains. }
    unfold saveStats, saveScannedDomains, now, get, writeGate, emit, modify, bind, ret.
    run_writes;
      (eexists _, _, 0; split; [done |]; split; [reflexivity |]); cbn;
      unfold launches, resultWrites; rewrite ?omap_app; cbn;
      rewrite ?app_nil_r; split_and!; eauto; try lia; try done;
      try (by intros [? [=]]); try (by intros ? ?%elem_of_nil);
      try (intros; discriminate); try (by intros ? [= <-]);
      left; by split_and!.
  - unfold bind at 1. cbn [modify].
    destruct (attemptLoop_always env unscannedDomains
                (Nat.min (length unscannedDomains) MAX_DOMAIN_ATTEMPTS) 0
                (set_formsFound false (set_stats st m)))
      as (r & m' & k & Hloop & Hk & Hk0 & Hl & Hr & Hin & Hmono & Hback & Hst & Hg & Hw);
      [lia | done |].
    rewrite drop_0 in *. cbn in Hl, Hw, Hst, Hmono, Hback.
    unfold bind. rewrite Hloop.
    assert (0 < Nat.min (length unscannedDomains) MAX_DOMAIN_ATTEMPTS) as Hpos.
    { apply Nat.eqb_neq in Hlen. unfold MAX_DOMAIN_ATTEMPTS. lia. }
    assert (Hiff : ∀ x, x ∈ scanned (stats m') ↔ x ∈ scanned st ∨ x ∈ take k unscannedDomains).
    { intros x. split; [apply Hback |]. intros [Hx | Hx]; [by apply Hmono | by apply Hin]. }
    destruct Hw as [(Hsame & Hff & Hdir & Hfull)
                   | (forms & target & dir & Hk1 & Hc & Hne & Ht & Hdir & Hwr & Hff)].
    + destruct Hr as [-> | ->].
      * unfold get. rewrite Hff. cbn [ret].
        exists (Ok (ReportNotFound (0 + k))), m', k.
        specialize (Hfull eq_refl).
        split_and!; eauto; try lia; try done.
        -- intros _. apply Hst; [done | lia].
        -- left. split_and!; try done. by intros n [= <-].
        -- intros _ _ _. split; [lia | done].
      * exists (Throw (IOError "writeFile")), m', k.
        split_and!; eauto; try lia; try done; try (by intros [? [=]]);
          try (intros; discriminate); left; by split_and!.
    + destruct Hr as [-> | ->].
      * unfold get. rewrite Hff. cbn [ret].
        exists (Ok ReportFound), m', k.
        split_and!; eauto; try lia; try done.
        right. exists forms, target, dir. split_and!; try done. by intros ? [= <-].
      * exists (Throw (IOError "writeFile")), m', k.
        split_and!; eauto; try lia; try done; try (by intros [? [=]]);
          try (intros; discriminate); right; exists forms, target, dir; by split_and!.
Qed.

(** X1. In every run in which the load of [scanned.json] gives a scan state
    and which ends normally or with the rejection of [mkdir] or of a
    [writeFile] call, whichever calls reject, the domains crawled are the
    first [k] unscanned domains in collection order, with [k] at most 10;
    each of them is a collected domain that was not in [scanned] at the
    start and is in [scanned] in memory at the end; and at most one write of
    a shard resolves. *)
Theorem main_attempts_prefix (env : Env) (m m' : Machine) (st : ScanState)
    (r : Res Report) :
  loadScannedDomains m = (Ok st, m) →
  main env m = (r, m') →
  (∃ report, r = Ok report) ∨ r = Throw (IOError "mkdir")
    ∨ r = Throw (IOError "writeFile") →
  let unscannedDomains :=
    unscannedOf (fetchDomains (domainsText env) (wildcardsText env)) st in
  ∃ k,
    k ≤ MAX_DOMAIN_ATTEMPTS ∧
    k ≤ length unscannedDomains ∧
    launches (trace m') = launches (trace m) ++ take k unscannedDomains ∧
    (∀ d, d ∈ take k unscannedDomains →
          d ∈ fetchDomains (domainsText env) (wildcardsText env) ∧
          (d ∉ scanned st) ∧
          d ∈ scanned (stats m')) ∧
    (resultWrites (trace m') = resultWrites (trace m) ∨
     ∃ w, resultWrites (trace m') = resultWrites (trace m) ++ [w]).
Proof.
  intros Hload Hrun _.
  destruct (main_always env m)
    as (st' & r' & m1 & k & Hload' & Hrun' & Hk & Hl & _ & _ & Hin & Hw & _).
  rewrite Hload in Hload'. injection Hload' as <-.
  rewrite Hrun in Hrun'. injection Hrun' as <- <-.
  exists k. cbv zeta in *.
  split_and!; [lia | lia | done | |].
  - intros d Hd. pose proof (Hin d Hd) as Hsc.
    apply subseteq_take, unscannedOf_elem in Hd as [Hall Hnot]. done.
  - destruct Hw as [(-> & _) | (forms & target & dir & _ & _ & _ & _ & _ & -> & _)]; eauto.
Qed.

Lemma main_attempts_prefix_witness :
  ∃ k,
    k ≤ 3 ∧
    launches (trace (snd (main Examples.threeDomains
                            (Examples.machine Examples.dirOpen StatMissing [true; true]))))
    = take k ["a.com"; "b.com"; "c.com"].
Proof.
  destruct (main_attempts_prefix Examples.threeDomains
              (Examples.machine Examples.dirOpen StatMissing [true; true])
              (snd (main Examples.threeDomains
                      (Examples.machine Examples.dirOpen StatMissing [true; true])))
              defaultStats (Throw (IOError "writeFile")))
    as (k & _ & Hk & Hl & _).
  - reflexivity.
  - vm_compute. reflexivity.
  - right. right. reflexivity.
  - exists k. split; [exact Hk | exact Hl].
Defined.





(** X4. When a run reports that it attempted [n] domains and found no form,
    [n] is the attempt budget, the least of 10 and the number of unscanned
    domains; the run crawled exactly the first [n] unscanned domains and no
    write of a shard resolved; and when every write that rejects leaves its
    file as it was, the results directory is as it was before the run. *)
Theorem main_not_found_report (env : Env) (m m' : Machine) (st : ScanState) (n : nat) :
  loadScannedDomains m = (Ok st, m) →
  main env m = (Ok (ReportNotFound n), m') →
  let unscannedDomains :=
    unscannedOf (fetchDomains (domainsText env) (wildcardsText env)) st in
  n = Nat.min (length unscannedDomains) MAX_DOMAIN_ATTEMPTS ∧
  launches (trace m') = launches (trace m) ++ take n unscannedDomains ∧
  resultWrites (trace m') = resultWrites (trace m) ∧
  (gentle m → resultDir m' = resultDir m).
Proof.
  intros Hload Hrun.
  destruct (main_always env m) as (st' & r & m1 & k & Hload' & Hrun' & _ & Hl & _ & _ & _ & Hw & _).
  rewrite Hload in Hload'. injection Hload' as <-.
  rewrite Hrun in Hrun'. injection Hrun' as <- <-. cbv zeta in *.
  destruct Hw as [(Hsame & Hdir & _ & Hn)
                 | (forms & target & dir & _ & _ & _ & _ & _ & _ & Hrep)].
  - destruct (Hn n eq_refl) as [-> Hk]. by rewrite <- Hk.
  - discriminate (Hrep _ eq_refl).
Qed.

Lemma main_not_found_report_witness :
  launches (trace (snd (main Examples.noContext
                          (Examples.machine Examples.dirOpen StatMissing []))))
  = ["a.com"] ∧
  resultDir (snd (main Examples.noContext
                    (Examples.machine Examples.dirOpen StatMissing [])))
  = Examples.dirOpen.
Proof.
  destruct (main_not_found_report Examples.noContext
              (Examples.machine Examples.dirOpen StatMissing [])
              (snd (main Examples.noContext
                      (Examples.machine Examples.dirOpen StatMissing [])))
              defaultStats 1) as (_ & Hl & _ & Hdir).
  - reflexivity.
  - vm_compute. reflexivity.
  - split; [exact Hl | apply Hdir; constructor].
Defined.

(** X5. When a run reports that forms were found, it crawled the first [k]
    unscanned domains for some [k] from 1 to 10, the crawl of the [k]-th
    yielded forms, and the one write of a shard that resolved appended
    exactly these forms to the records of a target shard; when every write
    that rejects leaves its file as it was, that shard is the one selected
    in the results directory as it was at the start. *)
Theorem main_found_report (env : Env) (m m' : Machine) (st : ScanState) :
  loadScannedDomains m = (Ok st, m) →
  main env m = (Ok ReportFound, m') →
  let unscannedDomains :=
    unscannedOf (fetchDomains (domainsText env) (wildcardsText env)) st in
  ∃ k forms target dir,
    0 < k ∧ k ≤ MAX_DOMAIN_ATTEMPTS ∧ k ≤ length unscannedDomains ∧
    launches (trace m') = launches (trace m) ++ take k unscannedDomains ∧
    crawlResult env (nth (k - 1) unscannedDomains EmptyString) = Ok forms ∧
    forms ≠ [] ∧
    targetOf dir = Ok target ∧
    (gentle m → dir = resultDir m) ∧
    resultWrites (trace m')
      = resultWrites (trace m) ++ [(path target, data target ++ forms)].
Proof.
  intros Hload Hrun.
  destruct (main_always env m) as (st' & r & m1 & k & Hload' & Hrun' & Hk & Hl & _ & _ & _ & Hw & _).
  rewrite Hload in Hload'. injection Hload' as <-.
  rewrite Hrun in Hrun'. injection Hrun' as <- <-. cbv zeta in *.
  destruct Hw as [(_ & _ & Hnot & _)
                 | (forms & target & dir & Hk1 & Hc & Hne & Ht & Hdir & Hwr & _)].
  - done.
  - exists k, forms, target, dir. split_and!; try done; lia.
Qed.

Lemma main_found_report_witness :
  ∃ k forms target,
    0 < k ∧
    crawlResult Examples.threeDomains
      (nth (k - 1) ["a.com"; "b.com"; "c.com"] EmptyString) = Ok forms ∧
    targetOf Examples.dirOpen = Ok target ∧
    resultWrites (trace (snd (main Examples.threeDomains
                                (Examples.machine Examples.dirOpen StatMissing []))))
    = [(path target, data target ++ forms)].
Proof.
  destruct (main_found_report Examples.threeDomains
              (Examples.machine Examples.dirOpen StatMissing [])
              (snd (main Examples.threeDomains
                      (Examples.machine Examples.dirOpen StatMissing [])))
              defaultStats)
    as (k & forms & target & dir & Hk & _ & _ & _ & Hc & _ & Ht & Hdir & Hw).
  - reflexivity.
  - vm_compute. reflexivity.
  - rewrite (Hdir ltac:(constructor)) in Ht.
    exists k, forms, target. split_and!; [exact Hk | exact Hc | exact Ht | exact Hw].
Defined.

(** The target shard of X5 need not be the one selected at the start: the
    write of the forms of [a.com] to [forms.json] rejects when the file is
    closed, with the text stored, and the forms of [b.com] are then appended
    to what [forms.json] holds by then. *)
Example main_found_after_stored_write :
  let m := Examples.machineLeaving Examples.emptyDir StatMissing [true] [Stored] in
  let fa := extractFormData "https://a.com" Examples.loginForm in
  let fb := extractFormData "https://b.com" Examples.loginForm in
  targetOf (resultDir m) = Ok {| path := "forms.json"; data := [] |} ∧
  fst (main Examples.twoDomains m) = Ok ReportFound ∧
  launches (trace (snd (main Examples.twoDomains m))) = ["a.com"; "b.com"] ∧
  resultWrites (trace (snd (main Examples.twoDomains m))) = [("forms.json", [fa; fb])].
Proof. vm_compute. done. Qed.

(** ** Run controller: from one run to the next *)

Lemma fetchDomains_NoDup (domainsText wildcardsText : option string) :
  NoDup (fetchDomains domainsText wildcardsText).
Proof.
  unfold fetchDomains, addFeed.
  assert (NoDup (match domainsText with
                 | Some t => fold_left addDomainLine (split LF t) []
                 | None => []
                 end)) as Hd.
  { destruct domainsText; [| apply NoDup_nil_2].
    apply fold_lines_NoDup; [apply addDomainLine_NoDup | apply NoDup_nil_2]. }
  destruct wildcardsText; [| done].
  apply fold_lines_NoDup; [apply addWildcardLine_NoDup | done].
Qed.

Lemma filter_none (P : string → Prop) `{!∀ x, Decision (P x)} (l : list string) :
  (∀ x, x ∈ l → ¬ P x) → filter P l = [].
Proof.
  induction l as [| y l IH]; [done |]. intros Hall.
  rewrite filter_cons_False by (apply Hall; left).
  apply IH. intros x Hx. apply Hall. by right.
Qed.

Lemma filter_all (P : string → Prop) `{!∀ x, Decision (P x)} (l : list string) :
  (∀ x, x ∈ l → P x) → filter P l = l.
Proof.
  induction l as [| y l IH]; [done |]. intros Hall.
  rewrite filter_cons_True by (apply Hall; left). f_equal. apply IH.
  intros x Hx. apply Hall. by right.
Qed.

(** When the scanned domains of [st'] are those of [st] and the first [k]
    unscanned domains of [st], the unscanned domains of [st'] are the rest,
    in the same order. *)
Lemma unscannedOf_resume (allDomains : list string) (st st' : ScanState) (k : nat) :
  NoDup allDomains →
  (∀ x, x ∈ scanned st' ↔ x ∈ scanned st ∨ x ∈ take k (unscannedOf allDomains st)) →
  unscannedOf allDomains st' = drop k (unscannedOf allDomains st).
Proof.
  intros Hnd Hiff.
  set (uns := unscannedOf allDomains st) in *.
  assert (unscannedOf allDomains st' = filter (λ d, d ∉ take k uns) uns) as ->.
  { unfold uns, unscannedOf. rewrite list_filter_filter. apply list_filter_iff.
    intros x. rewrite !elem_of_list_to_set, Hiff. unfold uns, unscannedOf. tauto. }
  assert (NoDup uns) as Hnd' by (by apply NoDup_filter).
  rewrite <- (take_drop k uns) in Hnd' at 1.
  apply NoDup_app in Hnd' as (_ & Hdisj & _).
  trans (filter (λ d, d ∉ take k uns) (take k uns ++ drop k uns));
    [by rewrite take_drop |].
  rewrite filter_app, filter_none, filter_all; [done | |].
  - intros x Hx Hin. by apply (Hdisj x).
  - intros x Hx Hnot. by apply Hnot.
Qed.

(** X6. Forward progress: when a run that crawled ends normally, it crawled
    the first [k] unscanned domains for some [k] of at least 1, the next
    load of [scanned.json] gives the state the run has in memory, and for
    the same feeds the unscanned domains of that state are the unscanned
    domains of this run without the first [k], in the same order. *)
Theorem main_progress (env : Env) (m m' : Machine) (st : ScanState) (report : Report) :
  loadScannedDomains m = (Ok st, m) →
  main env m = (Ok report, m') →
  report ≠ ReportReset →
  let allDomains := fetchDomains (domainsText env) (wildcardsText env) in
  ∃ k,
    0 < k ∧
    launches (trace m') = launches (trace m) ++ take k (unscannedOf allDomains st) ∧
    loadScannedDomains m' = (Ok (stats m'), m') ∧
    unscannedOf allDomains (stats m') = drop k (unscannedOf allDomains st).
Proof.
  intros Hload Hrun Hrep allDomains.
  destruct (main_always env m)
    as (st' & r & m1 & k & Hload' & Hrun' & _ & Hl & _ & Hst & _ & _ & _ & Hprog).
  rewrite Hload in Hload'. injection Hload' as <-.
  rewrite Hrun in Hrun'. injection Hrun' as <- <-. cbv zeta in *.
  destruct (Hprog report eq_refl Hrep) as [Hk Hiff].
  exists k. split_and!; [done | done | |].
  - unfold loadScannedDomains, try_catch, bind, readStatFile.
    rewrite Hst by eauto. reflexivity.
  - apply unscannedOf_resume; [apply fetchDomains_NoDup | done].
Qed.

(** X7. A run reports a reset only when no collected domain was unscanned;
    it then crawled nothing, and for the state it saved every collected
    domain is unscanned again. *)
Theorem main_reset_restarts (env : Env) (m m' : Machine) (st : ScanState) :
  loadScannedDomains m = (Ok st, m) →
  main env m = (Ok ReportReset, m') →
  let allDomains := fetchDomains (domainsText env) (wildcardsText env) in
  unscannedOf allDomains st = [] ∧
  launches (trace m') = launches (trace m) ∧
  loadScannedDomains m' = (Ok (stats m'), m') ∧
  unscannedOf allDomains (stats m') = allDomains.
Proof.
  intros Hload Hrun allDomains.
  destruct (main_always env m)
    as (st' & r & m1 & k & Hload' & Hrun' & Hk & Hl & _ & Hst & _ & _ & Hreset & _).
  rewrite Hload in Hload'. injection Hload' as <-.
  rewrite Hrun in Hrun'. injection Hrun' as <- <-. cbv zeta in *.
  destruct (Hreset eq_refl) as [Hnil Hsc].
  subst allDomains. rewrite Hnil in Hl, Hk. simpl in Hk.
  rewrite take_nil, app_nil_r in Hl.
  split_and!; [done | done | |].
  - unfold loadScannedDomains, try_catch, bind, readStatFile.
    rewrite Hst by eauto. reflexivity.
  - unfold unscannedOf. rewrite Hsc. apply filter_all. intros x _. set_solver.
Qed.

Lemma main_progress_witness :
  unscannedOf (fetchDomains (domainsText Examples.threeDomains)
                 (wildcardsText Examples.threeDomains))
    (stats (snd (main Examples.threeDomains
                   (Examples.machine Examples.dirOpen StatMissing []))))
  = ["c.com"].
Proof.
  destruct (main_progress Examples.threeDomains
              (Examples.machine Examples.dirOpen StatMissing [])
              (snd (main Examples.threeDomains
                      (Examples.machine Examples.dirOpen StatMissing [])))
              defaultStats ReportFound) as (k & Hk & Hl & _ & Hrest).
  - reflexivity.
  - vm_compute. reflexivity.
  - discriminate.
  - rewrite Hrest.
    assert (k = 2) as ->.
    { apply (f_equal length) in Hl. vm_compute in Hl.
      destruct k as [| [| [| k]]]; simpl in Hl; try discriminate Hl; reflexivity. }
    vm_compute. reflexivity.
Defined.

Lemma main_reset_restarts_witness :
  unscannedOf (fetchDomains (domainsText Examples.threeDomains)
                 (wildcardsText Examples.threeDomains))
    (stats (snd (main Examples.threeDomains
                   (Examples.machine Examples.emptyDir
                      (StatDocument {| scanned := ["c.com"; "a.com"; "b.com"];
                                       lastUpdate := None |}) []))))
  = ["a.com"; "b.com"; "c.com"].
Proof.
  destruct (main_reset_restarts Examples.threeDomains
              (Examples.machine Examples.emptyDir
                 (StatDocument {| scanned := ["c.com"; "a.com"; "b.com"];
                                  lastUpdate := None |}) [])
              (snd (main Examples.threeDomains
                      (Examples.machine Examples.emptyDir
                         (StatDocument {| scanned := ["c.com"; "a.com"; "b.com"];
                                          lastUpdate := None |}) [])))
              {| scanned := ["c.com"; "a.com"; "b.com"]; lastUpdate := None |})
    as (_ & _ & _ & Hall).
  - reflexivity.
  - vm_compute. reflexivity.
  - rewrite Hall. vm_compute. reflexivity.
Defined.

(** ** Run controller: rejected state writes *)

(** X8. When the crawl of a domain resolves with no form, the state write
    of the [try] block rejects and the write of the handler succeeds, the
    attempt ends normally with the domain appended to [scanned] twice and
    the clock read twice; that state is what [scanned.json] holds. *)
Theorem attempt_retry_appends_twice (env : Env) (d : string) (m : Machine) :
  crawlResult env d = Ok [] →
  hd false (writeFaults m) = true →
  hd false (tl (writeFaults m)) = false →
  let doc := {| scanned := scanned (stats m) ++ [d; d];
                lastUpdate := Some (date env (S (ticks m))) |} in
  ∃ m',
    attempt env d m = (Ok tt, m') ∧
    stats m' = doc ∧
    statFile m' = StatDocument doc ∧
    stateWrites (trace m') = stateWrites (trace m) ++ [doc] ∧
    formsFound m' = formsFound m.
Proof.
  intros Hcrawl Hw1 Hw2 doc.
  destruct (crawlEvents_launches env d) as (_ & _ & Hs).
  unfold attempt, try_catch, bind. rewrite crawlDomain_run, Hcrawl.
  unfold markScanned, saveStats, saveScannedDomains, now, get, writeGate, emit,
    modify, bind, ret. cbn. rewrite Hw1. cbn.
  destruct (hd Untouched (writeDamage m)); cbn; rewrite Hw2; cbn;
    (eexists; split; [reflexivity |]); cbn;
    unfold stateWrites in *; rewrite !omap_app, Hs; cbn;
    rewrite <- !app_assoc; by split_and!.
Qed.

Lemma attempt_retry_appends_twice_witness :
  ∃ m',
    attempt Examples.threeDomains "a.com"
      (Examples.machine Examples.emptyDir StatMissing [true]) = (Ok tt, m') ∧
    statFile m' = StatDocument {| scanned := ["a.com"; "a.com"]; lastUpdate := Some "t1" |}.
Proof.
  destruct (attempt_retry_appends_twice Examples.threeDomains "a.com"
              (Examples.machine Examples.emptyDir StatMissing [true]))
    as (m' & Hrun & _ & Hfile & _).
  - vm_compute. reflexivity.
  - reflexivity.
  - reflexivity.
  - exists m'. split; [exact Hrun | exact Hfile].
Defined.




(** ** Result store: successive writes *)

Lemma lookupFile_None (name : string) (es : list (string * File)) :
  lookupFile name es = None ↔ name ∉ map fst es.
Proof.
  induction es as [| [n f] es IH]; simpl.
  - split; [intros _ []%elem_of_nil | done].
  - rewrite not_elem_of_cons. destruct (String.eqb_spec n name) as [-> | Hne].
    + split; [done | by intros [? _]].
    + rewrite IH. split; [by split | by intros [_ ?]].
Qed.

Lemma storeFile_fresh (name : string) (f : File) (es : list (string * File)) :
  lookupFile name es = None → storeFile name f es = es ++ [(name, f)].
Proof.
  induction es as [| [n g] es IH]; simpl; [done |].
  destruct (String.eqb n name); [done |]. intros H. by rewrite IH.
Qed.

Lemma formFilesOf_snoc (l : bool) (es : list (string * File)) (name : string) (f : File) :
  isFormFile name = true →
  formFilesOf {| listable := l; entries := es ++ [(name, f)] |}
  = formFilesOf {| listable := l; entries := es |} ++ [name].
Proof.
  intros Hff. unfold formFilesOf. cbn [entries].
  rewrite map_app, filter_app. cbn [map fst]. by rewrite filter_cons_True.
Qed.

Lemma formFilesOf_storeFile (l : bool) (es : list (string * File)) (name : string)
    (f : File) :
  is_Some (lookupFile name es) →
  formFilesOf {| listable := l; entries := storeFile name f es |}
  = formFilesOf {| listable := l; entries := es |}.
Proof.
  intros H. unfold formFilesOf. cbn [entries]. by rewrite storeFile_names.
Qed.

(** A file whose index is above all the others comes first after sorting. *)
Lemma first_sortDesc_snoc (l : list string) (x : string) :
  (∀ f, f ∈ l → Num_lt (indexOf f) (indexOf x)) →
  first (sortDesc (l ++ [x])) = x.
Proof.
  induction l as [| f l IH]; intros Hlt; [done |]. simpl.
  assert (first (sortDesc (l ++ [x])) = x) as Hx.
  { apply IH. intros g Hg. apply Hlt. by right. }
  destruct (sortDesc (l ++ [x])) as [| y rest] eqn:Hs.
  { pose proof (sortDesc_perm (l ++ [x])) as Hp. rewrite Hs in Hp.
    apply Permutation_nil_l in Hp. by destruct l. }
  simpl in Hx. subst y. simpl.
  assert (Num_lt (indexOf f) (indexOf x)) as Hf by (apply Hlt; left).
  unfold Num_lt in Hf. by rewrite Hf.
Qed.

(** [saveResults] when the selection gives a target and the write succeeds. *)
Lemma saveResults_run (env : Env) (forms : list FormRecord) (m : Machine)
    (target : Target) :
  targetOf (resultDir m) = Ok target →
  hd false (writeFaults m) = false →
  saveResults env forms m
  = (Ok tt,
     {| resultDir :=
          {| listable := listable (resultDir m);
             entries := storeFile (path target)
                          {| fsize := Some (byteLength env (data target ++ forms));
                             fbody := Records (data target ++ forms) |}
                          (entries (resultDir m)) |};
        statFile := statFile m;
        writeFaults := tl (writeFaults m);
        writeDamage := writeDamage m;
        ticks := ticks m;
        trace := trace m ++ [EvWriteResult (path target) (data target ++ forms)];
        stats := stats m;
        formsFound := formsFound m |}).
Proof.
  intros Htarget Hw. unfold saveResults, bind. rewrite getNextResultFile_pure, Htarget.
  unfold writeFile, writeGate, emit, modify, bind. rewrite Hw. reflexivity.
Qed.

Lemma targetOf_listable (d : Dir) :
  listable d = true →
  targetOf d =
    match formFilesOf d with
    | [] => Ok {| path := "forms.json"; data := [] |}
    | _ :: _ =>
        let top := first (sortDesc (formFilesOf d)) in
        match lookupFile top (entries d) with
        | Some {| fsize := Some size; fbody := body |} =>
            if (size <? MAX_FILE_SIZE)%N then
              match body with
              | Records forms => Ok {| path := top; data := forms |}
              | Garbage => Throw SyntaxError
              | Unreadable => Throw (IOError "readFile")
              end
            else Ok {| path := shardName (nextIndexOf top); data := [] |}
        | _ => Ok {| path := shardName (nextIndexOf top); data := [] |}
        end
    end.
Proof.
  intros Hl. unfold targetOf.
  rewrite (getNextResultFile_listable (set_resultDir d blank) Hl).
  cbn [resultDir set_resultDir]. cbv zeta.
  destruct (formFilesOf d) as [| f0 fs]; [done |].
  generalize (first (sortDesc (f0 :: fs))). intros top.
  destruct (lookupFile top (entries d)) as [[[size |] body] |]; try done.
  destruct (size <? MAX_FILE_SIZE)%N; [| done]. by destruct body.
Qed.

(** X10. Rotation. When the first shard after sorting is at or above the
    ceiling of 20 MiB, its index [n] is below [2^53] and the write succeeds,
    [saveResults] creates a file that was not in the directory, named
    [forms_<n+1>.json], holding exactly the new records; every existing file
    stays as it was. When the new file is below the ceiling, the next
    selection targets it with these records. *)
Theorem saveResults_rotates (env : Env) (forms : list FormRecord) (m : Machine)
    (size : N) (body : Body) (n : N) :
  let top := first (sortDesc (formFilesOf (resultDir m))) in
  let name := "forms_" +:+ decimal (n + 1) +:+ ".json" in
  let file := {| fsize := Some (byteLength env forms); fbody := Records forms |} in
  listable (resultDir m) = true →
  formFilesOf (resultDir m) ≠ [] →
  lookupFile top (entries (resultDir m)) = Some {| fsize := Some size; fbody := body |} →
  (MAX_FILE_SIZE ≤ size)%N →
  indexOf top = Fin n →
  (n < 2 ^ 53)%N →
  hd false (writeFaults m) = false →
  ∃ m',
    saveResults env forms m = (Ok tt, m') ∧
    (name ∉ map fst (entries (resultDir m))) ∧
    entries (resultDir m') = entries (resultDir m) ++ [(name, file)] ∧
    ((byteLength env forms < MAX_FILE_SIZE)%N →
       getNextResultFile m' = (Ok {| path := name; data := forms |}, m')).
Proof.
  intros top name file Hl Hne Hlk Hsize Hidx Hn Hw. change (2 ^ 53)%N with EXACT in Hn.
  assert (name = shardName (Fin (n + 1))) as Hname.
  { unfold name. rewrite shardName_exact by lia. done. }
  pose proof (shardName_fresh (resultDir m) n Hne Hidx Hn) as Hfresh.
  rewrite <- Hname in Hfresh.
  assert (targetOf (resultDir m) = Ok {| path := name; data := [] |}) as Htarget.
  { rewrite (targetOf_listable _ Hl). cbv zeta. fold top.
    destruct (formFilesOf (resultDir m)); [done |].
    rewrite Hlk. apply N.ltb_ge in Hsize.
    rewrite Hsize, nextIndexOf_indexOf, Hidx, add1_exact, Hname by lia. done. }
  rewrite (saveResults_run env forms m _ Htarget Hw). cbn [path data app].
  eexists. split; [reflexivity |]. cbn [resultDir entries].
  assert (lookupFile name (entries (resultDir m)) = None) as Hnone by by apply lookupFile_None.
  rewrite (storeFile_fresh _ _ _ Hnone).
  split_and!; [done | done |].
  assert (shardPattern name) as Hpat by (rewrite Hname; apply shardName_pattern; lia).
  intros Hsmall. rewrite getNextResultFile_pure. f_equal. cbn [resultDir].
  rewrite targetOf_listable by done. cbv zeta.
  rewrite formFilesOf_snoc by by apply shardPattern_isFormFile.
  replace {| listable := listable (resultDir m); entries := entries (resultDir m) |}
    with (resultDir m) by by destruct (resultDir m).
  assert (first (sortDesc (formFilesOf (resultDir m) ++ [name])) = name) as Hfirst.
  { apply first_sortDesc_snoc. intros f Hf.
    destruct (first_sortDesc _ Hne) as [_ Hmax]. apply Hmax in Hf.
    eapply Num_le_lt_trans; [exact Hf |]. fold top.
    rewrite Hname, indexOf_shardName, Hidx by lia.
    unfold Num_lt, ltb. apply N.ltb_lt. lia. }
  rewrite Hfirst.
  destruct (formFilesOf (resultDir m) ++ [name]) eqn:Happ.
  { by destruct (formFilesOf (resultDir m)). }
  cbn [entries]. fold file.
  assert (lookupFile name (entries (resultDir m) ++ [(name, file)]) = Some file) as ->.
  { rewrite <- (storeFile_fresh _ file _ Hnone). apply lookupFile_storeFile_eq. }
  unfold file. apply N.ltb_lt in Hsmall. by rewrite Hsmall.
Qed.

Lemma saveResults_rotates_witness :
  ∃ m',
    saveResults Examples.offline [Examples.aRecord]
      (Examples.machine Examples.dirFull StatMissing []) = (Ok tt, m') ∧
    map fst (entries (resultDir m')) = ["forms.json"; "notes.txt"; "forms_1.json"; "forms_2.json"] ∧
    getNextResultFile m' = (Ok {| path := "forms_2.json"; data := [Examples.aRecord] |}, m').
Proof.
  destruct (saveResults_rotates Examples.offline [Examples.aRecord]
              (Examples.machine Examples.dirFull StatMissing [])
              MAX_FILE_SIZE (Records [Examples.aRecord; Examples.aRecord]) 1%N)
    as (m' & Hrun & _ & Hentries & Hnext).
  - reflexivity.
  - intros Hc. vm_compute in Hc. discriminate Hc.
  - reflexivity.
  - reflexivity.
  - reflexivity.
  - reflexivity.
  - reflexivity.
  - exists m'. split_and!; [exact Hrun | by rewrite Hentries | apply Hnext; reflexivity].
Defined.

(** X11. Two appends compose. On a results directory that can be listed,
    when the first shard after sorting is below the ceiling before and after
    the first append and both writes succeed, appending [forms1] and then
    [forms2] leaves the shard with its old records followed by [forms1] and
    then [forms2], changes no other file and creates none. *)
Theorem saveResults_twice (env : Env) (forms1 forms2 old : list FormRecord) (size : N)
    (m : Machine) :
  let top := first (sortDesc (formFilesOf (resultDir m))) in
  listable (resultDir m) = true →
  formFilesOf (resultDir m) ≠ [] →
  lookupFile top (entries (resultDir m))
    = Some {| fsize := Some size; fbody := Records old |} →
  (size < MAX_FILE_SIZE)%N →
  (byteLength env (old ++ forms1) < MAX_FILE_SIZE)%N →
  hd false (writeFaults m) = false →
  hd false (tl (writeFaults m)) = false →
  ∃ m1 m2,
    saveResults env forms1 m = (Ok tt, m1) ∧
    saveResults env forms2 m1 = (Ok tt, m2) ∧
    lookupFile top (entries (resultDir m2))
      = Some {| fsize := Some (byteLength env (old ++ forms1 ++ forms2));
                fbody := Records (old ++ forms1 ++ forms2) |} ∧
    (∀ other, other ≠ top →
       lookupFile other (entries (resultDir m2))
         = lookupFile other (entries (resultDir m))) ∧
    map fst (entries (resultDir m2)) = map fst (entries (resultDir m)).
Proof.
  intros top Hl Hne Hlk Hsize Hsize1 Hw1 Hw2.
  assert (targetOf (resultDir m) = Ok {| path := top; data := old |}) as Htarget.
  { rewrite (targetOf_listable _ Hl). cbv zeta. fold top.
    destruct (formFilesOf (resultDir m)); [done |].
    rewrite Hlk. apply N.ltb_lt in Hsize. by rewrite Hsize. }
  rewrite (saveResults_run env forms1 m _ Htarget Hw1). cbn [path data].
  eexists _, _. split; [reflexivity |].
  assert (is_Some (lookupFile top (entries (resultDir m)))) as Hsome by by rewrite Hlk.
  match goal with |- saveResults _ _ ?x = _ ∧ _ => set (m1 := x) end.
  assert (targetOf (resultDir m1) = Ok {| path := top; data := old ++ forms1 |}) as Htarget1.
  { subst m1. cbn [resultDir]. rewrite targetOf_listable by done. cbv zeta.
    rewrite formFilesOf_storeFile by done.
    replace {| listable := listable (resultDir m); entries := entries (resultDir m) |}
      with (resultDir m) by by destruct (resultDir m).
    fold top. destruct (formFilesOf (resultDir m)); [done |].
    cbn [entries]. rewrite lookupFile_storeFile_eq.
    apply N.ltb_lt in Hsize1. by rewrite Hsize1. }
  rewrite (saveResults_run env forms2 m1 _ Htarget1 Hw2). cbn [path data].
  split; [reflexivity |]. subst m1. cbn [resultDir entries].
  rewrite <- !app_assoc. split_and!.
  - apply lookupFile_storeFile_eq.
  - intros other Hother. by rewrite !lookupFile_storeFile_ne.
  - rewrite !storeFile_names; [done | done |].
    by rewrite lookupFile_storeFile_eq.
Qed.

Lemma saveResults_twice_witness :
  ∃ m1 m2,
    saveResults Examples.offline [Examples.aRecord] 
      (Examples.machine Examples.dirOpen StatMissing []) = (Ok tt, m1) ∧
    saveResults Examples.offline [Examples.aRecord; Examples.aRecord] m1 = (Ok tt, m2) ∧
    lookupFile "forms_1.json" (entries (resultDir m2))
    = Some {| fsize := Some 400%N;
              fbody := Records [Examples.aRecord; Examples.aRecord; Examples.aRecord;
                                Examples.aRecord] |}.
Proof.
  destruct (saveResults_twice Examples.offline [Examples.aRecord]
              [Examples.aRecord; Examples.aRecord] [Examples.aRecord] 100%N
              (Examples.machine Examples.dirOpen StatMissing []))
    as (m1 & m2 & Hrun1 & Hrun2 & Hfile & _); try reflexivity.
  - intros Hc. vm_compute in Hc. discriminate Hc.
  - exists m1, m2. split_and!; [exact Hrun1 | exact Hrun2 | exact Hfile].
Defined.

(** X12. A target shard below the ceiling that cannot be read or parsed
    blocks the append: [saveResults] rejects with the error of [readFile] or
    of [JSON.parse], no write is attempted and nothing changes; no new shard
    is allocated. *)
Theorem saveResults_blocked (env : Env) (forms : list FormRecord) (m : Machine)
    (size : N) (body : Body) :
  let top := first (sortDesc (formFilesOf (resultDir m))) in
  listable (resultDir m) = true →
  formFilesOf (resultDir m) ≠ [] →
  lookupFile top (entries (resultDir m)) = Some {| fsize := Some size; fbody := body |} →
  (size < MAX_FILE_SIZE)%N →
  body = Garbage ∨ body = Unreadable →
  saveResults env forms m
  = (Throw (match body with Garbage => SyntaxError | _ => IOError "readFile" end), m).
Proof.
  intros top Hl Hne Hlk Hsize Hbody.
  unfold saveResults, bind. rewrite getNextResultFile_pure.
  rewrite (targetOf_listable _ Hl). cbv zeta. fold top.
  destruct (formFilesOf (resultDir m)); [done |].
  rewrite Hlk. apply N.ltb_lt in Hsize. rewrite Hsize.
  by destruct Hbody as [-> | ->].
Qed.

(** X13. The first save. On a directory that can be listed and has no file
    that starts with [forms] and ends with [.json], a write that succeeds
    creates [forms.json] with exactly the new records and leaves every other
    file as it was; when the new file is below the ceiling the next
    selection targets it with these records. *)
Theorem saveResults_first (env : Env) (forms : list FormRecord) (m : Machine) :
  let file := {| fsize := Some (byteLength env forms); fbody := Records forms |} in
  listable (resultDir m) = true →
  formFilesOf (resultDir m) = [] →
  hd false (writeFaults m) = false →
  ∃ m',
    saveResults env forms m = (Ok tt, m') ∧
    entries (resultDir m') = entries (resultDir m) ++ [("forms.json", file)] ∧
    ((byteLength env forms < MAX_FILE_SIZE)%N →
       getNextResultFile m' = (Ok {| path := "forms.json"; data := forms |}, m')).
Proof.
  intros file Hl Hnil Hw.
  assert (targetOf (resultDir m) = Ok {| path := "forms.json"; data := [] |}) as Htarget.
  { rewrite (targetOf_listable _ Hl). by rewrite Hnil. }
  rewrite (saveResults_run env forms m _ Htarget Hw). cbn [path data app].
  eexists. split; [reflexivity |]. cbn [resultDir entries].
  assert (lookupFile "forms.json" (entries (resultDir m)) = None) as Hnone.
  { apply lookupFile_None. intros Hin.
    assert ("forms.json" ∈ formFilesOf (resultDir m)) as Hff.
    { unfold formFilesOf. by apply list_elem_of_filter. }
    rewrite Hnil in Hff. by apply elem_of_nil in Hff. }
  rewrite (storeFile_fresh _ _ _ Hnone). split; [done |].
  intros Hsmall. rewrite getNextResultFile_pure. f_equal. cbn [resultDir].
  rewrite targetOf_listable by done. cbv zeta.
  rewrite formFilesOf_snoc by done.
  replace {| listable := listable (resultDir m); entries := entries (resultDir m) |}
    with (resultDir m) by by destruct (resultDir m).
  rewrite Hnil. cbn [app sortDesc foldr insertDesc first hd entries]. fold file.
  assert (lookupFile "forms.json" (entries (resultDir m) ++ [("forms.json", file)])
          = Some file) as ->.
  { rewrite <- (storeFile_fresh _ file _ Hnone). apply lookupFile_storeFile_eq. }
  unfold file. apply N.ltb_lt in Hsmall. by rewrite Hsmall.
Qed.

Lemma saveResults_first_witness :
  ∃ m',
    saveResults Examples.offline [Examples.aRecord]
      (Examples.machine Examples.emptyDir StatMissing []) = (Ok tt, m') ∧
    getNextResultFile m' = (Ok {| path := "forms.json"; data := [Examples.aRecord] |}, m').
Proof.
  destruct (saveResults_first Examples.offline [Examples.aRecord]
              (Examples.machine Examples.emptyDir StatMissing []))
    as (m' & Hrun & _ & Hnext); try reflexivity.
  exists m'. split; [exact Hrun | apply Hnext; reflexivity].
Defined.

Lemma saveResults_blocked_witness :
  saveResults Examples.offline [Examples.aRecord]
    (Examples.machine Examples.dirCorrupt StatMissing [])
  = (Throw SyntaxError, Examples.machine Examples.dirCorrupt StatMissing []).
Proof.
  apply (saveResults_blocked Examples.offline [Examples.aRecord]
           (Examples.machine Examples.dirCorrupt StatMissing []) 100%N Garbage).
  - reflexivity.
  - intros Hc. vm_compute in Hc. discriminate Hc.
  - reflexivity.
  - reflexivity.
  - by left.
Defined.

(** ** Frontier crawler: where the records come from *)

Lemma elem_of_linksOf (base : string) (anchors : list Anchor) (u : string) :
  u ∈ linksOf base anchors ↔ ∃ a, a ∈ anchors ∧ sameSite base a = true ∧ href a = u.
Proof.
  unfold linksOf. rewrite list_elem_of_fmap. split.
  - intros (a & -> & [Hs Ha]%list_elem_of_filter). eauto.
  - intros (a & Ha & Hs & <-). exists a. split; [done |]. by apply list_elem_of_filter.
Qed.

Lemma elem_of_enqueue (v : gset string) (links q : list string) (u : string) :
  u ∈ enqueue v links q → u ∈ q ∨ u ∈ links.
Proof.
  destruct (enqueue_spec v links q) as (added & -> & Hsub & _).
  intros [? | Hu]%elem_of_app; [by left | right].
  by eapply sublist_subseteq.
Qed.

Lemma linkedFrom_mono (env : Env) (domain : string) (vis vis' : gset string) (u : string) :
  (∀ x, x ∈ vis → x ∈ vis') →
  linkedFrom env domain vis u → linkedFrom env domain vis' u.
Proof.
  intros Hsub (v & page & pageForms & anchors & Hv & Hrest).
  exists v, page, pageForms, anchors. split; [by apply Hsub | done].
Qed.

Lemma reachable_grounded (env : Env) (domain : string) (st : Frontier) :
  reachable env domain st → grounded env domain st.
Proof.
  induction 1 as [| st st' _ (Hurl & Hforms & Hall) Hstep].
  - split_and!.
    + rewrite seed_toVisit. intros u [Hu | Hu]; [by left |].
      cbn in Hu. by apply not_elem_of_empty in Hu.
    + intros f Hf. cbn in Hf. by apply elem_of_nil in Hf.
    + intros u page pageForms form Hu. cbn in Hu. by apply not_elem_of_empty in Hu.
  - unfold step in Hstep.
    destruct (toVisit st) as [| url rest] eqn:Hq; [done |].
    destruct (size (visited st) <? 50)%nat; [| done].
    assert (Hgrow : ∀ x, x ∈ visited st → x ∈ ({[url]} ∪ visited st : gset string)).
    { intros x Hx. apply elem_of_union. by right. }
    assert (Hnow : url ∈ ({[url]} ∪ visited st : gset string)).
    { apply elem_of_union. left. by apply elem_of_singleton. }
    assert (Hrest : ∀ u, u ∈ rest ∨ u ∈ ({[url]} ∪ visited st : gset string) →
                         u ∈ seedsOf domain ∨
                         linkedFrom env domain ({[url]} ∪ visited st) u).
    { intros u Hu.
      assert (u ∈ seedsOf domain ∨ linkedFrom env domain (visited st) u) as [? | Hlink].
      { destruct Hu as [Hu | [->%elem_of_singleton | Hu]%elem_of_union].
        - apply Hurl. left. by right.
        - apply Hurl. left. left.
        - apply Hurl. by right. }
      - by left.
      - right. by eapply linkedFrom_mono. }
    assert (Hkeep : ∀ f, f ∈ forms st →
                         form_url f ∈ ({[url]} ∪ visited st : gset string) ∧
                         extractedFrom env domain f).
    { intros f Hf. destruct (Hforms f Hf). split; [by apply Hgrow | done]. }
    case_bool_decide as Hv.
    { injection Hstep as <-. split_and!; cbn.
      - intros u [Hu | Hu]; apply Hurl; [left; by right | by right].
      - done.
      - done. }
    destruct (goto env domain url) as [page |] eqn:Hgoto.
    2: { injection Hstep as <-. split_and!; cbn; [done | done |].
         intros u p pf form [->%elem_of_singleton | Hu]%elem_of_union Hg; [congruence |].
         by eapply Hall. }
    destruct (page_forms page) as [pageForms |] eqn:Hpf.
    2: { injection Hstep as <-. split_and!; cbn; [done | done |].
         intros u p pf form [->%elem_of_singleton | Hu]%elem_of_union Hg Hp;
           [congruence | by eapply Hall]. }
    assert (Hnew : ∀ f, f ∈ forms st ++ map (extractFormData url) pageForms →
                        form_url f ∈ ({[url]} ∪ visited st : gset string) ∧
                        extractedFrom env domain f).
    { intros f [Hf | Hf]%elem_of_app; [by apply Hkeep |].
      apply list_elem_of_fmap in Hf as (form & -> & Hform). cbn. split; [done |].
      exists page, pageForms, form. by split_and!. }
    assert (Hcomplete : ∀ u p pf form,
              u ∈ ({[url]} ∪ visited st : gset string) → goto env domain u = Some p →
              page_forms p = Some pf → form ∈ pf →
              extractFormData u form ∈ forms st ++ map (extractFormData url) pageForms).
    { intros u p pf form [->%elem_of_singleton | Hu]%elem_of_union Hg Hp Hform;
        apply elem_of_app.
      - right. rewrite Hgoto in Hg. injection Hg as <-. rewrite Hpf in Hp.
        injection Hp as <-. apply list_elem_of_fmap. eauto.
      - left. by eapply Hall. }
    destruct (page_anchors page) as [anchors |] eqn:Hanchors.
    2: { injection Hstep as <-. by split_and!. }
    injection Hstep as <-. split_and!; cbn; [| done | done].
    intros u [Hu | Hu]; [| apply Hrest; by right].
    apply elem_of_enqueue in Hu as [Hu | Hu]; [apply Hrest; by left |].
    right. exists url, page, pageForms, anchors. by split_and!.
Qed.

Lemma step_None (env : Env) (domain base : string) (st : Frontier) :
  step env domain base st = None → toVisit st = [] ∨ 50 ≤ size (visited st).
Proof.
  unfold step. destruct (toVisit st) as [| url rest]; [by left |].
  destruct (Nat.ltb_spec (size (visited st)) 50) as [Hlt | Hge]; [| by right].
  case_bool_decide; [done |].
  destruct (goto env domain url) as [page |]; [| done].
  destruct (page_forms page); [| done]. by destruct (page_anchors page).
Qed.

Lemma reachable_seedsFirst (env : Env) (domain : string) (st : Frontier) :
  reachable env domain st → seedsFirst domain st.
Proof.
  induction 1 as [| st st' _ (n & rest & Hn & Hq & Hvis & Hsize) Hstep].
  - exists 0, []. rewrite seed_toVisit. cbn. rewrite size_empty.
    split_and!; [lia | done | by intros ? ?%elem_of_nil | lia].
  - apply step_spec in Hstep as (url & rest0 & Hq0 & Hlt & Hcase).
    rewrite Hq in Hq0.
    assert (Hgrow : ∀ u, u ∈ visited st → u ∈ visited st').
    { intros u Hu. destruct Hcase as [[_ ->] | (_ & -> & _)]; [done | set_solver]. }
    destruct (decide (n = 3)) as [-> | Hn3].
    + exists 3, (toVisit st'). split_and!; [lia | done | | lia].
      intros u Hu. by apply Hgrow, Hvis.
    + assert (∃ rest1, toVisit st' = rest0 ++ rest1 ∧ url ∈ visited st' ∧
                       size (visited st') ≤ S (size (visited st))) as (rest1 & Hq' & Hu' & Hs').
      { destruct Hcase as [[Hin ->] | (Hnot & Hvis' & links & Hq' & _)].
        - exists []. cbn. rewrite app_nil_r. split_and!; [done | done | lia].
        - destruct (enqueue_spec (visited st') (take 10 links) rest0) as (added & Hadd & _).
          exists added. rewrite Hq', Hadd, Hvis', size_visit by done.
          split_and!; [done | set_solver | lia]. }
      exists (S n), (rest ++ rest1).
      assert (drop n (seedsOf domain) = url :: drop (S n) (seedsOf domain) ∧
              take (S n) (seedsOf domain) = take n (seedsOf domain) ++ [url] ∧
              rest0 = drop (S n) (seedsOf domain) ++ rest) as (Hd & Ht & Hr0).
      { destruct n as [| [| [| n]]]; [| | | lia]; cbn in Hq0 |- *;
          injection Hq0 as <- <-; done. }
      split_and!; [lia | | | lia].
      * by rewrite Hq', Hr0, app_assoc.
      * intros u. rewrite Ht. intros [Hu | ->%list_elem_of_singleton]%elem_of_app; [| done].
        by apply Hgrow, Hvis.
Qed.

Lemma crawlResult_Ok (env : Env) (domain : string) (fs : list FormRecord) :
  crawlResult env domain = Ok fs → fs = forms (crawlFinal env domain).
Proof.
  unfold crawlResult, crawlFinal, crawlDomain, bind, emit, modify, renderer, ret, throw.
  destruct (launchOk env domain), (newContextOk env domain), (newPageOk env domain),
    (closeOk env domain); cbn; congruence.
Qed.

Lemma crawlFinal_reachable (env : Env) (domain : string) :
  reachable env domain (crawlFinal env domain).
Proof. apply visitLoop_reachable, reach_seed. Qed.

(** X14. Every record that a crawl returns is the record of a form of a
    page that the crawl visited and that loaded, named by [url]; and that
    page is one of the three seed URLs or one of the first ten links that
    passed the same-site filter on a page that the crawl visited. *)
Theorem crawl_records_grounded (env : Env) (domain : string) (fs : list FormRecord) :
  crawlResult env domain = Ok fs →
  ∀ f, f ∈ fs →
    form_url f ∈ visited (crawlFinal env domain) ∧
    (form_url f ∈ seedsOf domain ∨
     linkedFrom env domain (visited (crawlFinal env domain)) (form_url f)) ∧
    extractedFrom env domain f.
Proof.
  intros ->%crawlResult_Ok f Hf.
  destruct (reachable_grounded env domain _ (crawlFinal_reachable env domain))
    as (Hurl & Hforms & _).
  destruct (Hforms f Hf) as [Hv He]. split_and!; [done | | done]. apply Hurl. by right.
Qed.

(** X15. A crawl that returns visits the three seed URLs, and returns the
    record of every form of every page it visited that loaded and whose
    forms could be read; so every form of a seed page that loads is in the
    result. *)
Theorem crawl_visits_seeds (env : Env) (domain : string) (fs : list FormRecord) :
  crawlResult env domain = Ok fs →
  (∀ u, u ∈ seedsOf domain → u ∈ visited (crawlFinal env domain)) ∧
  (∀ u page pageForms form,
     u ∈ visited (crawlFinal env domain) →
     goto env domain u = Some page →
     page_forms page = Some pageForms →
     form ∈ pageForms →
     extractFormData u form ∈ fs) ∧
  (∀ u page pageForms form,
     u ∈ seedsOf domain →
     goto env domain u = Some page →
     page_forms page = Some pageForms →
     form ∈ pageForms →
     extractFormData u form ∈ fs).
Proof.
  intros ->%crawlResult_Ok.
  pose proof (crawlFinal_reachable env domain) as Hreach.
  destruct (reachable_grounded env domain _ Hreach) as (_ & _ & Hall).
  destruct (reachable_seedsFirst env domain _ Hreach) as (n & rest & Hn & Hq & Hvis & Hsize).
  assert (n = 3) as ->.
  { destruct (decide (n = 3)) as [| Hn3]; [done | exfalso].
    pose proof (visitLoop_stops env domain (baseDomainOf domain)
                  (turnsLeft (seed domain)) (seed domain) (le_n _)) as Hstop.
    fold (crawlFinal env domain) in Hstop.
    apply step_None in Hstop as [Hnil | Hfull].
    - rewrite Hq in Hnil. destruct n as [| [| [| n]]]; [| | | lia]; discriminate Hnil.
    - specialize (Hsize ltac:(lia)). lia. }
  assert (Hseeds : ∀ u, u ∈ seedsOf domain → u ∈ visited (crawlFinal env domain)).
  { intros u Hu. by apply Hvis. }
  split_and!; [done | done |].
  intros u page pageForms form Hu. apply Hall. by apply Hseeds.
Qed.

Lemma crawl_records_grounded_witness :
  let f := extractFormData "https://b.com/login" Examples.loginForm in
  let vis := visited (crawlFinal Examples.linkedSite "b.com") in
  form_url f ∈ vis ∧
  (form_url f ∈ seedsOf "b.com" ∨ linkedFrom Examples.linkedSite "b.com" vis (form_url f)) ∧
  extractedFrom Examples.linkedSite "b.com" f.
Proof.
  apply (crawl_records_grounded Examples.linkedSite "b.com"
           [extractFormData "https://b.com" Examples.loginForm;
            extractFormData "https://b.com/login" Examples.loginForm]).
  - vm_compute. reflexivity.
  - right. left.
Defined.

Lemma crawl_visits_seeds_witness :
  extractFormData "https://b.com" Examples.loginForm
  ∈ [extractFormData "https://b.com" Examples.loginForm;
     extractFormData "https://b.com/login" Examples.loginForm].
Proof.
  destruct (crawl_visits_seeds Examples.linkedSite "b.com"
              [extractFormData "https://b.com" Examples.loginForm;
               extractFormData "https://b.com/login" Examples.loginForm])
    as (_ & _ & Hseed).
  - vm_compute. reflexivity.
  - apply (Hseed "https://b.com"
             {| page_forms := Some [Examples.loginForm];
                page_anchors :=
                  Some [ {| href := "https://b.com/login"; hostname := Some "www.b.com" |};
                         {| href := "https://notb.com/"; hostname := Some "notb.com" |} ] |}
             [Examples.loginForm] Examples.loginForm).
    + left.
    + reflexivity.
    + reflexivity.
    + left.
Defined.

(** ** Frontier crawler: the same-site filter *)

Lemma endsWith_iff (s p : string) : endsWith s p = true ↔ ∃ pre, s = pre +:+ p.
Proof.
  split.
  - induction s as [| c s IH]; cbn [endsWith].
    + rewrite orb_false_r. intros ->%String.eqb_eq. by exists "".
    + intros [->%String.eqb_eq | H]%orb_true_iff; [by exists "" |].
      destruct (IH H) as [pre ->]. by exists (String c pre).
  - intros [pre ->]. apply endsWith_app.
Qed.

Lemma append_assoc3 (a b c : string) : (a +:+ b) +:+ c = a +:+ b +:+ c.
Proof.
  induction a as [| x a IH]; [done |].
  change (String x ((a +:+ b) +:+ c) = String x (a +:+ b +:+ c)). by f_equal.
Qed.

(** X16. The filter for a base domain keeps every link that the filter for
    one of its subdomains keeps: a link that passes for [sub.parent] passes
    for [parent]. *)
Theorem sameSite_parent (parent sub : string) (a : Anchor) :
  sameSite (sub +:+ "." +:+ parent) a = true →
  sameSite parent a = true.
Proof.
  unfold sameSite. destruct (hostname a) as [h |]; [| done].
  rewrite !orb_true_iff, !String.eqb_eq, !endsWith_iff.
  intros [-> | [pre ->]]; right.
  - by exists sub.
  - exists (pre +:+ "." +:+ sub). by rewrite !append_assoc3.
Qed.

Lemma sameSite_parent_witness :
  sameSite "b.com" {| href := "https://x.shop.b.com/"; hostname := Some "x.shop.b.com" |}
  = true.
Proof. apply (sameSite_parent "b.com" "shop"). reflexivity. Defined.

(** X17. For a domain given without a scheme, the links to the domain
    itself and to its [www.] host pass the same-site filter of its crawl,
    whether or not the domain itself starts with [www.]. *)
Theorem sameSite_own_hosts (domain : string) (a : Anchor) :
  stripPrefix "https://" domain = None →
  stripPrefix "http://" domain = None →
  hostname a = Some domain ∨ hostname a = Some ("www." +:+ domain) →
  sameSite (baseDomainOf domain) a = true.
Proof.
  intros Hs Hp Hhost.
  assert (baseDomainOf domain = dropPrefix "www." domain) as ->.
  { unfold baseDomainOf. rewrite Hs. f_equal. unfold dropPrefix. by rewrite Hp. }
  unfold sameSite.
  destruct Hhost as [-> | ->]; rewrite orb_true_iff, String.eqb_eq, endsWith_iff.
  - by left.
  - unfold dropPrefix at 1. rewrite stripPrefix_app.
    unfold dropPrefix. destruct (stripPrefix "www." domain) as [r |] eqn:Hr; [| by left].
    right. exists "www". apply stripPrefix_Some in Hr. by rewrite Hr.
Qed.

Lemma sameSite_own_hosts_witness :
  sameSite (baseDomainOf "www.b.com") {| href := "https://b.com/x"; hostname := Some "www.www.b.com" |}
  = true.
Proof.
  apply sameSite_own_hosts; [reflexivity | reflexivity |]. by right.
Defined.

(** ** The record of a form *)

(** X18. The record of a form carries the URL of the page, a method that is
    never empty ([get] when the form has none), and one field per control,
    in the order of the controls; the type of a field is never empty (the
    tag name stands in for a missing type), and a field has options exactly
    when its control is a [select]. *)
Theorem extractFormData_shape (url : string) (form : DomForm) :
  let r := extractFormData url form in
  form_url r = url ∧
  form_method r ≠ "" ∧
  (dom_method form ≠ "" → form_method r = dom_method form) ∧
  length (form_fields r) = length (dom_inputs form) ∧
  ∀ i input, dom_inputs form !! i = Some input →
    ∃ field,
      form_fields r !! i = Some field ∧
      field_type field ≠ "" ∧
      (in_type input ≠ "" → field_type field = in_type input) ∧
      field_name field = in_name input ∧
      field_required field = in_required input ∧
      (is_Some (field_options field) ↔ in_tag input = TagSelect).
Proof.
  assert (Hor : ∀ a b, b ≠ "" → orElse a b ≠ "").
  { intros a b Hb. unfold orElse, truthy. by destruct (String.eqb_spec a ""). }
  assert (Hkeep : ∀ a b, a ≠ "" → orElse a b = a).
  { intros a b Ha. unfold orElse, truthy. by destruct (String.eqb_spec a ""). }
  assert (Hempty : ∀ a, orElse a "" = a).
  { intros a. unfold orElse, truthy. by destruct (String.eqb_spec a "") as [-> |]. }
  cbn. split_and!; [done | by apply Hor | by apply Hkeep | by rewrite length_map |].
  intros i input Hi. exists (extractField input).
  rewrite list_lookup_fmap, Hi. cbn.
  split_and!; [done | | by apply Hkeep | by apply Hempty | by rewrite orb_false_r |].
  - apply Hor. by destruct (in_tag input).
  - destruct (in_tag input); split; try done; by intros [? [=]].
Qed.

(** ** Scan state store: save, then load *)

(** X19. A state write never touches the results directory. One that
    succeeds is read back by the next load as the state written. One that
    rejects leaves [scanned.json] as the rejected call left it: as it was,
    and the next load gives what it gave before; cut short, and the next
    load gives the default state, whatever the file held; or with the whole
    text, and the next load gives the state written. *)
Theorem saveScannedDomains_roundtrip (doc : ScanState) (m : Machine) :
  ∃ r m',
    saveScannedDomains doc m = (r, m') ∧
    resultDir m' = resultDir m ∧
    (hd false (writeFaults m) = false →
       r = Ok tt ∧ loadScannedDomains m' = (Ok doc, m')) ∧
    (hd false (writeFaults m) = true →
       r = Throw (IOError "writeFile") ∧
       fst (loadScannedDomains m')
       = match hd Untouched (writeDamage m) with
         | Untouched => fst (loadScannedDomains m)
         | Truncated _ => Ok defaultStats
         | Stored => Ok doc
         end).
Proof.
  unfold saveScannedDomains, writeGate, emit, modify, bind.
  destruct (hd false (writeFaults m)).
  - destruct (hd Untouched (writeDamage m)); eexists _, _; (split; [reflexivity |]); cbn;
      (split_and!; try done); intros _; (split; [done |]);
      unfold loadScannedDomains, try_catch, bind, readStatFile; cbn; try done.
    by destruct (statFile m).
  - eexists _, _. split; [reflexivity |]. cbn. split_and!; try done.
Qed.

Lemma saveScannedDomains_roundtrip_witness :
  let old := {| scanned := ["a.com"]; lastUpdate := Some "t0" |} in
  let new := {| scanned := ["a.com"; "b.com"]; lastUpdate := Some "t1" |} in
  let m := Examples.machineLeaving Examples.emptyDir (StatDocument old) [true]
             [Truncated 10] in
  loadScannedDomains m = (Ok old, m) ∧
  ∃ m',
    saveScannedDomains new m = (Throw (IOError "writeFile"), m') ∧
    fst (loadScannedDomains m') = Ok defaultStats.
Proof.
  split; [reflexivity |].
  destruct (saveScannedDomains_roundtrip
              {| scanned := ["a.com"; "b.com"]; lastUpdate := Some "t1" |}
              (Examples.machineLeaving Examples.emptyDir
                 (StatDocument {| scanned := ["a.com"]; lastUpdate := Some "t0" |})
                 [true] [Truncated 10]))
    as (r & m' & Hrun & _ & _ & Hfail).
  destruct (Hfail eq_refl) as [-> Hload].
  exists m'. split; [exact Hrun | exact Hload].
Defined.

(** ** Domain feed aggregator: order and shape of the entries *)

Lemma fetchDomains_elem (domainsText wildcardsText : option string) (d : string) :
  d ∈ fetchDomains domainsText wildcardsText ↔
    (∃ text line, domainsText = Some text ∧ line ∈ split LF text ∧
       d = trim line ∧ d ≠ "" ∧ startsWith d "#" = false)
    ∨ (∃ text line, wildcardsText = Some text ∧ line ∈ split LF text ∧
         trim line ≠ "" ∧ startsWith (trim line) "#" = false ∧
         d = dropPrefix "*." (trim line) ∧ d ≠ "").
Proof.
  unfold fetchDomains, addFeed.
  destruct wildcardsText as [wt |], domainsText as [dt |].
  - rewrite (fold_lines_elem _ _ (λ ds l x, addWildcardLine_elem ds l x)).
    rewrite (fold_lines_elem _ _ (λ ds l x, addDomainLine_elem ds l x)).
    rewrite elem_of_nil. split.
    + intros [[[] | (l & ? & ?)] | (l & ? & ?)];
        [left; exists dt, l | right; exists wt, l]; tauto.
    + intros [(? & l & [= <-] & ? & ?) | (? & l & [= <-] & ? & ?)]; eauto 6.
  - rewrite (fold_lines_elem _ _ (λ ds l x, addWildcardLine_elem ds l x)).
    rewrite elem_of_nil. split.
    + intros [[] | (l & ? & ?)]. right. exists wt, l. tauto.
    + intros [(? & ? & [=] & _) | (? & l & [= <-] & ? & ?)]; eauto 6.
  - rewrite (fold_lines_elem _ _ (λ ds l x, addDomainLine_elem ds l x)).
    rewrite elem_of_nil. split.
    + intros [[] | (l & ? & ?)]. left. exists dt, l. tauto.
    + intros [(? & l & [= <-] & ? & ?) | (? & ? & [=] & _)]; eauto 6.
  - rewrite elem_of_nil. split; [done |].
    intros [(? & ? & [=] & _) | (? & ? & [=] & _)].
Qed.

Lemma set_add_prefix (d : string) (ds : list string) : ds `prefix_of` set_add d ds.
Proof. unfold set_add. case_bool_decide; [done |]. by apply prefix_app_r. Qed.

Lemma fold_lines_prefix (cb : list string → string → list string)
    (lines : list string) (ds : list string) :
  (∀ ds line, ds `prefix_of` cb ds line) →
  ds `prefix_of` fold_left cb lines ds.
Proof.
  intros Hcb. revert ds. induction lines as [| l lines IH]; intros ds; simpl; [done |].
  etrans; [apply Hcb | apply IH].
Qed.

(** X20. The wildcard list, or the failure of its fetch, never removes or
    moves what the exact list contributes: the list collected from the exact
    list alone is a prefix of the list collected from both. *)
Theorem fetchDomains_exact_first (domainsText wildcardsText : option string) :
  fetchDomains domainsText None `prefix_of` fetchDomains domainsText wildcardsText.
Proof.
  unfold fetchDomains at 2. unfold addFeed at 1.
  destruct wildcardsText as [wt |]; [| done].
  apply fold_lines_prefix. intros ds line. unfold addWildcardLine.
  destruct (_ && _); [| done]. destruct (truthy _); [apply set_add_prefix | done].
Qed.

Lemma split_no_sep (sep : ascii) (s : string) :
  Forall (λ line, allChars (λ c, negb (Ascii.eqb c sep)) line = true) (split sep s).
Proof.
  induction s as [| c s IH]; simpl; [by repeat constructor |].
  destruct (Ascii.eqb c sep) eqn:Hc; [by constructor |].
  destruct (split sep s) as [| p ps]; [repeat constructor; simpl; by rewrite Hc |].
  apply Forall_cons in IH as [Hp Hps]. constructor; [| done]. simpl. by rewrite Hc, Hp.
Qed.

Lemma allChars_trimStart (p : ascii → bool) (s : string) :
  allChars p s = true → allChars p (trimStart s) = true.
Proof.
  induction s as [| c s IH]; simpl; [done |].
  intros [Hc Hs]%andb_prop. destruct (is_ws c); [by apply IH |]. simpl. by rewrite Hc, Hs.
Qed.

Lemma allChars_trimEnd (p : ascii → bool) (s : string) :
  allChars p s = true → allChars p (trimEnd s) = true.
Proof.
  induction s as [| c s IH]; simpl; [done |].
  intros [Hc Hs]%andb_prop. specialize (IH Hs).
  destruct (trimEnd s); [destruct (is_ws c); simpl; by rewrite ?Hc |].
  simpl in *. by rewrite Hc, IH.
Qed.

Lemma allChars_dropPrefix (p : ascii → bool) (pre s : string) :
  allChars p s = true → allChars p (dropPrefix pre s) = true.
Proof.
  unfold dropPrefix. destruct (stripPrefix pre s) as [r |] eqn:Hr; [| done].
  apply stripPrefix_Some in Hr as ->. rewrite allChars_app. by intros [_ ?]%andb_prop.
Qed.

Lemma trimEnd_cons (c : ascii) (r : string) :
  trimEnd (String c r) =
    match trimEnd r with
    | EmptyString => if is_ws c then EmptyString else String c EmptyString
    | r' => String c r'
    end.
Proof. reflexivity. Qed.

Lemma trimEnd_idem (s : string) : trimEnd (trimEnd s) = trimEnd s.
Proof.
  induction s as [| c s IH]; [done |]. rewrite trimEnd_cons.
  destruct (trimEnd s) as [| c' r'] eqn:Hs.
  - destruct (is_ws c) eqn:Hc; [done |]. rewrite trimEnd_cons. cbn [trimEnd]. by rewrite Hc.
  - rewrite trimEnd_cons, IH. done.
Qed.

Lemma trimStart_head (s : string) :
  trimStart s = "" ∨ ∃ c r, trimStart s = String c r ∧ is_ws c = false.
Proof.
  induction s as [| c s IH]; [by left |]. cbn [trimStart].
  destruct (is_ws c) eqn:Hc; [done |]. right. eauto.
Qed.

Lemma trim_idem (s : string) : trim (trim s) = trim s.
Proof.
  unfold trim. destruct (trimStart_head s) as [-> | (c & r & -> & Hc)]; [done |].
  assert (∃ r', trimEnd (String c r) = String c r') as [r' Hr].
  { cbn [trimEnd]. destruct (trimEnd r); [rewrite Hc |]; eauto. }
  rewrite Hr. cbn [trimStart]. rewrite Hc, <- Hr. apply trimEnd_idem.
Qed.

Lemma trimEnd_suffix (p r : string) :
  trimEnd (p +:+ r) = p +:+ r → r ≠ "" → trimEnd r = r.
Proof.
  intros H Hr. induction p as [| c p IH]; [done |]. apply IH.
  change (String c p +:+ r) with (String c (p +:+ r)) in H.
  rewrite trimEnd_cons in H.
  destruct (trimEnd (p +:+ r)) as [| c' r'] eqn:Ht.
  - destruct (is_ws c); [done |]. injection H as H. by destruct p.
  - by injection H.
Qed.

(** X21. No collected entry contains a line feed or ends with white space,
    and an entry contributed by the exact list has no white space at either
    end. *)
Theorem fetchDomains_clean (domainsText wildcardsText : option string) (d : string) :
  d ∈ fetchDomains domainsText wildcardsText →
  allChars (λ c, negb (Ascii.eqb c LF)) d = true ∧
  trimEnd d = d ∧
  (d ∈ fetchDomains domainsText None → trim d = d).
Proof.
  intros Hd. split_and!.
  - apply fetchDomains_elem in Hd
      as [(text & line & _ & Hline & -> & _) | (text & line & _ & Hline & _ & _ & -> & _)];
      pose proof (split_no_sep LF text) as Hall; rewrite Forall_forall in Hall;
      specialize (Hall line Hline).
    + by apply allChars_trimEnd, allChars_trimStart.
    + by apply allChars_dropPrefix, allChars_trimEnd, allChars_trimStart.
  - apply fetchDomains_elem in Hd
      as [(text & line & _ & _ & -> & _) | (text & line & _ & _ & _ & _ & -> & Hne)].
    + apply trimEnd_idem.
    + unfold dropPrefix in *. destruct (stripPrefix "*." (trim line)) as [r |] eqn:Hr;
        [| apply trimEnd_idem].
      apply stripPrefix_Some in Hr. apply (trimEnd_suffix "*." r); [| done].
      rewrite <- Hr. apply trimEnd_idem.
  - intros [(text & line & _ & _ & -> & _) | (? & ? & [=] & _)]%fetchDomains_elem.
    apply trim_idem.
Qed.

Lemma fetchDomains_clean_witness :
  trimEnd "a.com" = "a.com" ∧ trim "a.com" = "a.com".
Proof.
  destruct (fetchDomains_clean
              (Some (Examples.unlines ["  a.com " +:+ String (ascii_of_nat 13) ""; "# x"]))
              (Some "*.b.com") "a.com") as (_ & Hend & Hboth).
  - vm_compute. left.
  - split; [exact Hend | apply Hboth]. vm_compute. left.
Defined.
